(** * alt-controller: the command relay servers

    A shallow embedding of the two Express servers of the repository,
    [backend_server.js] (the role-aware server, module [Server]) and its
    earlier flat variant (module [Legacy]), with the properties of their
    command log, user registry and visibility filter.

    Modelling conventions.
    - A request is what [express.json()] and the query parser hand to a
      handler: the fields the handlers read from [req.body] and
      [req.query].  Every field of the body the handlers store
      ([scriptId], [playerId], [playerName], [command], [args],
      [timestamp]) is an arbitrary JSON value or absent ([value]); the
      parameters of the query string and the [apiKey] are strings or
      absent ([prim]): a parameter that the query parser would turn into
      an array or an object is not modelled.
    - A JSON object or array of one request is never the same object as
      one of another request: [===], [Map] and [Set] never find it equal
      to anything a later request carries.
    - Numbers are integers (millisecond instants); the conversion of a
      string to a number is left to the runtime ([StringToNumber]).
    - A handler reads the clock once: the instant [now] it is run at.
    - A handler is a computation over the server's module-level variables
      that either completes normally or throws; the [try]/[catch] of the
      handler turns a throw into the 500 answer and keeps the assignments
      made before it.  The callback of the timer has no [try]: a throw in
      it ends the process.
    - [console.log] is modelled where evaluating its argument can throw
      (a template literal that converts a JSON object to a string). *)

From Stdlib Require Import ZArith Lia.
From stdpp Require Import base decidable countable strings pretty list gmap relations.

(** ** JavaScript values *)

Module JS.

(** JSON scalars, and [undefined] for an absent field. *)
Inductive prim : Type :=
  | PUndefined
  | PNull
  | PBool (b : bool)
  | PNum (z : Z)
  | PStr (s : string).

(** JSON values. An object is the list of its own properties. *)
#[warnings="-register-all"]
Inductive value : Type :=
  | VPrim (p : prim)
  | VObj (props : list (string * value))
  | VArr (items : list value).

(** The result of [ToNumber]. *)
Inductive number : Type :=
  | NaN
  | Num (z : Z).

(** Completion of an evaluation: a value, or a thrown exception. *)
Inductive completion (A : Type) : Type :=
  | Normal (a : A)
  | Throw.
Arguments Normal {A} a.
Arguments Throw {A}.

#[global] Instance completion_eq_dec {A} `{EqDecision A} : EqDecision (completion A).
Proof. solve_decision. Defined.

#[global] Instance completion_ret : MRet completion := λ A a, Normal a.

#[global] Instance completion_bind : MBind completion := λ A B f c,
  match c with
  | Normal a => f a
  | Throw => Throw
  end.

#[global] Instance completion_fmap : FMap completion := λ A B f c,
  match c with
  | Normal a => Normal (f a)
  | Throw => Throw
  end.

#[global] Instance prim_eq_dec : EqDecision prim.
Proof. solve_decision. Defined.

Definition prim_encode (p : prim) : unit + (unit + (bool + (Z + string))) :=
  match p with
  | PUndefined => inl tt
  | PNull => inr (inl tt)
  | PBool b => inr (inr (inl b))
  | PNum z => inr (inr (inr (inl z)))
  | PStr s => inr (inr (inr (inr s)))
  end.

Definition prim_decode (x : unit + (unit + (bool + (Z + string)))) : prim :=
  match x with
  | inl _ => PUndefined
  | inr (inl _) => PNull
  | inr (inr (inl b)) => PBool b
  | inr (inr (inr (inl z))) => PNum z
  | inr (inr (inr (inr s))) => PStr s
  end.

#[global] Instance prim_countable : Countable prim.
Proof. apply (inj_countable' prim_encode prim_decode). by intros []. Defined.

(** The part of the runtime the model does not fix: [StringToNumber]. *)
Class Runtime : Type := { StringToNumber : string → number }.

(** [ToBoolean]. *)
Definition truthy_prim (p : prim) : bool :=
  match p with
  | PUndefined | PNull => false
  | PBool b => b
  | PNum z => negb (z =? 0)%Z
  | PStr s => negb (String.eqb s "")
  end.

Definition truthy (v : value) : bool :=
  match v with
  | VPrim p => truthy_prim p
  | VObj _ | VArr _ => true
  end.

(** [ToNumber] on a scalar. *)
Definition ToNumber `{Runtime} (p : prim) : number :=
  match p with
  | PUndefined => NaN
  | PNull => Num 0
  | PBool b => Num (if b then 1 else 0)
  | PNum z => Num z
  | PStr s => StringToNumber s
  end.

(** [a === b] for scalars. *)
Definition strict_eq (a b : prim) : bool := bool_decide (a = b).

(** [v === p] for a JSON value [v] and a scalar [p]. An object or an array
    is equal only to itself, never to a scalar. *)
Definition strict_eq_val (v : value) (p : prim) : bool :=
  match v with
  | VPrim q => strict_eq q p
  | VObj _ | VArr _ => false
  end.

(** Whether a JSON value is a given scalar. *)
#[global] Instance value_is_prim_dec (v : value) (p : prim) : Decision (v = VPrim p).
Proof.
  destruct v as [q| |]; [|by right..].
  destruct (decide (q = p)) as [->|]; [by left|right; congruence].
Defined.

(** [a || b]. *)
Definition or_else_prim (a b : prim) : prim := if truthy_prim a then a else b.
Definition or_else (a b : value) : value := if truthy a then a else b.

Definition undefined : value := VPrim PUndefined.

Fixpoint own_property (props : list (string * value)) (k : string) : value :=
  match props with
  | [] => undefined
  | (k', v) :: rest => if String.eqb k' k then v else own_property rest k
  end.

(** [v[k]] for a [v] that is neither [undefined] nor [null], and a name [k]
    that [Object.prototype], [Array.prototype] and the wrapper prototypes
    do not define (every name the servers read is such a name). *)
Definition property (v : value) (k : string) : value :=
  match v with
  | VObj props => own_property props k
  | VPrim _ | VArr _ => undefined
  end.

Definition nullish (v : value) : bool :=
  match v with
  | VPrim PUndefined | VPrim PNull => true
  | _ => false
  end.

(** [v.k]: reading a property of [undefined] or [null] throws a [TypeError]. *)
Definition get_property (v : value) (k : string) : completion value :=
  if nullish v then Throw else Normal (property v k).

(** [typeof v === 'object']. *)
Definition typeof_object (v : value) : bool :=
  match v with
  | VPrim PNull | VObj _ | VArr _ => true
  | VPrim _ => false
  end.

Definition has_own (props : list (string * value)) (k : string) : bool :=
  existsb (λ kv, String.eqb kv.1 k) props.

(** Whether [ToString] throws on [v], as in a template literal.  A parsed
    JSON object with an own property [toString] has no callable
    [toString], and [valueOf] gives back the object: a [TypeError].  An
    array joins the strings of its items. *)
Fixpoint to_string_throws (v : value) : bool :=
  match v with
  | VPrim _ => false
  | VObj props => has_own props "toString"
  | VArr items => existsb to_string_throws items
  end.

Definition scalar (v : value) : option prim :=
  match v with
  | VPrim p => Some p
  | VObj _ | VArr _ => None
  end.

(** [a === b] for two JSON values of different requests. *)
Definition strict_eq_values (a b : value) : bool :=
  match a, b with
  | VPrim p, VPrim q => strict_eq p q
  | _, _ => false
  end.

(** [ToString] on a scalar (a number is an integer). *)
Definition prim_to_string (p : prim) : string :=
  match p with
  | PUndefined => "undefined"
  | PNull => "null"
  | PBool b => if b then "true" else "false"
  | PNum z => pretty z
  | PStr s => s
  end.

(** [ss.join(",")] *)
Fixpoint join (ss : list string) : string :=
  match ss with
  | [] => ""
  | [s] => s
  | s :: rest => s +:+ "," +:+ join rest
  end.

(** The string [ToString] gives for [v] when it does not throw: an object
    without an own [toString] is ["[object Object]"], an array is the join
    of the strings of its items, with the empty string for [null] and
    [undefined]. *)
Fixpoint string_of (v : value) : string :=
  match v with
  | VPrim p => prim_to_string p
  | VObj _ => "[object Object]"
  | VArr items =>
      join (map (λ item,
                   match item with
                   | VPrim PUndefined | VPrim PNull => ""
                   | _ => string_of item
                   end) items)
  end.

(** [ToNumber] on a JSON value. An object or an array is first converted
    to a primitive: [valueOf] gives the object back, so the primitive is
    the string of [ToString], and the conversion throws where [ToString]
    does. *)
Definition to_number `{Runtime} (v : value) : completion number :=
  match v with
  | VPrim p => Normal (ToNumber p)
  | VObj _ | VArr _ =>
      if to_string_throws v then Throw
      else Normal (StringToNumber (string_of v))
  end.

(** [v < c] and [v > c] for a JSON value [v] and a number [c]. *)
Definition value_lt `{Runtime} (v : value) (c : Z) : completion bool :=
  n ← to_number v;
  mret (match n with Num n => (n <? c)%Z | NaN => false end).

Definition value_gt `{Runtime} (v : value) (c : Z) : completion bool :=
  n ← to_number v;
  mret (match n with Num n => (c <? n)%Z | NaN => false end).


End JS.

(** ** Handlers as computations over the server's variables *)

Module Eff.
Import JS.

(** A computation over a store [S] that completes with an [A] or throws;
    the store it leaves is kept in both cases. *)
Definition eff (S A : Type) : Type := S → completion A * S.

#[global] Instance eff_ret {S} : MRet (eff S) := λ A a s, (Normal a, s).

#[global] Instance eff_bind {S} : MBind (eff S) := λ A B f m s,
  match m s with
  | (Normal a, s') => f a s'
  | (Throw, s') => (Throw, s')
  end.

Definition throw {S A} : eff S A := λ s, (Throw, s).
Definition gets {S A} (f : S → A) : eff S A := λ s, (Normal (f s), s).
Definition modify {S} (f : S → S) : eff S unit := λ s, (Normal tt, f s).

(** An evaluation that does not touch the store. *)
Definition eval {S A} (c : completion A) : eff S A := λ s, (c, s).

(** [if (b) { m }] *)
Definition when {S} (b : bool) (m : eff S unit) : eff S unit :=
  if b then m else mret tt.

(** [try { m } catch (error) { answer with r }] *)
Definition try_catch {S R} (m : eff S R) (r : R) : S → R * S := λ s,
  match m s with
  | (Normal a, s') => (a, s')
  | (Throw, s') => (r, s')
  end.

(** [console.log] of a template literal that interpolates [vs]. *)
Definition console_log_template {S} (vs : list value) : eff S unit :=
  if existsb to_string_throws vs then throw else mret tt.

(** [l.filter(cb)] for a callback that may throw. *)
Fixpoint filter_cb {A} (cb : A → completion bool) (l : list A) : completion (list A) :=
  match l with
  | [] => Normal []
  | x :: rest =>
      match cb x with
      | Throw => Throw
      | Normal b =>
          match filter_cb cb rest with
          | Throw => Throw
          | Normal kept => Normal (if b then x :: kept else kept)
          end
      end
  end.

(** [l.slice(-n)]: the last [n] items of [l] (all of [l] when it is shorter). *)
Definition slice_last {A} (n : nat) (l : list A) : list A :=
  drop (length l - n) l.

End Eff.

(** ** Requests and configuration, common to both servers *)

Module Express.
Import JS.

(** [process.env.API_KEY || null] and [process.env.REQUIRE_API_KEY === 'true']. *)
Record config : Type := {
  API_KEY : prim;
  REQUIRE_API_KEY : bool
}.

(** The fields of [req.body] and [req.query] the handlers read. *)
Record request : Type := {
  body_scriptId : value;
  body_playerId : value;
  body_playerName : value;
  body_command : value;
  body_args : value;
  body_timestamp : value;
  body_apiKey : prim;
  query_scriptId : prim;
  query_playerId : prim;
  query_apiKey : prim
}.

End Express.

(** ** The role-aware server, [backend_server.js] *)

Module Server.
Import JS Eff Express.

(** A stored command. [createdAt] is the instant whose ISO rendering the
    code stores; [targetAlts] is ["all"] on an admin command and absent on
    any other. *)
Record commandObj : Type := {
  cmdId : string;
  scriptId : value;
  playerId : value;
  playerName : value;
  command : value;
  args : value;
  timestamp : value;
  createdAt : Z;
  isAdminCommand : bool;
  targetAlts : prim
}.

(** A value of [registeredUsers]. *)
Record user : Type := {
  user_scriptId : value;
  user_playerId : value;
  user_playerName : value;
  isAuthorized : value;
  user_timestamp : Z
}.

(** The module-level variables ([connectedClients] is never written).
    The [Map] and the [Set] are kept in two parts: what is stored under a
    scalar, which a later request can find again, and what is stored
    under an object or an array of a request, which no later request can
    find again but which still counts in the size and in the iteration. *)
Record state : Type := {
  commands : list commandObj;
  registeredUsers : gmap prim user;
  authorizedUsers : gset prim;
  objectKeyedUsers : list user;
  objectNames : list value
}.

Definition initial : state :=
  {| commands := []; registeredUsers := ∅; authorizedUsers := ∅;
     objectKeyedUsers := []; objectNames := [] |}.

Inductive response : Type :=
  | InvalidApiKey                         (* 401 *)
  | MissingRequiredFields                 (* 400 *)
  | InternalServerError                   (* 500 *)
  | UserRegistered (isAuthorized : value) (* 'User registered successfully' *)
  | AdminCommandDistributed (commandId : string)
  | CommandReceived (commandId : string)
  | CommandList (commands : list commandObj) (count : nat).

Definition validateApiKey (cfg : config) (req : request) : bool :=
  if negb (REQUIRE_API_KEY cfg) || negb (truthy_prim (API_KEY cfg)) then true
  else
    let apiKey := or_else_prim (body_apiKey req) (query_apiKey req) in
    strict_eq apiKey (API_KEY cfg).

(** Defined in [backend_server.js], and called nowhere in it. *)
Definition allowedKeys : list string :=
  ["command"; "args"; "targetAlts"; "mainUser"; "commandId"; "timestamp"].

Definition sanitizeCommandData (data : value) : value :=
  if negb (truthy data) then VObj []
  else
    VObj (omap (λ key,
            match property data key with
            | VPrim PUndefined => None
            | v => Some (key, v)
            end) allowedKeys).

(** [registeredUsers.set(k, u)] *)
Definition registeredUsers_set (k : value) (u : user) (st : state) : state :=
  match k with
  | VPrim p =>
      {| commands := commands st;
         registeredUsers := <[p := u]> (registeredUsers st);
         authorizedUsers := authorizedUsers st;
         objectKeyedUsers := objectKeyedUsers st;
         objectNames := objectNames st |}
  | VObj _ | VArr _ =>
      {| commands := commands st;
         registeredUsers := registeredUsers st;
         authorizedUsers := authorizedUsers st;
         objectKeyedUsers := objectKeyedUsers st ++ [u];
         objectNames := objectNames st |}
  end.

(** [authorizedUsers.add(name)] *)
Definition authorizedUsers_add (name : value) (st : state) : state :=
  match name with
  | VPrim p =>
      {| commands := commands st;
         registeredUsers := registeredUsers st;
         authorizedUsers := {[p]} ∪ authorizedUsers st;
         objectKeyedUsers := objectKeyedUsers st;
         objectNames := objectNames st |}
  | VObj _ | VArr _ =>
      {| commands := commands st;
         registeredUsers := registeredUsers st;
         authorizedUsers := authorizedUsers st;
         objectKeyedUsers := objectKeyedUsers st;
         objectNames := objectNames st ++ [name] |}
  end.

(** [authorizedUsers.has(name)] for the name of a request. *)
Definition authorizedUsers_has (name : value) (st : state) : bool :=
  match name with
  | VPrim p => bool_decide (p ∈ authorizedUsers st)
  | VObj _ | VArr _ => false
  end.

Definition commands_assign (cmds : list commandObj) (st : state) : state :=
  {| commands := cmds;
     registeredUsers := registeredUsers st;
     authorizedUsers := authorizedUsers st;
     objectKeyedUsers := objectKeyedUsers st;
     objectNames := objectNames st |}.

Definition commands_push (cmd : commandObj) (st : state) : state :=
  commands_assign (commands st ++ [cmd]) st.

(** The object literal of the admin branch. *)
Definition adminCommandObj (now : Z) (req : request) : commandObj :=
  {| cmdId := pretty now;
     scriptId := body_scriptId req;
     playerId := body_playerId req;
     playerName := body_playerName req;
     command := body_command req;
     args := or_else (body_args req) (VObj []);
     timestamp := body_timestamp req;
     createdAt := now;
     isAdminCommand := true;
     targetAlts := PStr "all" |}.

(** The object literal of the other branch. *)
Definition altCommandObj (now : Z) (req : request) : commandObj :=
  {| cmdId := pretty now;
     scriptId := body_scriptId req;
     playerId := body_playerId req;
     playerName := body_playerName req;
     command := body_command req;
     args := or_else (body_args req) (VObj []);
     timestamp := body_timestamp req;
     createdAt := now;
     isAdminCommand := false;
     targetAlts := PUndefined |}.

(** [app.post('/api/command', ...)]. The three [console.log] calls kept
    are the template literals that convert [playerName], [playerId] or
    [command] to a string: the one after the registration, the one that
    opens the admin branch, and the one that follows the push of the
    other branch.  The calls left out cannot throw: they log the sizes of
    the stores, pass objects to [console.log] without converting them to
    a string, or (the second log line of the admin branch) convert again
    the values that the first one converted. *)
Definition post_command (cfg : config) (now : Z) (req : request)
  : state → response * state :=
  try_catch
    (if negb (validateApiKey cfg req) then mret InvalidApiKey
     else if negb (truthy (body_scriptId req))
             || negb (truthy (body_playerId req))
             || negb (truthy (body_command req))
     then mret MissingRequiredFields
     else if strict_eq_val (body_command req) (PStr "register") then
       let userData := body_args req in
       userData_isAuthorized ← eval (get_property userData "isAuthorized");
       modify (registeredUsers_set (body_playerId req)
                 {| user_scriptId := body_scriptId req;
                    user_playerId := body_playerId req;
                    user_playerName := body_playerName req;
                    isAuthorized := userData_isAuthorized;
                    user_timestamp := now |});;
       when (truthy userData_isAuthorized)
         (modify (authorizedUsers_add (body_playerName req)));;
       console_log_template [body_playerName req; body_playerId req];;
       mret (UserRegistered userData_isAuthorized)
     else
       isAdmin ← gets (authorizedUsers_has (body_playerName req));
       answer ← (if isAdmin : bool then
                   console_log_template [body_command req; body_playerName req];;
                   let commandObj := adminCommandObj now req in
                   modify (commands_push commandObj);;
                   mret (AdminCommandDistributed (cmdId commandObj))
                 else
                   let commandObj := altCommandObj now req in
                   modify (commands_push commandObj);;
                   console_log_template
                     [body_command req; body_playerName req; body_playerId req];;
                   mret (CommandReceived (cmdId commandObj)));
       cmds ← gets commands;
       when (bool_decide (100 < length cmds))
         (modify (commands_assign (slice_last 100 cmds)));;
       mret answer)
    InternalServerError.

Section filter.
Context `{Runtime}.

Definition isCurrentUserAdmin (currentUser : option user) : value :=
  match currentUser with
  | Some u => isAuthorized u
  | None => VPrim (PBool false)
  end.

Definition currentUserName (currentUser : option user) : value :=
  match currentUser with
  | Some u => user_playerName u
  | None => VPrim PNull
  end.

(** The callback of [commands.filter] in the poll handler, closed over the
    handler's [scriptId], [playerId] (of [req.query]), [isCurrentUserAdmin]
    and [currentUserName]. The comparison of [cmd.timestamp] throws when
    the timestamp has no conversion to a number. *)
Definition visible (now : Z) (req : request)
    (isCurrentUserAdmin : value) (currentUserName : value)
    (cmd : commandObj) : completion bool :=
  if negb (strict_eq_val (scriptId cmd) (query_scriptId req))
     || strict_eq_val (playerId cmd) (query_playerId req) then mret false
  else
    expired ← value_lt (timestamp cmd) (now - 30000);
    if expired : bool then mret false
    else if isAdminCommand cmd then
      if truthy isCurrentUserAdmin then mret false
      else if truthy (args cmd) && truthy (property (args cmd) "target") then
        mret (strict_eq_values (property (args cmd) "target") currentUserName
              || strict_eq_val (property (args cmd) "target") (query_playerId req))
      else mret true
    else if negb (isAdminCommand cmd) && truthy isCurrentUserAdmin then mret true
    else mret false.

Definition filteredCommands (now : Z) (req : request) (st : state)
  : completion (list commandObj) :=
  let currentUser := registeredUsers st !! query_playerId req in
  filter_cb (visible now req (isCurrentUserAdmin currentUser)
               (currentUserName currentUser))
    (commands st).

(** [app.get('/api/commands', ...)] *)
Definition get_commands (cfg : config) (now : Z) (req : request)
  : state → response * state :=
  try_catch
    (if negb (validateApiKey cfg req) then mret InvalidApiKey
     else if negb (truthy_prim (query_scriptId req))
             || negb (truthy_prim (query_playerId req))
     then mret MissingRequiredFields
     else
       st ← gets (λ st, st);
       found ← eval (filteredCommands now req st);
       mret (CommandList found (length found)))
    InternalServerError.

(** The callback of [setInterval]: the cleanup that runs every 5 minutes.
    It is not in a [try]: [Throw] is an uncaught exception, the log is
    not assigned and the process ends. *)
Definition cleanup (now : Z) (st : state) : completion state :=
  let cutoff := (now - 300000)%Z in
  kept ← filter_cb (λ cmd, value_gt (timestamp cmd) cutoff) (commands st);
  mret (commands_assign kept st).

End filter.

End Server.

(** ** The flat variant of the server *)

Module Legacy.
Import JS Eff Express.

Record commandObj : Type := {
  cmdId : string;
  scriptId : value;
  playerId : value;
  playerName : value;
  command : value;
  args : value;
  timestamp : value;
  createdAt : Z;
  isCoordinated : bool
}.

(** The module-level variable ([connectedClients] is never written). *)
Record state : Type := {
  commands : list commandObj
}.

Definition initial : state := {| commands := [] |}.

Inductive response : Type :=
  | InvalidApiKey                         (* 401 *)
  | MissingRequiredFields                 (* 400 *)
  | InvalidCoordinatedCommandData         (* 400 *)
  | InternalServerError                   (* 500 *)
  | CoordinatedCommandReceived (commandId : string)
  | CommandReceived (commandId : string)
  | CommandList (commands : list commandObj) (count : nat).

Definition validateApiKey (cfg : config) (req : request) : bool :=
  if negb (REQUIRE_API_KEY cfg) || negb (truthy_prim (API_KEY cfg)) then true
  else
    let apiKey := or_else_prim (body_apiKey req) (query_apiKey req) in
    strict_eq apiKey (API_KEY cfg).

Definition requiredFields : list string := ["command"].

Definition validateCoordinatedCommand (data : value) : bool :=
  if negb (truthy data) || negb (typeof_object data) then false
  else forallb (λ field, truthy (property data field)) requiredFields.

Definition allowedKeys : list string :=
  ["command"; "args"; "targetAlts"; "mainUser"; "commandId"; "timestamp"].

Definition sanitizeCommandData (data : value) : value :=
  if negb (truthy data) then VObj []
  else
    VObj (omap (λ key,
            match property data key with
            | VPrim PUndefined => None
            | v => Some (key, v)
            end) allowedKeys).

Definition commands_assign (cmds : list commandObj) (st : state) : state :=
  {| commands := cmds |}.

Definition commands_push (cmd : commandObj) (st : state) : state :=
  commands_assign (commands st ++ [cmd]) st.

(** The object literal of the coordinated branch. *)
Definition coordinatedCommandObj (now : Z) (req : request)
    (coordinatedData : value) : commandObj :=
  {| cmdId := pretty now;
     scriptId := body_scriptId req;
     playerId := body_playerId req;
     playerName := body_playerName req;
     command := VPrim (PStr "coordinated");
     args := coordinatedData;
     timestamp := body_timestamp req;
     createdAt := now;
     isCoordinated := true |}.

(** The object literal of the regular branch. *)
Definition regularCommandObj (now : Z) (req : request) : commandObj :=
  {| cmdId := pretty now;
     scriptId := body_scriptId req;
     playerId := body_playerId req;
     playerName := body_playerName req;
     command := body_command req;
     args := or_else (body_args req) (VObj []);
     timestamp := body_timestamp req;
     createdAt := now;
     isCoordinated := false |}.

(** [app.post('/api/command', ...)]. The [console.log] calls kept are the
    template literals that follow each push; the third call of the
    coordinated branch logs [JSON.stringify(coordinatedData, null, 2)],
    which does not throw on data that was parsed from JSON. *)
Definition post_command (cfg : config) (now : Z) (req : request)
  : state → response * state :=
  try_catch
    (if negb (validateApiKey cfg req) then mret InvalidApiKey
     else if negb (truthy (body_scriptId req))
             || negb (truthy (body_playerId req))
             || negb (truthy (body_command req))
     then mret MissingRequiredFields
     else
       answer ←
         (if strict_eq_val (body_command req) (PStr "coordinated") then
            let coordinatedData := sanitizeCommandData (body_args req) in
            if negb (validateCoordinatedCommand coordinatedData)
            then mret (inl InvalidCoordinatedCommandData)
            else
              let commandObj := coordinatedCommandObj now req coordinatedData in
              modify (commands_push commandObj);;
              console_log_template
                [property coordinatedData "command";
                 body_playerName req; body_playerId req];;
              console_log_template
                [or_else (property coordinatedData "targetAlts")
                   (VPrim (PStr "all"))];;
              mret (inr (CoordinatedCommandReceived (cmdId commandObj)))
          else
            let commandObj := regularCommandObj now req in
            modify (commands_push commandObj);;
            console_log_template
              [body_command req; body_playerName req; body_playerId req];;
            mret (inr (CommandReceived (cmdId commandObj))));
       match answer with
       | inl early => mret early      (* [return res.status(400)...] *)
       | inr sent =>
           cmds ← gets commands;
           when (bool_decide (100 < length cmds))
             (modify (commands_assign (slice_last 100 cmds)));;
           mret sent
       end)
    InternalServerError.

Section filter.
Context `{Runtime}.

(** The callback of [commands.filter] in the poll handler. The
    comparison of [cmd.timestamp] throws when the timestamp has no
    conversion to a number, and reading [cmd.args.targetAlts] throws when
    [cmd.args] is [undefined] or [null]. *)
Definition visible (now : Z) (req : request) (cmd : commandObj)
  : completion bool :=
  if negb (strict_eq_val (scriptId cmd) (query_scriptId req))
     || strict_eq_val (playerId cmd) (query_playerId req) then mret false
  else
    expired ← value_lt (timestamp cmd) (now - 30000);
    if expired : bool then mret false
    else if isCoordinated cmd then
      targetAlts ← get_property (args cmd) "targetAlts";
      if truthy targetAlts
         && (negb (strict_eq_val targetAlts (PStr "all"))
             && negb (strict_eq_val targetAlts (query_playerId req)))
      then mret false
      else mret true
    else mret true.

(** [app.get('/api/commands', ...)] *)
Definition get_commands (cfg : config) (now : Z) (req : request)
  : state → response * state :=
  try_catch
    (if negb (validateApiKey cfg req) then mret InvalidApiKey
     else if negb (truthy_prim (query_scriptId req))
             || negb (truthy_prim (query_playerId req))
     then mret MissingRequiredFields
     else
       cmds ← gets commands;
       filteredCommands ← eval (filter_cb (visible now req) cmds);
       mret (CommandList filteredCommands (length filteredCommands)))
    InternalServerError.

(** The callback of [setInterval]: the cleanup that runs every 5 minutes.
    It is not in a [try]: [Throw] is an uncaught exception, the log is
    not assigned and the process ends. *)
Definition cleanup (now : Z) (st : state) : completion state :=
  let cutoff := (now - 300000)%Z in
  kept ← filter_cb (λ cmd, value_gt (timestamp cmd) cutoff) (commands st);
  mret (commands_assign kept st).

End filter.

End Legacy.

(** ** Vocabulary of the properties *)

Module Props.
Import JS Eff Express.

(** The request passed the key check and carries the required fields. *)
Definition post_validated (valid_key : bool) (req : request) : bool :=
  valid_key
  && truthy (body_scriptId req)
  && truthy (body_playerId req)
  && truthy (body_command req).

Definition poll_validated (valid_key : bool) (req : request) : bool :=
  valid_key
  && truthy_prim (query_scriptId req)
  && truthy_prim (query_playerId req).

(** What happens to a server: a submission, a poll, or a run of the
    periodic cleanup, each at an instant. *)
Inductive event : Type :=
  | Submit (now : Z) (req : request)
  | Poll (now : Z) (req : request)
  | Cleanup (now : Z).

(** The value has a conversion to a string, hence to a number: it is not
    an object with an own [toString], nor an array that holds one. *)
Definition convertible (v : value) : Prop := to_string_throws v = false.

(** The base visibility of a record with the given [scriptId], [playerId]
    and [timestamp] for a poll at [now]: same script, another sender, and
    the test [timestamp < now - 30000] is false, so that a timestamp that
    converts to a number is at least [now - 30000]. *)
Definition base_visible `{Runtime} (now : Z) (req : request)
    (sid pid ts : value) : Prop :=
  sid = VPrim (query_scriptId req)
  ∧ pid ≠ VPrim (query_playerId req)
  ∧ value_lt ts (now - 30000) = Normal false
  ∧ ∀ n, to_number ts = Normal (Num n) → (now - 30000 ≤ n)%Z.


(** A runtime for the examples: a string of decimal digits converts to
    the number it spells, the empty string to 0. *)
Fixpoint digits (acc : Z) (s : string) : number :=
  match s with
  | EmptyString => Num acc
  | String c rest =>
      let d := Z.of_N (Ascii.N_of_ascii c) in
      if bool_decide (48 ≤ d ≤ 57)%Z
      then digits (10 * acc + (d - 48)) rest
      else NaN
  end.

Definition digits_runtime : Runtime := {| StringToNumber := digits 0 |}.

End Props.

Module ServerProps.
Import JS Eff Express Props Server.

(** The record a submission that is not a registration pushes. *)
Definition created (st : state) (now : Z) (req : request) : commandObj :=
  if authorizedUsers_has (body_playerName req) st
  then adminCommandObj now req
  else altCommandObj now req.

(** Whether a submission pushes its record: it is validated, is not a
    registration, and the log line that opens the admin branch does not
    throw. *)
Definition pushes (cfg : config) (req : request) (st : state) : bool :=
  post_validated (validateApiKey cfg req) req
  && negb (strict_eq_val (body_command req) (PStr "register"))
  && negb (authorizedUsers_has (body_playerName req) st
           && existsb to_string_throws [body_command req; body_playerName req]).

(** The stores after the writes of a registration that read [v] as
    [args.isAuthorized]. *)
Definition registered (now : Z) (req : request) (v : value) (st : state)
  : state :=
  let written :=
    registeredUsers_set (body_playerId req)
      {| user_scriptId := body_scriptId req;
         user_playerId := body_playerId req;
         user_playerName := body_playerName req;
         isAuthorized := v;
         user_timestamp := now |} st in
  if truthy v then authorizedUsers_add (body_playerName req) written
  else written.

(** The answer that closes a submission that pushed a record and trimmed
    the log. *)
Definition command_accepted (r : response) : Prop :=
  match r with
  | AdminCommandDistributed _ | CommandReceived _ => True
  | _ => False
  end.

(** The poller is registered with a truthy [isAuthorized]. *)
Definition poller_is_admin (st : state) (req : request) : Prop :=
  ∃ u, registeredUsers st !! query_playerId req = Some u
       ∧ truthy (isAuthorized u) = true.

(** The record carries the explicit target [t]: the guard
    [cmd.args && cmd.args.target] of the filter holds. *)
Definition explicit_target (cmd : commandObj) (t : value) : Prop :=
  truthy (args cmd) = true
  ∧ property (args cmd) "target" = t
  ∧ truthy t = true.

Definition has_explicit_target (cmd : commandObj) : Prop :=
  ∃ t, explicit_target cmd t.

(** The target is the poller's stored display name, or the poller's id
    (a scalar in both cases: an object is equal to no other value). *)
Definition target_is_poller (st : state) (req : request) (t : value) : Prop :=
  (∃ u p, registeredUsers st !! query_playerId req = Some u
          ∧ user_playerName u = VPrim p
          ∧ t = VPrim p)
  ∨ t = VPrim (query_playerId req).

(** The role-target rule of the read path. *)
Inductive role_target_allows (st : state) (req : request) (cmd : commandObj) : Prop :=
  | admin_broadcast :
      isAdminCommand cmd = true →
      ¬ poller_is_admin st req →
      ¬ has_explicit_target cmd →
      role_target_allows st req cmd
  | admin_targeted t :
      isAdminCommand cmd = true →
      ¬ poller_is_admin st req →
      explicit_target cmd t →
      target_is_poller st req t →
      role_target_allows st req cmd
  | alt_to_admin :
      isAdminCommand cmd = false →
      poller_is_admin st req →
      role_target_allows st req cmd.

(** Every timestamp of the log has a conversion to a number: neither the
    filter of the poll nor the cleanup throws on such a log. *)
Definition timestamps_convertible (st : state) : Prop :=
  Forall (λ cmd, convertible (timestamp cmd)) (commands st).

Section runs.
Context `{Runtime}.

(** One event; [Throw] is the uncaught exception of a cleanup. *)
Definition apply (cfg : config) (e : event) (st : state) : completion state :=
  match e with
  | Submit now req => Normal (post_command cfg now req st).2
  | Poll now req => Normal (get_commands cfg now req st).2
  | Cleanup now => cleanup now st
  end.

(** The stores after the events [es], or as they were when a cleanup
    ended the process. *)
Fixpoint run (cfg : config) (es : list event) (st : state) : state :=
  match es with
  | [] => st
  | e :: rest =>
      match apply cfg e st with
      | Normal st' => run cfg rest st'
      | Throw => st
      end
  end.

(** The records that the events [es] push on the log, oldest first. *)
Fixpoint appended (cfg : config) (es : list event) (st : state)
  : list commandObj :=
  match es with
  | [] => []
  | e :: rest =>
      match apply cfg e st with
      | Normal st' =>
          match e with
          | Submit now req =>
              if pushes cfg req st then [created st now req] else []
          | Poll _ _ | Cleanup _ => []
          end ++ appended cfg rest st'
      | Throw => []
      end
  end.

End runs.

(** Submissions one after the other, and their answers. *)
Fixpoint submit_all (cfg : config) (subs : list (Z * request)) (st : state)
  : list response * state :=
  match subs with
  | [] => ([], st)
  | (now, req) :: rest =>
      let '(r, st') := post_command cfg now req st in
      let '(rs, st'') := submit_all cfg rest st' in
      (r :: rs, st'')
  end.

End ServerProps.

Module LegacyProps.
Import JS Eff Express Props Legacy.

(** The record a submission pushes. *)
Definition created (now : Z) (req : request) : commandObj :=
  if strict_eq_val (body_command req) (PStr "coordinated")
  then coordinatedCommandObj now req (sanitizeCommandData (body_args req))
  else regularCommandObj now req.

(** The answer that closes a submission that pushed a record and trimmed
    the log. *)
Definition command_accepted (r : response) : Prop :=
  match r with
  | CoordinatedCommandReceived _ | CommandReceived _ => True
  | _ => False
  end.

(** Whether one of the two template literals logged after the push of a
    coordinated command throws. *)
Definition coordinated_log_throws (req : request) (coordinatedData : value)
  : bool :=
  existsb to_string_throws
    [property coordinatedData "command"; body_playerName req; body_playerId req]
  || to_string_throws
       (or_else (property coordinatedData "targetAlts") (VPrim (PStr "all"))).

(** Whether the template literal logged after the push of a regular
    command throws. *)
Definition regular_log_throws (req : request) : bool :=
  existsb to_string_throws
    [body_command req; body_playerName req; body_playerId req].

(** Every coordinated record of the log has args that can be read. *)
Definition args_present (st : state) : Prop :=
  Forall (λ cmd, isCoordinated cmd = true → nullish (args cmd) = false)
    (commands st).

(** Every timestamp of the log has a conversion to a number. *)
Definition timestamps_convertible (st : state) : Prop :=
  Forall (λ cmd, convertible (timestamp cmd)) (commands st).

(** The targeting layer of the flat variant. *)
Definition target_allows (req : request) (cmd : commandObj) : Prop :=
  isCoordinated cmd = true →
  truthy (property (args cmd) "targetAlts") = true →
  property (args cmd) "targetAlts" = VPrim (PStr "all")
  ∨ property (args cmd) "targetAlts" = VPrim (query_playerId req).

Section runs.
Context `{Runtime}.

Definition apply (cfg : config) (e : event) (st : state) : completion state :=
  match e with
  | Submit now req => Normal (post_command cfg now req st).2
  | Poll now req => Normal (get_commands cfg now req st).2
  | Cleanup now => cleanup now st
  end.

Fixpoint run (cfg : config) (es : list event) (st : state) : state :=
  match es with
  | [] => st
  | e :: rest =>
      match apply cfg e st with
      | Normal st' => run cfg rest st'
      | Throw => st
      end
  end.

End runs.

Fixpoint submit_all (cfg : config) (subs : list (Z * request)) (st : state)
  : list response * state :=
  match subs with
  | [] => ([], st)
  | (now, req) :: rest =>
      let '(r, st') := post_command cfg now req st in
      let '(rs, st'') := submit_all cfg rest st' in
      (r :: rs, st'')
  end.

End LegacyProps.

(** ** Concrete requests and states for the examples *)

Module Examples.
Import JS Eff Express Props.

(** No key is required. *)
Definition cfg_open : config := {| API_KEY := PNull; REQUIRE_API_KEY := false |}.

(** A body [{scriptId, playerId, playerName, command, args, timestamp}]. *)
Definition submission (sid pid pname cmd : prim) (a : value) (ts : prim)
  : request :=
  {| body_scriptId := VPrim sid; body_playerId := VPrim pid;
     body_playerName := VPrim pname; body_command := VPrim cmd;
     body_args := a; body_timestamp := VPrim ts;
     body_apiKey := PUndefined;
     query_scriptId := PUndefined; query_playerId := PUndefined;
     query_apiKey := PUndefined |}.

(** A query [?scriptId=..&playerId=..]. *)
Definition poll (sid pid : string) : request :=
  {| body_scriptId := undefined; body_playerId := undefined;
     body_playerName := undefined; body_command := undefined;
     body_args := undefined; body_timestamp := undefined;
     body_apiKey := PUndefined;
     query_scriptId := PStr sid; query_playerId := PStr pid;
     query_apiKey := PUndefined |}.

Definition register_Admin1 : request :=
  submission (PStr "s1") (PStr "A") (PStr "Admin1") (PStr "register")
    (VObj [("isAuthorized", VPrim (PBool true))]) PUndefined.

Definition bring_from_Admin1 : request :=
  submission (PStr "s1") (PStr "A") (PStr "Admin1") (PStr "bring")
    undefined (PNum 1000).

(** The role-aware server after Admin1 registered at instant 900 and sent
    [bring] at instant 1000. *)
Definition admin1_registered : Server.state :=
  (Server.post_command cfg_open 900 register_Admin1 Server.initial).2.

Definition admin1_sent_bring : Server.state :=
  (Server.post_command cfg_open 1000 bring_from_Admin1 admin1_registered).2.

Definition bring_record : Server.commandObj :=
  Server.adminCommandObj 1000 bring_from_Admin1.

(** The same command sent without a [timestamp]. *)
Definition untimed_bring_from_Admin1 : request :=
  submission (PStr "s1") (PStr "A") (PStr "Admin1") (PStr "bring")
    undefined PUndefined.

Definition admin1_sent_untimed_bring : Server.state :=
  (Server.post_command cfg_open 1000 untimed_bring_from_Admin1
     admin1_registered).2.

Definition untimed_bring_record : Server.commandObj :=
  Server.adminCommandObj 1000 untimed_bring_from_Admin1.

(** The flat variant after the two submissions of [bring]. *)
Definition legacy_two_brings : Legacy.state :=
  (Legacy.post_command cfg_open 1000 untimed_bring_from_Admin1
     (Legacy.post_command cfg_open 1000 bring_from_Admin1 Legacy.initial).2).2.

Definition legacy_bring_record : Legacy.commandObj :=
  Legacy.regularCommandObj 1000 bring_from_Admin1.

Definition legacy_untimed_bring_record : Legacy.commandObj :=
  Legacy.regularCommandObj 1000 untimed_bring_from_Admin1.

(** A command whose [args] carry a target and a key of no list. *)
Definition targeted_args : value :=
  VObj [("target", VPrim (PStr "B")); ("evil", VPrim (PNum 1))].

Definition targeted_bring : request :=
  submission (PStr "s1") (PStr "A") (PStr "Admin1") (PStr "bring")
    targeted_args (PNum 1000).

(** A coordinated command for the flat variant. *)
Definition coordinated_args : value :=
  VObj [("command", VPrim (PStr "follow")); ("evil", VPrim (PNum 1));
        ("targetAlts", VPrim (PStr "all"))].

Definition coordinated_follow : request :=
  submission (PStr "s1") (PStr "A") (PStr "Admin1") (PStr "coordinated")
    coordinated_args (PNum 1000).

(** Bob sends [hello] before he is an admin, then registers as one. *)
Definition hello_from_Bob : request :=
  submission (PStr "s1") (PStr "B") (PStr "Bob") (PStr "hello")
    undefined (PNum 1000).

Definition register_Bob_admin : request :=
  submission (PStr "s1") (PStr "B") (PStr "Bob") (PStr "register")
    (VObj [("isAuthorized", VPrim (PBool true))]) PUndefined.

Definition hello_record : Server.commandObj :=
  Server.altCommandObj 1000 hello_from_Bob.

(** 101 submissions, at the instants 1, 2, ..., 101. *)
Definition submissions_101 : list (Z * request) :=
  (λ i : nat, (Z.of_nat i, bring_from_Admin1)) <$> seq 1 101.

(** Registrations whose args are not an object, or are missing. *)
Definition register_with_string_args : request :=
  submission (PStr "s1") (PStr "A") (PStr "Admin1") (PStr "register")
    (VPrim (PStr "yes")) PUndefined.

Definition register_without_args : request :=
  submission (PStr "s1") (PStr "A") (PStr "Admin1") (PStr "register")
    undefined PUndefined.

(** Admin1 registers again, now with [isAuthorized = false]. *)
Definition register_Admin1_as_alt : request :=
  submission (PStr "s1") (PStr "A") (PStr "Admin1") (PStr "register")
    (VObj [("isAuthorized", VPrim (PBool false))]) PUndefined.

End Examples.

(** ** The status and listing endpoints *)

Module Views.
Import JS Eff Express.

(** The counters of [GET /api/status] of the role-aware server (its
    [status] and [timestamp] fields are constant and the clock). *)
Record status : Type := {
  commandsCount : nat;
  connectedClients : nat;
  registeredUsers_size : nat;
  authorizedUsers_size : nat
}.

(** [app.get('/api/status', ...)]: no key is asked for; [connectedClients]
    is never written, so its size is 0. *)
Definition get_status (st : Server.state) : status :=
  {| commandsCount := length (Server.commands st);
     connectedClients := 0;
     registeredUsers_size :=
       size (Server.registeredUsers st) + length (Server.objectKeyedUsers st);
     authorizedUsers_size :=
       size (Server.authorizedUsers st) + length (Server.objectNames st) |}.

(** An item of the list of [GET /api/users]. *)
Record listed_user : Type := {
  listed_playerId : value;
  listed_playerName : value;
  listed_isAuthorized : value;
  listed_timestamp : Z
}.

Inductive users_response : Type :=
  | UsersInvalidApiKey                    (* 401 *)
  | UserList (users : list listed_user) (totalUsers adminUsers altUsers : nat).

Definition list_user (userData : Server.user) : listed_user :=
  {| listed_playerId := Server.user_playerId userData;
     listed_playerName := Server.user_playerName userData;
     listed_isAuthorized := Server.isAuthorized userData;
     listed_timestamp := Server.user_timestamp userData |}.

(** [app.get('/api/users', ...)]. The entries are listed in the order of
    the map of the model, which is not the insertion order of the [Map]:
    only what does not depend on the order is proved of the list. *)
Definition get_users (cfg : config) (req : request) (st : Server.state)
  : users_response :=
  if negb (Server.validateApiKey cfg req) then UsersInvalidApiKey
  else
    let users :=
      list_user
        <$> (map_to_list (Server.registeredUsers st)).*2
            ++ Server.objectKeyedUsers st in
    UserList users (length users)
      (length (filter (λ u, truthy (listed_isAuthorized u) = true) users))
      (length (filter (λ u, negb (truthy (listed_isAuthorized u)) = true) users)).

End Views.

(** ** Invariants of the stores *)

Module Invariants.
Import JS Eff Express.

(** What holds of every record the role-aware server stores. *)
Definition server_record_ok (cmd : Server.commandObj) : Prop :=
  truthy (Server.scriptId cmd) = true
  ∧ truthy (Server.playerId cmd) = true
  ∧ truthy (Server.command cmd) = true
  ∧ Server.command cmd ≠ VPrim (PStr "register")
  ∧ truthy (Server.args cmd) = true
  ∧ Server.targetAlts cmd
    = (if Server.isAdminCommand cmd then PStr "all" else PUndefined).

(** The name is in the authorized-name set: among its scalars, or among
    the objects that were added to it. *)
Definition name_authorized (name : value) (st : Server.state) : Prop :=
  match name with
  | VPrim p => p ∈ Server.authorizedUsers st
  | VObj _ | VArr _ => name ∈ Server.objectNames st
  end.

(** What holds of the registry and the authorized-name set together:
    an entry is stored under its own [playerId], which is truthy, and the
    name of an entry with a truthy [isAuthorized] is in the set. *)
Definition registry_ok (st : Server.state) : Prop :=
  (∀ id u,
     Server.registeredUsers st !! id = Some u →
     Server.user_playerId u = VPrim id
     ∧ truthy_prim id = true
     ∧ (truthy (Server.isAuthorized u) = true →
        name_authorized (Server.user_playerName u) st))
  ∧ Forall (λ u,
      scalar (Server.user_playerId u) = None
      ∧ (truthy (Server.isAuthorized u) = true →
         name_authorized (Server.user_playerName u) st))
      (Server.objectKeyedUsers st).

(** The stores of the users never lose an entry. *)
Definition users_grow (st st1 : Server.state) : Prop :=
  dom (Server.registeredUsers st) ⊆ dom (Server.registeredUsers st1)
  ∧ length (Server.objectKeyedUsers st) ≤ length (Server.objectKeyedUsers st1)
  ∧ Server.authorizedUsers st ⊆ Server.authorizedUsers st1
  ∧ length (Server.objectNames st) ≤ length (Server.objectNames st1).

(** What holds of every record the flat variant stores. *)
Definition legacy_record_ok (cmd : Legacy.commandObj) : Prop :=
  truthy (Legacy.scriptId cmd) = true
  ∧ truthy (Legacy.playerId cmd) = true
  ∧ truthy (Legacy.command cmd) = true
  ∧ (Legacy.isCoordinated cmd = true
     ↔ Legacy.command cmd = VPrim (PStr "coordinated"))
  ∧ truthy (Legacy.args cmd) = true
  ∧ (Legacy.isCoordinated cmd = true →
     truthy (property (Legacy.args cmd) "command") = true
     ∧ ∀ k, k ∉ Legacy.allowedKeys → property (Legacy.args cmd) k = undefined).

#[global] Instance number_eq_dec : EqDecision number.
Proof. solve_decision. Defined.

(** A timestamp that converts to a number. *)
Definition numeric `{Runtime} (ts : value) : Prop :=
  ∃ n, to_number ts = Normal (Num n).

#[global] Instance numeric_dec `{Runtime} (ts : value) : Decision (numeric ts).
Proof.
  unfold numeric. destruct (to_number ts) as [[|n]|].
  - right. by intros (? & ?).
  - left. by exists n.
  - right. by intros (? & ?).
Defined.

End Invariants.

(** ** Further vocabulary *)

Module MoreProps.
Import JS Eff Express.

(** The [commandId] an answer carries. *)
Definition commandId (r : Server.response) : option string :=
  match r with
  | Server.AdminCommandDistributed id | Server.CommandReceived id => Some id
  | _ => None
  end.

Definition legacy_commandId (r : Legacy.response) : option string :=
  match r with
  | Legacy.CoordinatedCommandReceived id | Legacy.CommandReceived id => Some id
  | _ => None
  end.

End MoreProps.

(** ** Further concrete requests *)

Module MoreExamples.
Import JS Eff Express Props Examples.

(** The key ["k1"] is required. *)
Definition cfg_key : config :=
  {| API_KEY := PStr "k1"; REQUIRE_API_KEY := true |}.

(** A poll with a wrong key in the body and the right key in the query. *)
Definition poll_masked_key : request :=
  {| body_scriptId := undefined; body_playerId := undefined;
     body_playerName := undefined; body_command := undefined;
     body_args := undefined; body_timestamp := undefined;
     body_apiKey := PStr "wrong";
     query_scriptId := PStr "s1"; query_playerId := PStr "B";
     query_apiKey := PStr "k1" |}.

(** A submission without a [playerId]. *)
Definition bring_without_playerId : request :=
  submission (PStr "s1") PUndefined (PStr "Admin1") (PStr "bring")
    undefined (PNum 1000).

(** An object with an own [toString]: it has no conversion to a string
    or to a number. *)
Definition poisoned : value := VObj [("toString", VPrim (PNum 1))].

(** A command whose sender name is such an object. *)
Definition hello_poisoned_name : request :=
  {| body_scriptId := VPrim (PStr "s1"); body_playerId := VPrim (PStr "B");
     body_playerName := poisoned; body_command := VPrim (PStr "hello");
     body_args := undefined; body_timestamp := VPrim (PNum 1000);
     body_apiKey := PUndefined;
     query_scriptId := PUndefined; query_playerId := PUndefined;
     query_apiKey := PUndefined |}.

(** A command of Admin1 whose command name is such an object. *)
Definition poisoned_command_from_Admin1 : request :=
  {| body_scriptId := VPrim (PStr "s1"); body_playerId := VPrim (PStr "A");
     body_playerName := VPrim (PStr "Admin1"); body_command := poisoned;
     body_args := undefined; body_timestamp := VPrim (PNum 1000);
     body_apiKey := PUndefined;
     query_scriptId := PUndefined; query_playerId := PUndefined;
     query_apiKey := PUndefined |}.

(** A command whose timestamp is such an object. *)
Definition bring_poisoned_timestamp : request :=
  {| body_scriptId := VPrim (PStr "s1"); body_playerId := VPrim (PStr "A");
     body_playerName := VPrim (PStr "Admin1"); body_command := VPrim (PStr "bring");
     body_args := undefined; body_timestamp := poisoned;
     body_apiKey := PUndefined;
     query_scriptId := PUndefined; query_playerId := PUndefined;
     query_apiKey := PUndefined |}.

(** A registration with valid args whose sender name is such an object. *)
Definition register_poisoned_name : request :=
  {| body_scriptId := VPrim (PStr "s1"); body_playerId := VPrim (PStr "P");
     body_playerName := poisoned; body_command := VPrim (PStr "register");
     body_args := VObj [("isAuthorized", VPrim (PBool true))];
     body_timestamp := undefined;
     body_apiKey := PUndefined;
     query_scriptId := PUndefined; query_playerId := PUndefined;
     query_apiKey := PUndefined |}.

(** 100 submissions, at the instants 1, 2, ..., 100, and the servers that
    accepted them. *)
Definition submissions_100 : list (Z * request) :=
  (λ i : nat, (Z.of_nat i, bring_from_Admin1)) <$> seq 1 100.

Definition server_full : Server.state :=
  (ServerProps.submit_all cfg_open submissions_100 Server.initial).2.

Definition legacy_full : Legacy.state :=
  (LegacyProps.submit_all cfg_open submissions_100 Legacy.initial).2.

(** A coordinated command whose args carry no [command]. *)
Definition coordinated_without_command : request :=
  submission (PStr "s1") (PStr "A") (PStr "Admin1") (PStr "coordinated")
    (VObj [("targetAlts", VPrim (PStr "all"))]) (PNum 1000).

(** A coordinated command for the poller B only. *)
Definition coordinated_for_B : request :=
  submission (PStr "s1") (PStr "A") (PStr "Admin1") (PStr "coordinated")
    (VObj [("command", VPrim (PStr "follow"));
           ("targetAlts", VPrim (PStr "B"))]) (PNum 1000).

Definition legacy_coordinated_for_B : Legacy.state :=
  (Legacy.post_command cfg_open 1000 coordinated_for_B Legacy.initial).2.

(** A coordinated command whose [args.command] is an object with an own
    [toString]. *)
Definition coordinated_poisoned : request :=
  submission (PStr "s1") (PStr "A") (PStr "Admin1") (PStr "coordinated")
    (VObj [("command", VObj [("toString", VPrim (PNum 1))])]) (PNum 1000).

(** Admin1 registered as an admin, then again with [isAuthorized = false]. *)
Definition admin1_demoted : Server.state :=
  (Server.post_command cfg_open 950 register_Admin1_as_alt admin1_registered).2.

End MoreExamples.


(** ** Proof automation *)

(** Unfolds the sequencing of a handler body. *)
Ltac run_handler :=
  unfold Eff.try_catch, Eff.when, Eff.eval, Eff.gets, Eff.modify, Eff.throw,
    Eff.console_log_template, mbind, mret, Eff.eff_bind, Eff.eff_ret; simpl.

(** ** Lemmas on the list operations of the log *)

Section slice.
Context {A : Type}.
Implicit Types (l k : list A) (n : nat).
Import Eff.

Lemma slice_last_short n l : length l ≤ n → slice_last n l = l.
Proof.
  intros Hle. unfold slice_last.
  replace (length l - n) with 0 by lia. done.
Qed.

Lemma length_slice_last n l : length (slice_last n l) = length l `min` n.
Proof. unfold slice_last. rewrite length_drop. lia. Qed.

Lemma slice_last_sublist n l : slice_last n l `sublist_of` l.
Proof. apply sublist_drop. Qed.

Lemma Forall_of_sublist (P : A → Prop) l k :
  Forall P l → k `sublist_of` l → Forall P k.
Proof.
  rewrite !Forall_forall. intros Hl Hsub x Hx.
  by apply Hl, (sublist_subseteq _ _ Hsub).
Qed.

(** Trimming after every push is the same as trimming once at the end. *)
Lemma slice_last_app_slice n l k :
  slice_last n (slice_last n l ++ k) = slice_last n (l ++ k).
Proof.
  destruct (decide (length l ≤ n)) as [Hle|Hgt].
  { by rewrite (slice_last_short n l). }
  unfold slice_last at 1 3. rewrite !length_app, length_slice_last.
  unfold slice_last.
  replace (length l `min` n + length k - n) with (length k) by lia.
  replace (length l + length k - n) with ((length l - n) + length k) by lia.
  rewrite <- (drop_drop (l ++ k)).
  by rewrite (drop_app_le l k (length l - n)) by lia.
Qed.

Lemma last_slice_last n l x : 0 < n → last (slice_last n (l ++ [x])) = Some x.
Proof.
  intros Hn. unfold slice_last. rewrite length_app. simpl.
  rewrite drop_app_le by lia. apply last_snoc.
Qed.

End slice.

Section filter_cb.
Context {A : Type}.
Import JS Eff.

Lemma filter_cb_Normal (cb : A → completion bool) (l kept : list A) :
  filter_cb cb l = Normal kept →
  kept = filter (λ x, cb x = Normal true) l ∧ Forall (λ x, cb x ≠ Throw) l.
Proof.
  revert kept. induction l as [|x l IH]; intros kept; simpl.
  { intros [= <-]. by split. }
  destruct (cb x) as [b|] eqn:Hx; [|done].
  destruct (filter_cb cb l) as [kept'|]; [|done].
  intros [= <-]. destruct (IH kept' eq_refl) as [-> Hall].
  split; [|constructor; [congruence|done]].
  destruct b.
  - by rewrite filter_cons_True.
  - rewrite filter_cons_False; [done|congruence].
Qed.

Lemma filter_cb_total (cb : A → completion bool) (l : list A) :
  Forall (λ x, cb x ≠ Throw) l →
  filter_cb cb l = Normal (filter (λ x, cb x = Normal true) l).
Proof.
  induction 1 as [|x l Hx _ IH]; simpl; [done|].
  destruct (cb x) as [b|] eqn:Hb; [|done]. rewrite IH.
  destruct b.
  - by rewrite filter_cons_True.
  - rewrite filter_cons_False; [done|congruence].
Qed.

Lemma filter_cb_Throw (cb : A → completion bool) (l : list A) :
  filter_cb cb l = Throw ↔ Exists (λ x, cb x = Throw) l.
Proof.
  induction l as [|x l IH]; simpl.
  { split; [done|]. by intros ?%Exists_nil. }
  rewrite Exists_cons, <- IH.
  destruct (cb x) as [b|]; [|by split; [left|]].
  destruct (filter_cb cb l); [|by split; [right|]].
  split; [done|]. by intros [|].
Qed.

End filter_cb.

(** ** Conversions and comparisons *)

Section conversions.
Context `{JS.Runtime}.
Import JS Props.

Lemma strict_eq_true (a b : prim) : strict_eq a b = true ↔ a = b.
Proof. unfold strict_eq. by rewrite bool_decide_eq_true. Qed.

Lemma strict_eq_false (a b : prim) : strict_eq a b = false ↔ a ≠ b.
Proof. unfold strict_eq. by rewrite bool_decide_eq_false. Qed.

Lemma strict_eq_val_true (v : value) (p : prim) :
  strict_eq_val v p = true ↔ v = VPrim p.
Proof.
  destruct v as [q| |]; simpl; [|done..].
  rewrite strict_eq_true. split; congruence.
Qed.

Lemma strict_eq_val_false (v : value) (p : prim) :
  strict_eq_val v p = false ↔ v ≠ VPrim p.
Proof.
  rewrite <- strict_eq_val_true. by destruct (strict_eq_val v p).
Qed.

Lemma strict_eq_values_true (a b : value) :
  strict_eq_values a b = true ↔ ∃ p, a = VPrim p ∧ b = VPrim p.
Proof.
  destruct a as [p| |], b as [q| |]; simpl;
    try (split; [done|by intros (? & ? & ?)]).
  rewrite strict_eq_true. split; [intros ->; eauto|].
  intros (? & [= ->] & [= ->]). done.
Qed.

Lemma to_number_Throw (v : value) :
  to_number v = Throw ↔ to_string_throws v = true.
Proof.
  destruct v as [p|props|items]; [done|..];
    unfold to_number; by destruct (to_string_throws _).
Qed.

Lemma value_lt_Throw (v : value) (c : Z) :
  value_lt v c = Throw ↔ to_string_throws v = true.
Proof.
  rewrite <- to_number_Throw. unfold value_lt, mbind, completion_bind.
  by destruct (to_number v).
Qed.

Lemma value_gt_Throw (v : value) (c : Z) :
  value_gt v c = Throw ↔ to_string_throws v = true.
Proof.
  rewrite <- to_number_Throw. unfold value_gt, mbind, completion_bind.
  by destruct (to_number v).
Qed.

Lemma value_lt_false_ge (ts : value) (c : Z) :
  value_lt ts c = Normal false →
  ∀ n, to_number ts = Normal (Num n) → (c ≤ n)%Z.
Proof.
  unfold value_lt, mbind, completion_bind, mret, completion_ret.
  intros Hlt n Hn. rewrite Hn in Hlt. injection Hlt as Hlt.
  by apply Z.ltb_ge.
Qed.

Lemma value_gt_number (ts : value) (c : Z) :
  value_gt ts c = Normal true ↔ ∃ n, to_number ts = Normal (Num n) ∧ (c < n)%Z.
Proof.
  unfold value_gt, mbind, completion_bind, mret, completion_ret.
  destruct (to_number ts) as [[|n]|].
  - split; [done|]. by intros (? & ? & ?).
  - split.
    + intros [= Hlt%Z.ltb_lt]. eauto.
    + intros (? & [= <-] & Hlt). f_equal. by apply Z.ltb_lt.
  - split; [done|]. by intros (? & ? & ?).
Qed.

Lemma value_gt_lt_false (ts : value) (c : Z) :
  value_gt ts c = Normal true → value_lt ts c = Normal false.
Proof.
  intros (n & Hn & Hlt)%value_gt_number.
  unfold value_lt, mbind, completion_bind, mret, completion_ret.
  rewrite Hn. f_equal. apply Z.ltb_ge. lia.
Qed.

Lemma value_gt_numeric (ts : value) (c : Z) :
  value_gt ts c = Normal true → Invariants.numeric ts.
Proof. intros (n & Hn & _)%value_gt_number. by exists n. Qed.

Lemma value_lt_undefined (c : Z) : value_lt undefined c = Normal false.
Proof. done. Qed.

Lemma value_gt_undefined (c : Z) : value_gt undefined c = Normal false.
Proof. done. Qed.

Lemma value_lt_mono (ts : value) (c c' : Z) :
  (c ≤ c')%Z → value_lt ts c' = Normal false → value_lt ts c = Normal false.
Proof.
  unfold value_lt, mbind, completion_bind, mret, completion_ret.
  destruct (to_number ts) as [[|n]|]; [done| |done].
  intros Hle [= Hlt%Z.ltb_ge]. f_equal. apply Z.ltb_ge. lia.
Qed.

Lemma value_lt_false_gt (ts : value) (c c' : Z) :
  (c' < c)%Z → Invariants.numeric ts →
  value_lt ts c = Normal false → value_gt ts c' = Normal true.
Proof.
  intros Hlt (n & Hn) Hfalse. apply value_gt_number. exists n.
  split; [done|]. pose proof (value_lt_false_ge ts c Hfalse n Hn). lia.
Qed.

End conversions.

(** ** Equations of the submission handlers *)

Section server_equations.
Import JS Eff Express Props Server ServerProps.
Implicit Types (cfg : config) (req : request) (st : state) (now : Z).

Lemma post_validated_true valid_key req :
  post_validated valid_key req = true →
  valid_key = true
  ∧ truthy (body_scriptId req) = true
  ∧ truthy (body_playerId req) = true
  ∧ truthy (body_command req) = true.
Proof. unfold post_validated. rewrite !andb_true_iff. tauto. Qed.

Lemma post_command_rejected cfg now req st :
  post_validated (validateApiKey cfg req) req = false →
  post_command cfg now req st
  = (if validateApiKey cfg req then MissingRequiredFields else InvalidApiKey, st).
Proof.
  unfold post_validated, post_command. intros Hv.
  destruct (validateApiKey cfg req); simpl in *; [|done].
  destruct (truthy (body_scriptId req)),
    (truthy (body_playerId req)),
    (truthy (body_command req)); simpl in *; done.
Qed.

(** A registration: the read of [args.isAuthorized] may throw before
    anything is written, and the log line may throw after the registry
    and the set were written. *)
Lemma post_command_register cfg now req st :
  post_validated (validateApiKey cfg req) req = true →
  body_command req = VPrim (PStr "register") →
  post_command cfg now req st
  = match get_property (body_args req) "isAuthorized" with
    | Throw => (InternalServerError, st)
    | Normal v =>
        (if existsb to_string_throws [body_playerName req; body_playerId req]
         then InternalServerError else UserRegistered v,
         registered now req v st)
    end.
Proof.
  intros (Hk & Hs & Hp & Hc)%post_validated_true Hreg.
  unfold post_command, registered. rewrite Hk, Hs, Hp, Hc, Hreg. simpl.
  run_handler.
  destruct (get_property (body_args req) "isAuthorized") as [v|]; [|done].
  destruct (truthy v); simpl;
    by destruct (to_string_throws (body_playerName req) || _)%bool.
Qed.

(** A command: the admin branch logs before it pushes, the other branch
    after. *)
Lemma post_command_append cfg now req st :
  post_validated (validateApiKey cfg req) req = true →
  body_command req ≠ VPrim (PStr "register") →
  post_command cfg now req st
  = if authorizedUsers_has (body_playerName req) st
    then
      if existsb to_string_throws [body_command req; body_playerName req]
      then (InternalServerError, st)
      else (AdminCommandDistributed (pretty now),
            commands_assign
              (slice_last 100 (commands st ++ [created st now req])) st)
    else
      if existsb to_string_throws
           [body_command req; body_playerName req; body_playerId req]
      then (InternalServerError, commands_push (created st now req) st)
      else (CommandReceived (pretty now),
            commands_assign
              (slice_last 100 (commands st ++ [created st now req])) st).
Proof.
  intros (Hk & Hs & Hp & Hc)%post_validated_true Hreg.
  unfold post_command, created. rewrite Hk, Hs, Hp, Hc. simpl.
  apply strict_eq_val_false in Hreg. rewrite Hreg.
  run_handler.
  destruct (authorizedUsers_has (body_playerName req) st); simpl.
  - destruct (to_string_throws (body_command req) || _)%bool; simpl; [done|].
    case_bool_decide; [done|]. rewrite slice_last_short; done || lia.
  - destruct (to_string_throws (body_command req) || _)%bool; simpl; [done|].
    case_bool_decide; [done|]. rewrite slice_last_short; done || lia.
Qed.

Lemma pushes_true cfg req st :
  pushes cfg req st = true ↔
  post_validated (validateApiKey cfg req) req = true
  ∧ body_command req ≠ VPrim (PStr "register")
  ∧ (authorizedUsers_has (body_playerName req) st = true →
     existsb to_string_throws [body_command req; body_playerName req] = false).
Proof.
  unfold pushes. rewrite !andb_true_iff, !negb_true_iff, strict_eq_val_false.
  rewrite andb_false_iff.
  destruct (authorizedUsers_has _ _), (existsb _ _); intuition congruence.
Qed.

(** The ways a submission ends: the log is left as it was (a refusal, a
    registration, or a throw before the push); the record is pushed and
    the handler is interrupted before the trim; the record is pushed and
    the log is trimmed. The registry and the set change in a
    registration only. *)
Lemma post_command_cases cfg now req st :
  (pushes cfg req st = false
   ∧ ¬ command_accepted (post_command cfg now req st).1
   ∧ commands (post_command cfg now req st).2 = commands st)
  ∨ (pushes cfg req st = true
     ∧ (post_command cfg now req st).1 = InternalServerError
     ∧ authorizedUsers_has (body_playerName req) st = false
     ∧ (post_command cfg now req st).2 = commands_push (created st now req) st)
  ∨ (pushes cfg req st = true
     ∧ command_accepted (post_command cfg now req st).1
     ∧ (post_command cfg now req st).2
       = commands_assign (slice_last 100 (commands st ++ [created st now req])) st).
Proof.
  destruct (post_validated (validateApiKey cfg req) req) eqn:Hv.
  - destruct (decide (body_command req = VPrim (PStr "register"))) as [Hreg|Hreg].
    + left. split_and!.
      * unfold pushes. rewrite Hv, Hreg. done.
      * rewrite post_command_register by done.
        destruct (get_property _ _) as [v|]; [|by intros []]. cbn [fst].
        destruct (existsb _ _); by intros [].
      * rewrite post_command_register by done.
        destruct (get_property _ _) as [v|]; [|done]. unfold registered. simpl.
        destruct (body_playerId req), (truthy v), (body_playerName req); done.
    + rewrite post_command_append by done.
      pose proof (pushes_true cfg req st) as Hpushes.
      destruct (authorizedUsers_has (body_playerName req) st) eqn:Hadmin.
      * destruct (existsb to_string_throws [body_command req; _]) eqn:Hlog.
        -- left. split_and!; [|by intros []|done].
           destruct (pushes cfg req st); [|done].
           destruct Hpushes as [Hpushes _].
           destruct (Hpushes eq_refl) as (_ & _ & Hno). by specialize (Hno eq_refl).
        -- right; right. split_and!; [|done..]. by apply Hpushes.
      * assert (pushes cfg req st = true) as Hyes by by apply Hpushes.
        destruct (existsb to_string_throws [body_command req; _; _]).
        -- right; left. done.
        -- right; right. done.
  - left. rewrite post_command_rejected by done. split_and!; [|simpl|done].
    + unfold pushes. by rewrite Hv.
    + destruct (validateApiKey cfg req); by intros [].
Qed.

Lemma post_command_frame cfg now req st :
  body_command req ≠ VPrim (PStr "register") →
  registeredUsers (post_command cfg now req st).2 = registeredUsers st
  ∧ authorizedUsers (post_command cfg now req st).2 = authorizedUsers st
  ∧ objectKeyedUsers (post_command cfg now req st).2 = objectKeyedUsers st
  ∧ objectNames (post_command cfg now req st).2 = objectNames st.
Proof.
  intros Hreg.
  destruct (post_validated (validateApiKey cfg req) req) eqn:Hv.
  - rewrite post_command_append by done.
    destruct (authorizedUsers_has _ _); by destruct (existsb _ _).
  - by rewrite post_command_rejected by done.
Qed.

End server_equations.

Section legacy_equations.
Import JS Eff Express Props Legacy LegacyProps.
Implicit Types (cfg : config) (req : request) (st : state) (now : Z).

Lemma legacy_post_command_rejected cfg now req st :
  post_validated (validateApiKey cfg req) req = false →
  post_command cfg now req st
  = (if validateApiKey cfg req then MissingRequiredFields else InvalidApiKey, st).
Proof.
  unfold post_validated, post_command. intros Hv.
  destruct (validateApiKey cfg req); simpl in *; [|done].
  destruct (truthy (body_scriptId req)),
    (truthy (body_playerId req)),
    (truthy (body_command req)); simpl in *; done.
Qed.

Lemma legacy_post_command_regular cfg now req st :
  post_validated (validateApiKey cfg req) req = true →
  body_command req ≠ VPrim (PStr "coordinated") →
  post_command cfg now req st
  = if regular_log_throws req
    then (InternalServerError, commands_push (created now req) st)
    else (CommandReceived (pretty now),
          commands_assign (slice_last 100 (commands st ++ [created now req])) st).
Proof.
  intros (Hk & Hs & Hp & Hc)%post_validated_true Hco.
  unfold post_command, created, regular_log_throws. rewrite Hk, Hs, Hp, Hc. simpl.
  apply strict_eq_val_false in Hco. rewrite Hco.
  run_handler.
  destruct (to_string_throws (body_command req) || _)%bool; simpl; [done|].
  case_bool_decide; [done|]. rewrite slice_last_short; done || lia.
Qed.

Lemma legacy_post_command_coordinated cfg now req st :
  post_validated (validateApiKey cfg req) req = true →
  body_command req = VPrim (PStr "coordinated") →
  post_command cfg now req st
  = let coordinatedData := sanitizeCommandData (body_args req) in
    if negb (validateCoordinatedCommand coordinatedData)
    then (InvalidCoordinatedCommandData, st)
    else if coordinated_log_throws req coordinatedData
    then (InternalServerError, commands_push (created now req) st)
    else (CoordinatedCommandReceived (pretty now),
          commands_assign (slice_last 100 (commands st ++ [created now req])) st).
Proof.
  intros (Hk & Hs & Hp & Hc)%post_validated_true Hco.
  unfold post_command, created, coordinated_log_throws.
  rewrite Hk, Hs, Hp, Hc, Hco. simpl.
  destruct (validateCoordinatedCommand _); simpl; [|done].
  run_handler. rewrite !orb_false_r.
  destruct (to_string_throws (property _ "command") || _)%bool; simpl; [done|].
  destruct (to_string_throws (or_else _ _)); simpl; [done|].
  case_bool_decide; [done|]. rewrite slice_last_short; done || lia.
Qed.

(** The ways a submission ends: nothing stored; a record pushed and the
    handler interrupted before the trim; a record pushed and the log
    trimmed. *)
Lemma legacy_post_command_cases cfg now req st :
  (¬ command_accepted (post_command cfg now req st).1
   ∧ (post_command cfg now req st).2 = st)
  ∨ ((post_command cfg now req st).1 = InternalServerError
     ∧ (post_command cfg now req st).2 = commands_push (created now req) st)
  ∨ (post_validated (validateApiKey cfg req) req = true
     ∧ command_accepted (post_command cfg now req st).1
     ∧ (post_command cfg now req st).2
       = commands_assign (slice_last 100 (commands st ++ [created now req])) st).
Proof.
  destruct (post_validated (validateApiKey cfg req) req) eqn:Hv.
  - destruct (decide (body_command req = VPrim (PStr "coordinated"))) as [Hco|Hco].
    + rewrite legacy_post_command_coordinated by done. simpl.
      destruct (validateCoordinatedCommand _); simpl.
      * destruct (coordinated_log_throws _ _); simpl.
        -- right; left. done.
        -- right; right. done.
      * left. split; [intros []|done].
    + rewrite legacy_post_command_regular by done.
      destruct (regular_log_throws req).
      * right; left. done.
      * right; right. done.
  - left. rewrite legacy_post_command_rejected by done.
    split; [|done]. simpl. destruct (validateApiKey cfg req); intros [].
Qed.

End legacy_equations.

(** ** The visibility filter of the role-aware server *)

Section server_filter.
Context `{JS.Runtime}.
Import JS Eff Express Props Server ServerProps.
Implicit Types (cfg : config) (req : request) (st : state) (now : Z)
  (cmd : commandObj).

Lemma poller_is_admin_truthy st req :
  truthy (isCurrentUserAdmin (registeredUsers st !! query_playerId req)) = true
  ↔ poller_is_admin st req.
Proof.
  unfold poller_is_admin.
  destruct (registeredUsers st !! query_playerId req) as [u|]; simpl.
  - split; [eauto|]. by intros (? & [= <-] & ?).
  - split; [done|]. by intros (? & ? & ?).
Qed.

Lemma unregistered_not_admin st req :
  registeredUsers st !! query_playerId req = None → ¬ poller_is_admin st req.
Proof. intros Hnone (u & Hu & _). congruence. Qed.

Lemma has_explicit_target_truthy cmd :
  truthy (args cmd) && truthy (property (args cmd) "target") = true
  ↔ has_explicit_target cmd.
Proof.
  unfold has_explicit_target, explicit_target. rewrite andb_true_iff. split.
  - intros [??]. eauto.
  - by intros (t & ? & -> & ?).
Qed.

Lemma target_is_poller_eq st req t :
  truthy t = true →
  strict_eq_values t (currentUserName (registeredUsers st !! query_playerId req))
  || strict_eq_val t (query_playerId req) = true
  ↔ target_is_poller st req t.
Proof.
  intros Ht. unfold target_is_poller.
  rewrite orb_true_iff, strict_eq_val_true, strict_eq_values_true.
  destruct (registeredUsers st !! query_playerId req) as [u|]; simpl.
  - split; (intros [Hn|?]; [left|by right]).
    + destruct Hn as (p & -> & Hu). eauto.
    + destruct Hn as (u' & p & [= <-] & Hu & ->). eauto.
  - split; (intros [Hn|?]; [|by right]).
    + destruct Hn as (p & -> & [= <-]). done.
    + by destruct Hn as (? & ? & ? & _).
Qed.

(** The callback of the filter, read as the conditions of the read path. *)
Lemma visible_true now req st cmd :
  visible now req
    (isCurrentUserAdmin (registeredUsers st !! query_playerId req))
    (currentUserName (registeredUsers st !! query_playerId req)) cmd
  = Normal true
  ↔ scriptId cmd = VPrim (query_scriptId req)
    ∧ playerId cmd ≠ VPrim (query_playerId req)
    ∧ value_lt (timestamp cmd) (now - 30000) = Normal false
    ∧ role_target_allows st req cmd.
Proof.
  unfold visible.
  pose proof (has_explicit_target_truthy cmd) as Htarget.
  destruct (strict_eq_val (scriptId cmd) (query_scriptId req)) eqn:Hs; simpl;
    [apply strict_eq_val_true in Hs
    |apply strict_eq_val_false in Hs; by split; [|intros (? & _)]].
  destruct (strict_eq_val (playerId cmd) (query_playerId req)) eqn:Hp; simpl;
    [apply strict_eq_val_true in Hp; by split; [|intros (_ & ? & _)]
    |apply strict_eq_val_false in Hp].
  unfold mbind at 1, completion_bind, mret, completion_ret.
  destruct (value_lt (timestamp cmd) (now - 30000)) as [[]|];
    [by split; [|intros (_ & _ & ? & _)]| |by split; [|intros (_ & _ & ? & _)]].
  destruct (truthy (isCurrentUserAdmin _)) eqn:Hadm.
  - assert (poller_is_admin st req) as Hyes by by apply poller_is_admin_truthy.
    destruct (isAdminCommand cmd) eqn:Hflag; simpl.
    + split; [done|].
      intros (_ & _ & _ & [_ ? _|t _ ? _ _|? _]); done || congruence.
    + split; [|done]. intros _. split_and!; [done..|]. by apply alt_to_admin.
  - assert (¬ poller_is_admin st req) as Hnot
      by (rewrite <- poller_is_admin_truthy; congruence).
    destruct (isAdminCommand cmd) eqn:Hflag; simpl.
    + destruct (truthy (args cmd) && truthy (property (args cmd) "target"))
        eqn:Htgt.
      * destruct Htarget as [Htarget _]. destruct (Htarget eq_refl) as (t & Ht).
        pose proof Ht as (_ & Hprop & Htruthy). rewrite Hprop.
        pose proof (target_is_poller_eq st req t Htruthy) as Hpoller.
        destruct (strict_eq_values t _ || strict_eq_val t _).
        -- split; [|done]. intros _. split_and!; [done..|].
           eapply admin_targeted; [done..|]. by apply Hpoller.
        -- split; [done|].
           intros (_ & _ & _ & [_ _ Hno|t' _ _ Ht' Hyes|? _]); [| |congruence].
           ++ destruct Hno. by exists t.
           ++ destruct Ht' as (_ & Hprop' & _).
              assert (t' = t) as -> by congruence.
              apply Hpoller in Hyes. done.
      * split; [|done]. intros _. split_and!; [done..|].
        apply admin_broadcast; [done..|]. rewrite <- Htarget. congruence.
    + split; [done|].
      intros (_ & _ & _ & [? _ _|t ? _ _ _|_ ?]); done || congruence.
Qed.

(** The callback throws on a record of the poller's script, sent by
    another player, whose timestamp has no conversion to a number, and on
    no other record. *)
Lemma visible_Throw now req admin name cmd :
  visible now req admin name cmd = Throw
  ↔ scriptId cmd = VPrim (query_scriptId req)
    ∧ playerId cmd ≠ VPrim (query_playerId req)
    ∧ to_string_throws (timestamp cmd) = true.
Proof.
  unfold visible.
  destruct (strict_eq_val (scriptId cmd) (query_scriptId req)) eqn:Hs; simpl;
    [apply strict_eq_val_true in Hs
    |apply strict_eq_val_false in Hs; by split; [|intros (? & _)]].
  destruct (strict_eq_val (playerId cmd) (query_playerId req)) eqn:Hp; simpl;
    [apply strict_eq_val_true in Hp; by split; [|intros (_ & ? & _)]
    |apply strict_eq_val_false in Hp].
  pose proof (value_lt_Throw (timestamp cmd) (now - 30000)) as Hthrow.
  unfold mbind at 1, completion_bind, mret, completion_ret.
  destruct (value_lt (timestamp cmd) (now - 30000)) as [expired|].
  - assert (to_string_throws (timestamp cmd) ≠ true) as Hno
      by (rewrite <- Hthrow; done).
    split; [|by intros (_ & _ & ?)].
    destruct expired; [done|].
    destruct (isAdminCommand cmd); simpl.
    + destruct (truthy admin); [done|]. by destruct (_ && _).
    + by destruct (truthy admin).
  - split; [|done]. intros _. split_and!; [done..|]. by apply Hthrow.
Qed.

Lemma filteredCommands_total now req st :
  timestamps_convertible st →
  filteredCommands now req st
  = Normal (filter (λ cmd,
              visible now req
                (isCurrentUserAdmin (registeredUsers st !! query_playerId req))
                (currentUserName (registeredUsers st !! query_playerId req)) cmd
              = Normal true) (commands st)).
Proof.
  intros Hconv. apply filter_cb_total.
  eapply Forall_impl; [exact Hconv|]. intros cmd Hcmd.
  rewrite visible_Throw. intros (_ & _ & Hthrow).
  unfold convertible in Hcmd. congruence.
Qed.

(** The filter throws exactly when the log holds a record of the poller's
    script, sent by another player, whose timestamp has no conversion to a
    number. *)
Lemma filteredCommands_Throw now req st :
  filteredCommands now req st = Throw
  ↔ ∃ cmd, cmd ∈ commands st
      ∧ scriptId cmd = VPrim (query_scriptId req)
      ∧ playerId cmd ≠ VPrim (query_playerId req)
      ∧ to_string_throws (timestamp cmd) = true.
Proof.
  unfold filteredCommands. rewrite filter_cb_Throw, Exists_exists.
  split; intros (cmd & Hin & Hcmd); exists cmd; split; try done;
    by apply visible_Throw in Hcmd || apply visible_Throw.
Qed.

Lemma get_commands_validated cfg now req st :
  poll_validated (validateApiKey cfg req) req = true →
  get_commands cfg now req st
  = (match filteredCommands now req st with
     | Normal found => CommandList found (length found)
     | Throw => InternalServerError
     end, st).
Proof.
  unfold poll_validated, get_commands. rewrite !andb_true_iff.
  intros [[-> ->] ->]. simpl. run_handler.
  by destruct (filteredCommands _ _ _).
Qed.

Lemma get_commands_refused cfg now req st :
  poll_validated (validateApiKey cfg req) req = false →
  get_commands cfg now req st
  = (if validateApiKey cfg req then MissingRequiredFields else InvalidApiKey, st).
Proof.
  unfold poll_validated, get_commands. intros Hv.
  destruct (validateApiKey cfg req); simpl in *; [|done].
  by destruct (truthy_prim (query_scriptId req)),
    (truthy_prim (query_playerId req)).
Qed.

Lemma get_commands_state cfg now req st : (get_commands cfg now req st).2 = st.
Proof.
  destruct (poll_validated (validateApiKey cfg req) req) eqn:Hv.
  - by rewrite get_commands_validated.
  - by rewrite get_commands_refused.
Qed.

(** A poll that is answered with a list is a validated poll, answered with
    the filtered log. *)
Lemma get_commands_list cfg now req st found n :
  (get_commands cfg now req st).1 = CommandList found n →
  poll_validated (validateApiKey cfg req) req = true
  ∧ filteredCommands now req st = Normal found
  ∧ n = length found.
Proof.
  destruct (poll_validated (validateApiKey cfg req) req) eqn:Hv.
  - rewrite get_commands_validated by done. simpl.
    destruct (filteredCommands _ _ _) as [kept|]; [|done].
    by intros [= <- <-].
  - rewrite get_commands_refused by done. simpl.
    by destruct (validateApiKey cfg req).
Qed.

Lemma elem_of_filteredCommands now req st found cmd :
  filteredCommands now req st = Normal found →
  cmd ∈ found
  ↔ cmd ∈ commands st
    ∧ scriptId cmd = VPrim (query_scriptId req)
    ∧ playerId cmd ≠ VPrim (query_playerId req)
    ∧ value_lt (timestamp cmd) (now - 30000) = Normal false
    ∧ role_target_allows st req cmd.
Proof.
  unfold filteredCommands. intros [-> _]%filter_cb_Normal.
  rewrite list_elem_of_filter, visible_true. tauto.
Qed.

End server_filter.

(** ** The visibility filter of the flat variant *)

Section legacy_filter.
Context `{JS.Runtime}.
Import JS Eff Express Props Legacy LegacyProps.
Implicit Types (cfg : config) (req : request) (st : state) (now : Z)
  (cmd : commandObj).

Lemma legacy_visible_true now req cmd :
  visible now req cmd = Normal true ↔
  scriptId cmd = VPrim (query_scriptId req)
  ∧ playerId cmd ≠ VPrim (query_playerId req)
  ∧ value_lt (timestamp cmd) (now - 30000) = Normal false
  ∧ (isCoordinated cmd = true → nullish (args cmd) = false)
  ∧ target_allows req cmd.
Proof.
  unfold visible, target_allows.
  destruct (strict_eq_val (scriptId cmd) (query_scriptId req)) eqn:Hs; simpl;
    [apply strict_eq_val_true in Hs
    |apply strict_eq_val_false in Hs; by split; [|intros (? & _)]].
  destruct (strict_eq_val (playerId cmd) (query_playerId req)) eqn:Hp; simpl;
    [apply strict_eq_val_true in Hp; by split; [|intros (_ & ? & _)]
    |apply strict_eq_val_false in Hp].
  unfold mbind at 1, completion_bind, mret, completion_ret.
  destruct (value_lt (timestamp cmd) (now - 30000)) as [[]|];
    [by split; [|intros (_ & _ & ? & _)]| |by split; [|intros (_ & _ & ? & _)]].
  destruct (isCoordinated cmd); [|by split].
  unfold get_property, mbind, mret, completion_bind, completion_ret.
  destruct (nullish (args cmd));
    [split; [done|]; by intros (_ & _ & _ & Hn & _); discriminate Hn|].
  destruct (truthy (property (args cmd) "targetAlts")); simpl; [|by split].
  destruct (strict_eq_val _ (PStr "all")) eqn:Hall; simpl.
  { apply strict_eq_val_true in Hall. split; [|done]. intros _. split_and!; auto. }
  destruct (strict_eq_val _ (query_playerId req)) eqn:Hme; simpl.
  { apply strict_eq_val_true in Hme. split; [|done]. intros _. split_and!; auto. }
  split; [done|]. intros (_ & _ & _ & _ & Hor).
  destruct Hor as [Hor|Hor]; [done..| |]; apply strict_eq_val_true in Hor; congruence.
Qed.

Lemma legacy_visible_total now req cmd :
  convertible (timestamp cmd) →
  (isCoordinated cmd = true → nullish (args cmd) = false) →
  visible now req cmd ≠ Throw.
Proof.
  unfold visible. intros Hconv Hargs.
  destruct (negb _ || _); [done|].
  pose proof (value_lt_Throw (timestamp cmd) (now - 30000)) as Hthrow.
  unfold mbind at 1, completion_bind, mret, completion_ret.
  destruct (value_lt _ _) as [[]|]; [done| |].
  - destruct (isCoordinated cmd); [|done].
    unfold get_property. rewrite Hargs by done. simpl.
    unfold mbind, completion_bind. by destruct (_ && _).
  - destruct Hthrow as [Hthrow _]. specialize (Hthrow eq_refl).
    unfold convertible in Hconv. congruence.
Qed.

(** With args that can be read, the callback throws on a record of the
    poller's script, sent by another player, whose timestamp has no
    conversion to a number, and on no other record. *)
Lemma legacy_visible_Throw now req cmd :
  (isCoordinated cmd = true → nullish (args cmd) = false) →
  visible now req cmd = Throw
  ↔ scriptId cmd = VPrim (query_scriptId req)
    ∧ playerId cmd ≠ VPrim (query_playerId req)
    ∧ to_string_throws (timestamp cmd) = true.
Proof.
  intros Hargs. unfold visible.
  destruct (strict_eq_val (scriptId cmd) (query_scriptId req)) eqn:Hs; simpl;
    [apply strict_eq_val_true in Hs
    |apply strict_eq_val_false in Hs; by split; [|intros (? & _)]].
  destruct (strict_eq_val (playerId cmd) (query_playerId req)) eqn:Hp; simpl;
    [apply strict_eq_val_true in Hp; by split; [|intros (_ & ? & _)]
    |apply strict_eq_val_false in Hp].
  pose proof (value_lt_Throw (timestamp cmd) (now - 30000)) as Hthrow.
  unfold mbind at 1, completion_bind, mret, completion_ret.
  destruct (value_lt (timestamp cmd) (now - 30000)) as [expired|].
  - assert (to_string_throws (timestamp cmd) ≠ true) as Hno
      by (rewrite <- Hthrow; done).
    split; [|by intros (_ & _ & ?)].
    destruct expired; [done|].
    destruct (isCoordinated cmd); [|done].
    unfold get_property. rewrite Hargs by done. simpl.
    unfold mbind, completion_bind. by destruct (_ && _).
  - split; [|done]. intros _. split_and!; [done..|]. by apply Hthrow.
Qed.

Lemma legacy_get_commands_validated cfg now req st :
  poll_validated (validateApiKey cfg req) req = true →
  get_commands cfg now req st
  = (match filter_cb (visible now req) (commands st) with
     | Normal found => CommandList found (length found)
     | Throw => InternalServerError
     end, st).
Proof.
  unfold poll_validated, get_commands. rewrite !andb_true_iff.
  intros [[-> ->] ->]. simpl. run_handler.
  by destruct (filter_cb _ _).
Qed.

Lemma legacy_get_commands_refused cfg now req st :
  poll_validated (validateApiKey cfg req) req = false →
  get_commands cfg now req st
  = (if validateApiKey cfg req then MissingRequiredFields else InvalidApiKey, st).
Proof.
  unfold poll_validated, get_commands. intros Hv.
  destruct (validateApiKey cfg req); simpl in *; [|done].
  by destruct (truthy_prim (query_scriptId req)),
    (truthy_prim (query_playerId req)).
Qed.

Lemma legacy_get_commands_state cfg now req st :
  (get_commands cfg now req st).2 = st.
Proof.
  destruct (poll_validated (validateApiKey cfg req) req) eqn:Hv.
  - by rewrite legacy_get_commands_validated.
  - by rewrite legacy_get_commands_refused.
Qed.

(** A poll that is answered with a list is answered with the filtered log. *)
Lemma legacy_get_commands_list cfg now req st found n :
  (get_commands cfg now req st).1 = CommandList found n →
  found = filter (λ cmd, visible now req cmd = Normal true) (commands st).
Proof.
  destruct (poll_validated (validateApiKey cfg req) req) eqn:Hv.
  - rewrite legacy_get_commands_validated by done. simpl.
    destruct (filter_cb _ _) as [kept|] eqn:Hf; [|done].
    intros [= <- _]. by apply filter_cb_Normal in Hf as [-> _].
  - rewrite legacy_get_commands_refused by done. simpl.
    by destruct (validateApiKey cfg req).
Qed.

End legacy_filter.

(** ** What a submission stores *)

Section stored.
Import JS Eff Express Props.

Lemma sanitizeCommandData_props (data : value) :
  ∃ props,
    Legacy.sanitizeCommandData data = VObj props
    ∧ ∀ k v, (k, v) ∈ props ↔
        truthy data = true ∧ k ∈ Legacy.allowedKeys
        ∧ v = property data k ∧ v ≠ undefined.
Proof.
  unfold Legacy.sanitizeCommandData. destruct (truthy data); cbn [negb].
  - eexists. split; [done|]. intros k v. rewrite list_elem_of_omap. split.
    + intros (key & Hkey & Hsome).
      destruct (property data key) as [[]| |] eqn:Hprop; simplify_eq;
        split_and!; done.
    + intros (_ & Hk & -> & Hv). exists k. split; [done|].
      destruct (property data k) as [[]| |]; done.
  - exists []. split; [done|]. intros k v. split; [by intros ?%elem_of_nil|].
    by intros (? & _).
Qed.

Lemma server_stored cfg now req st :
  ServerProps.command_accepted (Server.post_command cfg now req st).1 →
  last (Server.commands (Server.post_command cfg now req st).2)
  = Some (ServerProps.created st now req).
Proof.
  destruct (post_command_cases cfg now req st)
    as [(_ & Hno & _)|[(_ & -> & _)|(_ & _ & ->)]]; [done..|].
  intros _. simpl. apply last_slice_last. lia.
Qed.

Lemma legacy_stored cfg now req st :
  LegacyProps.command_accepted (Legacy.post_command cfg now req st).1 →
  last (Legacy.commands (Legacy.post_command cfg now req st).2)
  = Some (LegacyProps.created now req).
Proof.
  destruct (legacy_post_command_cases cfg now req st)
    as [[Hno _]|[[-> _]|(_ & _ & ->)]]; [done..|].
  intros _. simpl. apply last_slice_last. lia.
Qed.

End stored.

(** ** The periodic cleanup *)

Section cleanup.
Context `{JS.Runtime}.
Import JS Eff Express Props.

(** A cleanup that completes keeps the records whose timestamp is a
    number after the cutoff, and found every timestamp convertible. *)
Lemma cleanup_Normal now st cleaned :
  Server.cleanup now st = Normal cleaned →
  cleaned
  = Server.commands_assign
      (filter (λ cmd, value_gt (Server.timestamp cmd) (now - 300000) = Normal true)
         (Server.commands st)) st
  ∧ ServerProps.timestamps_convertible st.
Proof.
  unfold Server.cleanup, mbind, completion_bind, mret, completion_ret.
  destruct (filter_cb _ _) as [kept|] eqn:Hkept; [|done].
  intros [= <-]. apply filter_cb_Normal in Hkept as [-> Hall].
  split; [done|]. eapply Forall_impl; [exact Hall|]. intros cmd Hcmd.
  unfold convertible. cbv beta in Hcmd. rewrite value_gt_Throw in Hcmd.
  by destruct (to_string_throws _).
Qed.

Lemma cleanup_total now st :
  ServerProps.timestamps_convertible st →
  Server.cleanup now st
  = Normal (Server.commands_assign
      (filter (λ cmd, value_gt (Server.timestamp cmd) (now - 300000) = Normal true)
         (Server.commands st)) st).
Proof.
  intros Hconv. unfold Server.cleanup. rewrite filter_cb_total; [done|].
  eapply Forall_impl; [exact Hconv|]. intros cmd Hcmd.
  rewrite value_gt_Throw. unfold convertible in Hcmd. congruence.
Qed.

Lemma legacy_cleanup_Normal now st cleaned :
  Legacy.cleanup now st = Normal cleaned →
  cleaned
  = Legacy.commands_assign
      (filter (λ cmd, value_gt (Legacy.timestamp cmd) (now - 300000) = Normal true)
         (Legacy.commands st)) st
  ∧ LegacyProps.timestamps_convertible st.
Proof.
  unfold Legacy.cleanup, mbind, completion_bind, mret, completion_ret.
  destruct (filter_cb _ _) as [kept|] eqn:Hkept; [|done].
  intros [= <-]. apply filter_cb_Normal in Hkept as [-> Hall].
  split; [done|]. eapply Forall_impl; [exact Hall|]. intros cmd Hcmd.
  unfold convertible. cbv beta in Hcmd. rewrite value_gt_Throw in Hcmd.
  by destruct (to_string_throws _).
Qed.

Lemma legacy_cleanup_total now st :
  LegacyProps.timestamps_convertible st →
  Legacy.cleanup now st
  = Normal (Legacy.commands_assign
      (filter (λ cmd, value_gt (Legacy.timestamp cmd) (now - 300000) = Normal true)
         (Legacy.commands st)) st).
Proof.
  intros Hconv. unfold Legacy.cleanup. rewrite filter_cb_total; [done|].
  eapply Forall_impl; [exact Hconv|]. intros cmd Hcmd.
  rewrite value_gt_Throw. unfold convertible in Hcmd. congruence.
Qed.

End cleanup.

(** ** Runs of the role-aware server *)

Section server_runs.
Context `{JS.Runtime}.
Import JS Eff Express Props Server ServerProps.
Implicit Types (cfg : config) (req : request) (st : state) (now : Z)
  (es : list event).

Lemma post_command_accepted_inv cfg now req st :
  command_accepted (post_command cfg now req st).1 →
  pushes cfg req st = true
  ∧ (post_command cfg now req st).2
    = commands_assign (slice_last 100 (commands st ++ [created st now req])) st.
Proof.
  destruct (post_command_cases cfg now req st)
    as [(_ & Hno & _)|[(_ & -> & _)|(? & _ & ->)]]; done.
Qed.

(** What holds of the initial stores and is kept by every event holds
    after every run. *)
Lemma run_invariant (P : state → Prop) cfg es st :
  (∀ e st0 st1, P st0 → apply cfg e st0 = Normal st1 → P st1) →
  P st → P (run cfg es st).
Proof.
  intros Hstep. revert st. induction es as [|e es IH]; intros st Hst; [done|].
  simpl. destruct (apply cfg e st) as [st1|] eqn:He; [|done].
  apply IH. by eapply Hstep.
Qed.

(** One event leaves a sublist of the log and of what it appends. *)
Lemma apply_sublist cfg e st st1 :
  apply cfg e st = Normal st1 →
  commands st1 `sublist_of` commands st ++ appended cfg [e] st.
Proof.
  intros He. simpl. rewrite He, app_nil_r.
  destruct e as [now req|now req|now]; simpl in He.
  - injection He as <-.
    destruct (post_command_cases cfg now req st)
      as [(-> & _ & ->)|[(-> & _ & _ & ->)|(-> & _ & ->)]]; simpl.
    + by apply sublist_inserts_r.
    + done.
    + apply slice_last_sublist.
  - injection He as <-. rewrite get_commands_state. by apply sublist_inserts_r.
  - apply cleanup_Normal in He as [-> _]. simpl.
    apply sublist_inserts_r, sublist_filter.
Qed.

Lemma appended_cons cfg e es st st1 :
  apply cfg e st = Normal st1 →
  appended cfg (e :: es) st = appended cfg [e] st ++ appended cfg es st1.
Proof. intros He. simpl. rewrite He. by rewrite app_nil_r. Qed.

(** A run leaves a sublist of the log and of what its events append:
    no event rewrites a stored record or reorders the log. *)
Lemma run_sublist cfg es st :
  commands (run cfg es st) `sublist_of` commands st ++ appended cfg es st.
Proof.
  revert st. induction es as [|e es IH]; intros st.
  { simpl. by rewrite app_nil_r. }
  destruct (apply cfg e st) as [st1|] eqn:He.
  - rewrite (appended_cons _ _ _ _ _ He), app_assoc.
    cbn [run]. rewrite He. etrans; [apply IH|].
    apply sublist_app; [by apply apply_sublist|done].
  - simpl. rewrite He. by rewrite app_nil_r.
Qed.

Lemma authorizedUsers_add_subseteq name st :
  authorizedUsers st ⊆ authorizedUsers (authorizedUsers_add name st).
Proof. destruct name; simpl; [apply union_subseteq_r|done..]. Qed.

Lemma authorizedUsers_registeredUsers_set k u st :
  authorizedUsers (registeredUsers_set k u st) = authorizedUsers st.
Proof. by destruct k. Qed.

Lemma post_command_authorizedUsers cfg now req st :
  authorizedUsers st ⊆ authorizedUsers (post_command cfg now req st).2.
Proof.
  destruct (decide (body_command req = VPrim (PStr "register"))) as [Hreg|Hreg].
  - destruct (post_validated (validateApiKey cfg req) req) eqn:Hv.
    + rewrite post_command_register by done.
      destruct (get_property _ _) as [v|]; [|done]. cbn [snd].
      unfold registered. destruct (truthy v).
      * etrans; [|apply authorizedUsers_add_subseteq].
        by rewrite authorizedUsers_registeredUsers_set.
      * by rewrite authorizedUsers_registeredUsers_set.
    + by rewrite post_command_rejected by done.
  - by destruct (post_command_frame cfg now req st Hreg) as (_ & -> & _).
Qed.

Lemma apply_authorizedUsers cfg e st st1 :
  apply cfg e st = Normal st1 →
  authorizedUsers st ⊆ authorizedUsers st1.
Proof.
  destruct e as [now req|now req|now]; simpl.
  - intros [= <-]. apply post_command_authorizedUsers.
  - intros [= <-]. by rewrite get_commands_state.
  - by intros [-> _]%cleanup_Normal.
Qed.

Lemma run_authorizedUsers cfg es st :
  authorizedUsers st ⊆ authorizedUsers (run cfg es st).
Proof.
  revert st. induction es as [|e es IH]; intros st; [done|].
  simpl. destruct (apply cfg e st) as [st1|] eqn:He; [|done].
  etrans; [by eapply apply_authorizedUsers|apply IH].
Qed.

(** A run of accepted submissions trims once at the end. *)
Lemma submit_all_accepted cfg (subs : list (Z * request)) st :
  subs ≠ [] →
  Forall command_accepted (submit_all cfg subs st).1 →
  (submit_all cfg subs st).2
  = commands_assign
      (slice_last 100 (commands st ++ map (λ s, created st s.1 s.2) subs)) st.
Proof.
  revert st. induction subs as [|[now req] rest IH]; intros st; [done|].
  intros _. simpl.
  destruct (post_command cfg now req st) as [r st1] eqn:Hpost.
  destruct (submit_all cfg rest st1) as [rs st2] eqn:Hrest. simpl.
  intros [Hr Hrs]%Forall_cons.
  pose proof (post_command_accepted_inv cfg now req st) as Hinv.
  rewrite Hpost in Hinv. destruct (Hinv Hr) as (_ & Hst1). simpl in Hst1.
  destruct rest as [|s rest].
  { simpl in Hrest. injection Hrest as <- <-. done. }
  specialize (IH st1). rewrite Hrest in IH. simpl in IH.
  rewrite IH by done. subst st1. unfold commands_assign. simpl. f_equal.
  rewrite slice_last_app_slice, <- app_assoc. done.
Qed.

End server_runs.

(** ** Runs of the flat variant *)

Section legacy_runs.
Context `{JS.Runtime}.
Import JS Eff Express Props Legacy LegacyProps.
Implicit Types (cfg : config) (req : request) (st : state) (now : Z).

Lemma legacy_post_command_accepted_inv cfg now req st :
  command_accepted (post_command cfg now req st).1 →
  (post_command cfg now req st).2
  = commands_assign (slice_last 100 (commands st ++ [created now req])) st.
Proof.
  destruct (legacy_post_command_cases cfg now req st)
    as [[Hno _]|[[-> _]|(_ & _ & ->)]]; done.
Qed.

Lemma legacy_run_invariant (P : state → Prop) cfg es st :
  (∀ e st0 st1, P st0 → apply cfg e st0 = Normal st1 → P st1) →
  P st → P (run cfg es st).
Proof.
  intros Hstep. revert st. induction es as [|e es IH]; intros st Hst; [done|].
  simpl. destruct (apply cfg e st) as [st1|] eqn:He; [|done].
  apply IH. by eapply Hstep.
Qed.

Lemma legacy_submit_all_accepted cfg (subs : list (Z * request)) st :
  subs ≠ [] →
  Forall command_accepted (submit_all cfg subs st).1 →
  (submit_all cfg subs st).2
  = commands_assign
      (slice_last 100 (commands st ++ map (λ s, created s.1 s.2) subs)) st.
Proof.
  revert st. induction subs as [|[now req] rest IH]; intros st; [done|].
  intros _. simpl.
  destruct (post_command cfg now req st) as [r st1] eqn:Hpost.
  destruct (submit_all cfg rest st1) as [rs st2] eqn:Hrest. simpl.
  intros [Hr Hrs]%Forall_cons.
  pose proof (legacy_post_command_accepted_inv cfg now req st) as Hinv.
  rewrite Hpost in Hinv. specialize (Hinv Hr). simpl in Hinv.
  destruct rest as [|s rest].
  { simpl in Hrest. injection Hrest as <- <-. done. }
  specialize (IH st1). rewrite Hrest in IH. simpl in IH.
  rewrite IH by done. subst st1. unfold commands_assign. simpl. f_equal.
  rewrite slice_last_app_slice, <- app_assoc. done.
Qed.

Lemma created_args_present now req :
  isCoordinated (created now req) = true →
  nullish (args (created now req)) = false.
Proof.
  unfold created. destruct (strict_eq_val _ _); [|done]. intros _. simpl.
  unfold sanitizeCommandData. by destruct (negb _).
Qed.

Lemma legacy_apply_args_present cfg e st st1 :
  args_present st → apply cfg e st = Normal st1 → args_present st1.
Proof.
  unfold args_present. intros Hst.
  destruct e as [now req|now req|now]; simpl.
  - intros [= <-].
    destruct (legacy_post_command_cases cfg now req st)
      as [[_ ->]|[[_ ->]|(_ & _ & ->)]]; simpl; [done| |].
    + apply Forall_app. split; [done|].
      apply Forall_singleton, created_args_present.
    + eapply Forall_of_sublist; [|apply slice_last_sublist].
      apply Forall_app. split; [done|].
      apply Forall_singleton, created_args_present.
  - intros [= <-]. by rewrite legacy_get_commands_state.
  - intros [-> _]%legacy_cleanup_Normal. simpl.
    eapply Forall_of_sublist; [done|apply sublist_filter].
Qed.

(** Every log the flat variant builds holds coordinated records whose
    args can be read. *)
Lemma legacy_run_args_present cfg es :
  args_present (run cfg es initial).
Proof.
  apply legacy_run_invariant; [|constructor].
  intros e st0 st1. apply legacy_apply_args_present.
Qed.

Lemma legacy_get_commands_total cfg now req st :
  poll_validated (validateApiKey cfg req) req = true →
  args_present st →
  timestamps_convertible st →
  get_commands cfg now req st
  = (CommandList
       (filter (λ cmd, visible now req cmd = Normal true) (commands st))
       (length (filter (λ cmd, visible now req cmd = Normal true) (commands st))),
     st).
Proof.
  intros Hv Hst Hconv. rewrite legacy_get_commands_validated by done.
  rewrite filter_cb_total; [done|].
  unfold args_present, timestamps_convertible in *.
  rewrite Forall_forall in *. intros cmd Hcmd.
  apply legacy_visible_total; auto.
Qed.

End legacy_runs.

(** ** The scenarios of the specification *)

Section scenarios.
Import JS Eff Express Props Examples.
#[local] Existing Instance digits_runtime.

(** Admin1 registers as an admin and sends [bring]; the unregistered
    poller B receives the one record. *)
Example scenario_broadcast :
  (Server.get_commands cfg_open 2000 (poll "s1" "B") admin1_sent_bring).1
  = Server.CommandList [bring_record] 1.
Proof. reflexivity. Qed.

(** The sender polls: nothing is returned. *)
Example scenario_self_exclusion :
  (Server.get_commands cfg_open 2000 (poll "s1" "A") admin1_sent_bring).1
  = Server.CommandList [] 0.
Proof. reflexivity. Qed.

(** The command is older than 30 seconds: nothing is returned. *)
Example scenario_expired :
  (Server.get_commands cfg_open 31001 (poll "s1" "B") admin1_sent_bring).1
  = Server.CommandList [] 0.
Proof. reflexivity. Qed.

(** The admin command carries [args.target = "B"]: the poller C receives
    nothing, the poller B receives the record. *)
Example scenario_targeted :
  let sent := (Server.post_command cfg_open 1000 targeted_bring
                 admin1_registered).2 in
  (Server.get_commands cfg_open 2000 (poll "s1" "C") sent).1
  = Server.CommandList [] 0
  ∧ (Server.get_commands cfg_open 2000 (poll "s1" "B") sent).1
    = Server.CommandList [Server.adminCommandObj 1000 targeted_bring] 1.
Proof. split; reflexivity. Qed.

(** The flat variant answers a coordinated command whose [args.command]
    cannot be converted to a string with the internal error, after the
    record was pushed. *)
Example scenario_coordinated_log_throws :
  let poisoned_args :=
    submission (PStr "s1") (PStr "A") (PStr "Admin1") (PStr "coordinated")
      (VObj [("command", VObj [("toString", VPrim (PNum 1))])]) (PNum 1000) in
  Legacy.post_command cfg_open 1000 poisoned_args Legacy.initial
  = (Legacy.InternalServerError,
     {| Legacy.commands := [LegacyProps.created 1000 poisoned_args] |}).
Proof. reflexivity. Qed.

(** A record whose timestamp is an object with an own [toString] makes
    every later poll of its script by another player answer with the
    internal error, and ends the process at the next cleanup. *)
Example scenario_poisoned_timestamp :
  let sent := (Server.post_command cfg_open 1000 MoreExamples.bring_poisoned_timestamp
                 admin1_registered).2 in
  (Server.get_commands cfg_open 2000 (poll "s1" "B") sent).1
  = Server.InternalServerError
  ∧ Server.cleanup 400000 sent = Throw.
Proof. split; reflexivity. Qed.

(** Admin1, an admin, sends a command whose name is an object with an
    own [toString]: the log line that opens the admin branch throws, the
    answer is the internal error and nothing is stored. *)
Example scenario_admin_log_throws :
  Server.post_command cfg_open 1000 MoreExamples.poisoned_command_from_Admin1
    admin1_registered
  = (Server.InternalServerError, admin1_registered).
Proof. reflexivity. Qed.

(** A registration whose sender name is such an object is answered with
    the internal error after the registry and the set were written. *)
Example scenario_register_log_throws :
  let answered :=
    Server.post_command cfg_open 1000 MoreExamples.register_poisoned_name
      Server.initial in
  answered.1 = Server.InternalServerError
  ∧ Server.user_playerName
      <$> Server.registeredUsers answered.2 !! PStr "P"
    = Some MoreExamples.poisoned
  ∧ Server.objectNames answered.2 = [MoreExamples.poisoned]
  ∧ Server.commands answered.2 = [].
Proof. split_and!; reflexivity. Qed.

(** Admin1 registered as an admin and then with [isAuthorized = false]:
    a poll by A is no longer an admin's, and Admin1 still sends as an
    admin. *)
Example scenario_demoted :
  ¬ ServerProps.poller_is_admin MoreExamples.admin1_demoted (poll "s1" "A")
  ∧ Server.authorizedUsers_has (VPrim (PStr "Admin1")) MoreExamples.admin1_demoted
    = true.
Proof.
  split; [|reflexivity].
  intros (u & Hu & Htruthy). vm_compute in Hu. injection Hu as <-.
  discriminate Htruthy.
Qed.

End scenarios.

(** ** The claims *)

(** C1. Read-path role-target rule. For a record of the log that passes
    the scriptId, self-exclusion and recency tests, the callback of the
    filter completes, and selects the record exactly when the role-target
    rule allows it.  A poll that is answered with a list is answered with
    the filtered log, and of such a record: the record is returned
    exactly when the role-target rule allows it; an admin command
    is not returned to an admin poller; an admin command with an explicit
    target is returned to a non-admin poller exactly when the target is
    the poller's stored display name or the poller's id; an admin command
    without a target is returned to every non-admin poller; a command that
    is not an admin command is returned exactly when the poller is an
    admin; and a poller that is not registered is not an admin.  The
    validated poll is answered with a list when every timestamp of the log
    has a conversion to a number, and with the internal error exactly when
    the log holds a record of the poller's script, sent by another player,
    whose timestamp has none. *)
Theorem C1_role_target_rule `{JS.Runtime}
    (cfg : Express.config) (now : Z) (req : Express.request)
    (st : Server.state) (cmd : Server.commandObj) :
  Props.poll_validated (Server.validateApiKey cfg req) req = true →
  cmd ∈ Server.commands st →
  Server.scriptId cmd = JS.VPrim (Express.query_scriptId req) →
  Server.playerId cmd ≠ JS.VPrim (Express.query_playerId req) →
  JS.value_lt (Server.timestamp cmd) (now - 30000) = JS.Normal false →
  (Server.visible now req
     (Server.isCurrentUserAdmin
        (Server.registeredUsers st !! Express.query_playerId req))
     (Server.currentUserName
        (Server.registeredUsers st !! Express.query_playerId req)) cmd
   = JS.Normal true
   ↔ ServerProps.role_target_allows st req cmd)
  ∧ Server.visible now req
      (Server.isCurrentUserAdmin
         (Server.registeredUsers st !! Express.query_playerId req))
      (Server.currentUserName
         (Server.registeredUsers st !! Express.query_playerId req)) cmd
    ≠ JS.Throw
  ∧ (∀ found n,
     (Server.get_commands cfg now req st).1 = Server.CommandList found n →
     Server.get_commands cfg now req st
     = (Server.CommandList found (length found), st)
     ∧ (cmd ∈ found ↔ ServerProps.role_target_allows st req cmd)
     ∧ (Server.isAdminCommand cmd = true →
        ServerProps.poller_is_admin st req → cmd ∉ found)
     ∧ (Server.isAdminCommand cmd = true →
        ¬ ServerProps.poller_is_admin st req →
        ∀ t, ServerProps.explicit_target cmd t →
             (cmd ∈ found ↔ ServerProps.target_is_poller st req t))
     ∧ (Server.isAdminCommand cmd = true →
        ¬ ServerProps.poller_is_admin st req →
        ¬ ServerProps.has_explicit_target cmd → cmd ∈ found)
     ∧ (Server.isAdminCommand cmd = false →
        (cmd ∈ found ↔ ServerProps.poller_is_admin st req))
     ∧ (Server.registeredUsers st !! Express.query_playerId req = None →
        ¬ ServerProps.poller_is_admin st req))
  ∧ (ServerProps.timestamps_convertible st →
     ∃ found,
       Server.get_commands cfg now req st
       = (Server.CommandList found (length found), st))
  ∧ ((Server.get_commands cfg now req st).1 = Server.InternalServerError
     ↔ ∃ other,
         other ∈ Server.commands st
         ∧ Server.scriptId other = JS.VPrim (Express.query_scriptId req)
         ∧ Server.playerId other ≠ JS.VPrim (Express.query_playerId req)
         ∧ JS.to_string_throws (Server.timestamp other) = true).
Proof.
  intros Hvalid Hin Hs Hp Hrecent. split_and!.
  - rewrite visible_true. tauto.
  - rewrite visible_Throw. intros (_ & _ & Hthrow).
    apply (value_lt_Throw _ (now - 30000)) in Hthrow. congruence.
  - intros found n Hget.
    apply get_commands_list in Hget as (_ & Hfound & ->).
    assert (cmd ∈ found ↔ ServerProps.role_target_allows st req cmd) as Hiff.
    { rewrite (elem_of_filteredCommands _ _ _ _ _ Hfound). tauto. }
    split.
    { rewrite get_commands_validated by done. by rewrite Hfound. }
    split; [done|]. rewrite Hiff. split_and!.
    + intros Hflag Hadmin [_ Hnot _|t _ Hnot _ _|Hflag' _]; done || congruence.
    + intros Hflag Hnot t Ht. rewrite Hiff. split.
      * intros [_ _ Hno|t' _ _ Ht' Hpoller|Hflag' _]; [| |congruence].
        -- destruct Hno. by exists t.
        -- destruct Ht as (_ & Hprop & _), Ht' as (_ & Hprop' & _). congruence.
      * intros Hpoller. by eapply ServerProps.admin_targeted.
    + intros. by apply ServerProps.admin_broadcast.
    + intros Hflag. split.
      * intros [Hflag' _ _|t Hflag' _ _ _|_ Hadmin]; done || congruence.
      * intros Hadmin. by apply ServerProps.alt_to_admin.
    + apply unregistered_not_admin.
  - intros Hconv. rewrite get_commands_validated by done.
    rewrite filteredCommands_total by done. eauto.
  - rewrite get_commands_validated by done.
    rewrite <- (filteredCommands_Throw now).
    cbn [fst]. by destruct (Server.filteredCommands now req st).
Qed.

(** The scenario of the specification: Admin1 registers as an admin and
    sends [bring]; the unregistered poller B receives it. *)
Lemma C1_role_target_rule_witness :
  Examples.bring_record ∈ Server.commands Examples.admin1_sent_bring
  ∧ Server.get_commands (H := Props.digits_runtime) Examples.cfg_open 2000
      (Examples.poll "s1" "B") Examples.admin1_sent_bring
    = (Server.CommandList [Examples.bring_record] 1, Examples.admin1_sent_bring)
  ∧ (Examples.bring_record ∈ [Examples.bring_record]
     ↔ ServerProps.role_target_allows Examples.admin1_sent_bring
         (Examples.poll "s1" "B") Examples.bring_record).
Proof.
  assert (Examples.bring_record ∈ Server.commands Examples.admin1_sent_bring)
    as Hin by (vm_compute; left).
  split; [exact Hin|].
  destruct (C1_role_target_rule (H := Props.digits_runtime) Examples.cfg_open
              2000 (Examples.poll "s1" "B") Examples.admin1_sent_bring
              Examples.bring_record) as (_ & _ & Hlist & _ & _);
    [reflexivity | exact Hin | reflexivity | discriminate | reflexivity |].
  destruct (Hlist [Examples.bring_record] 1 eq_refl) as (Hget & Hiff & _).
  split; [exact Hget | exact Hiff].
Defined.


(** C3, as the specification states it, fails: the role-aware server
    accepts a [bring] whose args carry the keys [target] and [evil], and
    the record it stores keeps both, though neither is in the allow list. *)
Lemma C3_args_allow_list_counterexample :
  ∃ cmd,
    last (Server.commands
            (Server.post_command Examples.cfg_open 1000 Examples.targeted_bring
               Examples.admin1_registered).2) = Some cmd
    ∧ Server.command cmd = JS.VPrim (JS.PStr "bring")
    ∧ JS.property (Server.args cmd) "evil" = JS.VPrim (JS.PNum 1)
    ∧ JS.property (Server.args cmd) "target" = JS.VPrim (JS.PStr "B")
    ∧ ("evil" ∉ Server.allowedKeys)
    ∧ ("target" ∉ Server.allowedKeys).
Proof.
  exists (Server.adminCommandObj 1000 Examples.targeted_bring).
  split_and!.
  - by vm_compute.
  - by vm_compute.
  - by vm_compute.
  - by vm_compute.
  - apply (bool_decide_unpack _). by vm_compute.
  - apply (bool_decide_unpack _). by vm_compute.
Qed.

(** C3, amended. The role-aware server, and the flat variant for a
    command other than [coordinated], store the args as submitted (the
    empty object when the args are absent or falsy): no key is dropped.
    Only the flat variant's [coordinated] command stores an args object
    reduced to the allow list: its properties are exactly the allow-listed
    keys that the submitted args define, with their values. *)
Theorem C3_args_allow_list
    (cfg : Express.config) (now : Z) (req : Express.request)
    (st : Server.state) (st' : Legacy.state) :
  (ServerProps.command_accepted (Server.post_command cfg now req st).1 →
   ∃ cmd,
     last (Server.commands (Server.post_command cfg now req st).2) = Some cmd
     ∧ Server.args cmd = JS.or_else (Express.body_args req) (JS.VObj []))
  ∧ (∀ id,
       (Legacy.post_command cfg now req st').1 = Legacy.CommandReceived id →
       ∃ cmd,
         last (Legacy.commands (Legacy.post_command cfg now req st').2)
         = Some cmd
         ∧ Legacy.args cmd = JS.or_else (Express.body_args req) (JS.VObj []))
  ∧ (∀ id,
       (Legacy.post_command cfg now req st').1
       = Legacy.CoordinatedCommandReceived id →
       ∃ cmd props,
         last (Legacy.commands (Legacy.post_command cfg now req st').2)
         = Some cmd
         ∧ Legacy.args cmd = JS.VObj props
         ∧ ∀ k v, (k, v) ∈ props ↔
             k ∈ Legacy.allowedKeys
             ∧ v = JS.property (Express.body_args req) k
             ∧ v ≠ JS.undefined).
Proof.
  split_and!.
  - intros Hacc. exists (ServerProps.created st now req).
    split; [by apply server_stored|].
    unfold ServerProps.created. by destruct (Server.authorizedUsers_has _ _).
  - intros id Hans. exists (LegacyProps.created now req). split.
    { apply legacy_stored. by rewrite Hans. }
    unfold LegacyProps.created.
    destruct (JS.strict_eq_val _ _) eqn:Hco; [|done].
    apply strict_eq_val_true in Hco.
    destruct (Props.post_validated (Legacy.validateApiKey cfg req) req) eqn:Hv.
    + rewrite legacy_post_command_coordinated in Hans by done. simpl in Hans.
      destruct (Legacy.validateCoordinatedCommand _); simpl in Hans; [|done].
      by destruct (LegacyProps.coordinated_log_throws _ _).
    + rewrite legacy_post_command_rejected in Hans by done. simpl in Hans.
      by destruct (Legacy.validateApiKey cfg req).
  - intros id Hans.
    assert (Express.body_command req = JS.VPrim (JS.PStr "coordinated")
            ∧ Legacy.validateCoordinatedCommand
                (Legacy.sanitizeCommandData (Express.body_args req)) = true)
      as [Hco Hvalid].
    { destruct (Props.post_validated (Legacy.validateApiKey cfg req) req) eqn:Hv.
      - destruct (decide (Express.body_command req
                          = JS.VPrim (JS.PStr "coordinated"))) as [Hco|Hco].
        + split; [done|].
          rewrite legacy_post_command_coordinated in Hans by done.
          simpl in Hans. by destruct (Legacy.validateCoordinatedCommand _).
        + rewrite legacy_post_command_regular in Hans by done.
          by destruct (LegacyProps.regular_log_throws req).
      - rewrite legacy_post_command_rejected in Hans by done. simpl in Hans.
        by destruct (Legacy.validateApiKey cfg req). }
    destruct (sanitizeCommandData_props (Express.body_args req))
      as (props & Hsan & Hprops).
    exists (LegacyProps.created now req), props. split.
    { apply legacy_stored. by rewrite Hans. }
    unfold LegacyProps.created. rewrite Hco. simpl. split; [done|].
    intros k v. rewrite Hprops. split; [tauto|]. intros (? & ? & ?).
    split_and!; [|done..].
    destruct (JS.truthy (Express.body_args req)) eqn:Ht; [done|].
    unfold Legacy.sanitizeCommandData in Hvalid. by rewrite Ht in Hvalid.
Qed.

(** The role-aware server stores the args of the targeted [bring] as they
    are; the flat variant stores the coordinated [follow] without its key
    [evil]. *)
Lemma C3_args_allow_list_witness :
  (∃ cmd,
     last (Server.commands
             (Server.post_command Examples.cfg_open 1000
                Examples.targeted_bring Examples.admin1_registered).2)
     = Some cmd
     ∧ Server.args cmd = Examples.targeted_args)
  ∧ (∃ cmd props,
       last (Legacy.commands
               (Legacy.post_command Examples.cfg_open 1000
                  Examples.coordinated_follow Legacy.initial).2) = Some cmd
       ∧ Legacy.args cmd = JS.VObj props
       ∧ ∀ v, ("evil", v) ∉ props).
Proof.
  destruct (C3_args_allow_list Examples.cfg_open 1000 Examples.targeted_bring
              Examples.admin1_registered Legacy.initial) as (Hserver & _ & _).
  destruct (C3_args_allow_list Examples.cfg_open 1000
              Examples.coordinated_follow Examples.admin1_registered
              Legacy.initial) as (_ & _ & Hcoordinated).
  split.
  - apply Hserver. exact I.
  - destruct (Hcoordinated "1000" eq_refl) as (cmd & props & Hlast & Hargs & Hprops).
    exists cmd, props. split_and!; [exact Hlast | exact Hargs |].
    intros v [Hk _]%Hprops. revert Hk.
    apply (bool_decide_unpack _). by vm_compute.
Defined.

(** C4. A submission that is validated and is not a registration stores
    one record, unless the sender's name is in the authorized-name set and
    the log line that opens the admin branch throws (the command is an
    object that has no conversion to a string): the answer is then the
    internal error and nothing is stored.  The record stored carries the
    submitted sender name, and its [isAdminCommand] flag is the membership
    of that name in the authorized-name set at the write: it is true
    exactly when the name is a scalar of the set, the registry is not
    consulted.  A later registration, which is what changes a role, leaves
    the log as it is; and whatever happens afterwards (submissions,
    registrations, polls, cleanups), the log is a sublist of the log as
    written followed by the records appended later: a stored record is
    never rewritten. *)
Theorem C4_flag_fixed_at_write `{JS.Runtime}
    (cfg : Express.config) (now : Z) (req : Express.request)
    (st : Server.state) :
  Props.post_validated (Server.validateApiKey cfg req) req = true →
  Express.body_command req ≠ JS.VPrim (JS.PStr "register") →
  ((Server.authorizedUsers_has (Express.body_playerName req) st = true
    ∧ existsb JS.to_string_throws
        [Express.body_command req; Express.body_playerName req] = true
    ∧ Server.post_command cfg now req st = (Server.InternalServerError, st))
   ∨ ∃ cmd,
       last (Server.commands (Server.post_command cfg now req st).2) = Some cmd
       ∧ Server.playerName cmd = Express.body_playerName req
       ∧ Server.isAdminCommand cmd
         = Server.authorizedUsers_has (Express.body_playerName req) st
       ∧ (∀ N, Express.body_playerName req = JS.VPrim N →
               (Server.isAdminCommand cmd = true ↔ N ∈ Server.authorizedUsers st))
       ∧ (JS.scalar (Express.body_playerName req) = None →
          Server.isAdminCommand cmd = false))
  ∧ (∀ later registration,
       Express.body_command registration = JS.VPrim (JS.PStr "register") →
       Server.commands
         (Server.post_command cfg later registration
            (Server.post_command cfg now req st).2).2
       = Server.commands (Server.post_command cfg now req st).2)
  ∧ ∀ es,
      Server.commands
        (ServerProps.run cfg es (Server.post_command cfg now req st).2)
      `sublist_of`
      Server.commands (Server.post_command cfg now req st).2
      ++ ServerProps.appended cfg es (Server.post_command cfg now req st).2.
Proof.
  intros Hv Hreg. split_and!.
  - rewrite post_command_append by done.
    destruct (Server.authorizedUsers_has (Express.body_playerName req) st)
      eqn:Hadmin.
    + destruct (existsb JS.to_string_throws [Express.body_command req; _])
        eqn:Hlog; [by left|].
      right. exists (ServerProps.created st now req). split_and!.
      * simpl. apply last_slice_last. lia.
      * unfold ServerProps.created. by rewrite Hadmin.
      * unfold ServerProps.created. by rewrite Hadmin.
      * intros N HN. unfold ServerProps.created. rewrite Hadmin. simpl.
        rewrite HN in Hadmin. simpl in Hadmin.
        by apply bool_decide_eq_true in Hadmin.
      * intros Hobj. by destruct (Express.body_playerName req).
    + right. exists (ServerProps.created st now req). split_and!.
      * destruct (existsb JS.to_string_throws _); simpl.
        -- apply last_snoc.
        -- apply last_slice_last. lia.
      * unfold ServerProps.created. by rewrite Hadmin.
      * unfold ServerProps.created. by rewrite Hadmin.
      * intros N HN. unfold ServerProps.created. rewrite Hadmin. simpl.
        rewrite HN in Hadmin. simpl in Hadmin.
        apply bool_decide_eq_false in Hadmin. by split.
      * intros _. unfold ServerProps.created. by rewrite Hadmin.
  - intros later registration Hregister.
    destruct (post_command_cases cfg later registration
                (Server.post_command cfg now req st).2)
      as [(_ & _ & ->)|[(Hpush & _)|(Hpush & _)]]; [done|..];
      apply pushes_true in Hpush as (_ & Hno & _); done.
  - intros es. apply run_sublist.
Qed.

(** Bob, not yet an admin, sends [hello]: the flag of the record is not
    set; Bob then registers as an admin, and the log still holds the
    record as it was written. *)
Lemma C4_flag_fixed_at_write_witness :
  Server.commands
    (ServerProps.run (H := Props.digits_runtime) Examples.cfg_open
       [Props.Submit 1100 Examples.register_Bob_admin]
       (Server.post_command Examples.cfg_open 1000 Examples.hello_from_Bob
          Server.initial).2)
  = [Examples.hello_record]
  ∧ ∃ cmd,
      last (Server.commands
              (Server.post_command Examples.cfg_open 1000
                 Examples.hello_from_Bob Server.initial).2) = Some cmd
      ∧ ¬ Server.isAdminCommand cmd = true.
Proof.
  split; [by vm_compute|].
  destruct (C4_flag_fixed_at_write (H := Props.digits_runtime)
              Examples.cfg_open 1000 Examples.hello_from_Bob Server.initial)
    as ([(Hadmin & _)|(cmd & Hlast & _ & _ & Hflag & _)] & _ & _);
    [reflexivity | discriminate | discriminate Hadmin |].
  exists cmd. split; [exact Hlast|].
  intros Hset%(Hflag (JS.PStr "Bob") eq_refl). by apply elem_of_empty in Hset.
Defined.

(** C5. The log capacity the specification states fails on a submission
    that is interrupted after its push.  Both servers hold the 100 records
    of 100 accepted submissions; a command whose sender name is an object
    with an own [toString] is then submitted: its record is pushed, the
    log line that follows the push throws, the trim is skipped, and the
    submission is answered with the internal error and leaves 101 records.
    A second such submission leaves 102, and the log is trimmed again only
    by the next accepted submission.  (The flat variant is interrupted in
    the same way by a coordinated command whose [args.command] is such an
    object.) *)
Lemma C5_log_capacity_exceeded :
  length (Server.commands MoreExamples.server_full) = 100
  ∧ (Server.post_command Examples.cfg_open 101
       MoreExamples.hello_poisoned_name MoreExamples.server_full).1
    = Server.InternalServerError
  ∧ length (Server.commands
              (Server.post_command Examples.cfg_open 101
                 MoreExamples.hello_poisoned_name MoreExamples.server_full).2)
    = 101
  ∧ length (Server.commands
              (Server.post_command Examples.cfg_open 102
                 MoreExamples.hello_poisoned_name
                 (Server.post_command Examples.cfg_open 101
                    MoreExamples.hello_poisoned_name
                    MoreExamples.server_full).2).2)
    = 102
  ∧ length (Legacy.commands MoreExamples.legacy_full) = 100
  ∧ (Legacy.post_command Examples.cfg_open 101
       MoreExamples.hello_poisoned_name MoreExamples.legacy_full).1
    = Legacy.InternalServerError
  ∧ length (Legacy.commands
              (Legacy.post_command Examples.cfg_open 101
                 MoreExamples.hello_poisoned_name MoreExamples.legacy_full).2)
    = 101
  ∧ (Legacy.post_command Examples.cfg_open 101
       MoreExamples.coordinated_poisoned MoreExamples.legacy_full).1
    = Legacy.InternalServerError
  ∧ length (Legacy.commands
              (Legacy.post_command Examples.cfg_open 101
                 MoreExamples.coordinated_poisoned MoreExamples.legacy_full).2)
    = 101.
Proof. split_and!; by vm_compute. Qed.

(** C6. In both variants, after a cleanup that ran at [pruneInstant] no
    record of the log has a timestamp below [pruneInstant - 300000]
    (every timestamp left is a number above the bound); the log is a
    sublist of the log before; every record of the log before whose
    timestamp is above the bound is still in it; and the records above
    the bound are the same list, in the same order, before and after.
    The cleanup runs to its end when every timestamp of the log has a
    conversion to a number. *)
Theorem C6_cleanup_postcondition `{JS.Runtime}
    (pruneInstant : Z) (st : Server.state) (st' : Legacy.state) :
  ((∀ cleaned,
      Server.cleanup pruneInstant st = JS.Normal cleaned →
      (∀ cmd, cmd ∈ Server.commands cleaned →
         JS.value_lt (Server.timestamp cmd) (pruneInstant - 300000)
         = JS.Normal false
         ∧ ∃ n, JS.to_number (Server.timestamp cmd) = JS.Normal (JS.Num n)
                ∧ (pruneInstant - 300000 < n)%Z)
      ∧ Server.commands cleaned `sublist_of` Server.commands st
      ∧ (∀ cmd, cmd ∈ Server.commands st →
           JS.value_gt (Server.timestamp cmd) (pruneInstant - 300000)
           = JS.Normal true →
           cmd ∈ Server.commands cleaned)
      ∧ filter (λ cmd, JS.value_gt (Server.timestamp cmd) (pruneInstant - 300000)
                       = JS.Normal true)
          (Server.commands cleaned)
        = filter (λ cmd, JS.value_gt (Server.timestamp cmd) (pruneInstant - 300000)
                         = JS.Normal true)
            (Server.commands st))
   ∧ (ServerProps.timestamps_convertible st →
      ∃ cleaned, Server.cleanup pruneInstant st = JS.Normal cleaned))
  ∧ ((∀ cleaned,
        Legacy.cleanup pruneInstant st' = JS.Normal cleaned →
        (∀ cmd, cmd ∈ Legacy.commands cleaned →
           JS.value_lt (Legacy.timestamp cmd) (pruneInstant - 300000)
           = JS.Normal false
           ∧ ∃ n, JS.to_number (Legacy.timestamp cmd) = JS.Normal (JS.Num n)
                  ∧ (pruneInstant - 300000 < n)%Z)
        ∧ Legacy.commands cleaned `sublist_of` Legacy.commands st'
        ∧ (∀ cmd, cmd ∈ Legacy.commands st' →
             JS.value_gt (Legacy.timestamp cmd) (pruneInstant - 300000)
             = JS.Normal true →
             cmd ∈ Legacy.commands cleaned)
        ∧ filter (λ cmd, JS.value_gt (Legacy.timestamp cmd) (pruneInstant - 300000)
                         = JS.Normal true)
            (Legacy.commands cleaned)
          = filter (λ cmd, JS.value_gt (Legacy.timestamp cmd) (pruneInstant - 300000)
                           = JS.Normal true)
              (Legacy.commands st'))
     ∧ (LegacyProps.timestamps_convertible st' →
        ∃ cleaned, Legacy.cleanup pruneInstant st' = JS.Normal cleaned)).
Proof.
  split; split.
  - intros cleaned [-> _]%cleanup_Normal. simpl. split_and!.
    + intros cmd [Hgt _]%list_elem_of_filter.
      split; [by apply value_gt_lt_false|by apply value_gt_number].
    + apply sublist_filter.
    + intros cmd Hin Hgt. by apply list_elem_of_filter.
    + rewrite list_filter_filter. apply list_filter_iff. tauto.
  - intros Hconv. rewrite cleanup_total by done. eauto.
  - intros cleaned [-> _]%legacy_cleanup_Normal. simpl. split_and!.
    + intros cmd [Hgt _]%list_elem_of_filter.
      split; [by apply value_gt_lt_false|by apply value_gt_number].
    + apply sublist_filter.
    + intros cmd Hin Hgt. by apply list_elem_of_filter.
    + rewrite list_filter_filter. apply list_filter_iff. tauto.
  - intros Hconv. rewrite legacy_cleanup_total by done. eauto.
Qed.

(** At instant 2000 the cleanup runs to its end and keeps the [bring]
    stamped 1000; at instant 400000 it removes it. *)
Lemma C6_cleanup_postcondition_witness :
  (∃ cleaned,
     Server.cleanup (H := Props.digits_runtime) 2000 Examples.admin1_sent_bring
     = JS.Normal cleaned
     ∧ Examples.bring_record ∈ Server.commands cleaned)
  ∧ Server.commands
      <$> Server.cleanup (H := Props.digits_runtime) 400000
            Examples.admin1_sent_bring
    = JS.Normal [].
Proof.
  destruct (C6_cleanup_postcondition (H := Props.digits_runtime) 2000
              Examples.admin1_sent_bring Legacy.initial)
    as [[Hdone Hruns] _].
  destruct Hruns as [cleaned Hcleaned]; [repeat constructor|].
  destruct (Hdone cleaned Hcleaned) as (_ & _ & Hkept & _).
  split; [|reflexivity].
  exists cleaned. split; [exact Hcleaned|].
  apply Hkept; [left | reflexivity].
Defined.

(** C7. A submission whose command is [register] leaves the log as it
    is, whatever its answer.  When it is answered as registered, the
    stores are those of the registration: the registry has the entry of
    the sender's id inserted or overwritten, and the authorized-name set
    has the sender's name added when [args.isAuthorized] is truthy and is
    unchanged otherwise.  When it is refused (401, 400) all three stores
    are unchanged.  When it is answered with the internal error, either
    the args are absent or [null] and all three stores are unchanged, or
    the log line that follows the writes threw (the sender's name or id
    is an object that has no conversion to a string) and the registry and
    the set are those of the registration. *)
Theorem C7_register_frame
    (cfg : Express.config) (now : Z) (req : Express.request)
    (st : Server.state) :
  Express.body_command req = JS.VPrim (JS.PStr "register") →
  Server.commands (Server.post_command cfg now req st).2 = Server.commands st
  ∧ match (Server.post_command cfg now req st).1 with
    | Server.UserRegistered v =>
        JS.get_property (Express.body_args req) "isAuthorized" = JS.Normal v
        ∧ (Server.post_command cfg now req st).2
          = ServerProps.registered now req v st
    | Server.InvalidApiKey | Server.MissingRequiredFields =>
        (Server.post_command cfg now req st).2 = st
    | Server.InternalServerError =>
        (JS.nullish (Express.body_args req) = true
         ∧ (Server.post_command cfg now req st).2 = st)
        ∨ (∃ v,
             JS.get_property (Express.body_args req) "isAuthorized"
             = JS.Normal v
             ∧ existsb JS.to_string_throws
                 [Express.body_playerName req; Express.body_playerId req]
               = true
             ∧ (Server.post_command cfg now req st).2
               = ServerProps.registered now req v st)
    | Server.AdminCommandDistributed _ | Server.CommandReceived _
    | Server.CommandList _ _ => False
    end
  ∧ ∀ v,
      Server.commands (ServerProps.registered now req v st) = Server.commands st
      ∧ (∀ id, Express.body_playerId req = JS.VPrim id →
           Server.registeredUsers (ServerProps.registered now req v st)
           = <[id := {| Server.user_scriptId := Express.body_scriptId req;
                        Server.user_playerId := Express.body_playerId req;
                        Server.user_playerName := Express.body_playerName req;
                        Server.isAuthorized := v;
                        Server.user_timestamp := now |}]>
               (Server.registeredUsers st))
      ∧ (∀ N, Express.body_playerName req = JS.VPrim N →
           Server.authorizedUsers (ServerProps.registered now req v st)
           = (if JS.truthy v then {[N]} ∪ Server.authorizedUsers st
              else Server.authorizedUsers st)).
Proof.
  intros Hreg.
  assert (∀ v, Server.commands (ServerProps.registered now req v st)
               = Server.commands st) as Hlog.
  { intros v. unfold ServerProps.registered.
    by destruct (Express.body_playerId req), (JS.truthy v),
      (Express.body_playerName req). }
  split_and!.
  - destruct (Props.post_validated (Server.validateApiKey cfg req) req) eqn:Hv.
    + rewrite post_command_register by done.
      destruct (JS.get_property _ _) as [v|]; [|done]. apply Hlog.
    + by rewrite post_command_rejected by done.
  - destruct (Props.post_validated (Server.validateApiKey cfg req) req) eqn:Hv.
    + rewrite post_command_register by done.
      destruct (JS.get_property _ _) as [v|] eqn:Hget.
      * cbn [fst snd].
        destruct (existsb JS.to_string_throws [Express.body_playerName req; _])
          eqn:Hthrows; [|done].
        right. by exists v.
      * left. split; [|done]. unfold JS.get_property in Hget.
        by destruct (JS.nullish _).
    + rewrite post_command_rejected by done. simpl.
      by destruct (Server.validateApiKey cfg req).
  - intros v. split; [apply Hlog|]. unfold ServerProps.registered. split.
    + intros id ->. simpl. by destruct (JS.truthy v), (Express.body_playerName req).
    + intros N ->. simpl. by destruct (JS.truthy v), (Express.body_playerId req).
Qed.

(** Admin1 sent [bring]; Bob then registers as an admin: the log is the
    same, and Bob is in the registry and in the authorized-name set. *)
Lemma C7_register_frame_witness :
  Server.commands
    (Server.post_command Examples.cfg_open 1100 Examples.register_Bob_admin
       Examples.admin1_sent_bring).2
  = Server.commands Examples.admin1_sent_bring
  ∧ JS.PStr "Bob"
    ∈ Server.authorizedUsers
        (Server.post_command Examples.cfg_open 1100 Examples.register_Bob_admin
           Examples.admin1_sent_bring).2.
Proof.
  destruct (C7_register_frame Examples.cfg_open 1100 Examples.register_Bob_admin
              Examples.admin1_sent_bring eq_refl) as [Hlog _].
  split; [exact Hlog|].
  apply (bool_decide_unpack _). by vm_compute.
Defined.

(** C8. Whatever happens to the server (submissions, registrations,
    polls, cleanups), a name of the authorized-name set stays in it; and
    a registration answered as registered with a falsy [isAuthorized]
    leaves the set as it is. *)
Theorem C8_authorized_only_grows `{JS.Runtime}
    (cfg : Express.config) (es : list Props.event) (st : Server.state)
    (N : JS.prim) :
  N ∈ Server.authorizedUsers st →
  N ∈ Server.authorizedUsers (ServerProps.run cfg es st)
  ∧ ∀ now req v,
      Express.body_command req = JS.VPrim (JS.PStr "register") →
      (Server.post_command cfg now req st).1 = Server.UserRegistered v →
      JS.truthy v = false →
      Server.authorizedUsers (Server.post_command cfg now req st).2
      = Server.authorizedUsers st.
Proof.
  intros HN. split; [by apply run_authorizedUsers|].
  intros now req v Hreg Hans Hfalsy.
  destruct (Props.post_validated (Server.validateApiKey cfg req) req) eqn:Hv.
  - rewrite post_command_register in Hans |- * by done.
    destruct (JS.get_property _ _) as [v'|]; [|done].
    cbn [fst snd] in *.
    destruct (existsb JS.to_string_throws _); [done|].
    injection Hans as ->. unfold ServerProps.registered. rewrite Hfalsy.
    apply authorizedUsers_registeredUsers_set.
  - by rewrite post_command_rejected by done.
Qed.

(** Admin1 is authorized; Admin1 then registers again with
    [isAuthorized = false], the poller B polls and the cleanup runs:
    Admin1 is still authorized. *)
Lemma C8_authorized_only_grows_witness :
  JS.PStr "Admin1" ∈ Server.authorizedUsers Examples.admin1_registered
  ∧ JS.PStr "Admin1"
    ∈ Server.authorizedUsers
        (ServerProps.run (H := Props.digits_runtime) Examples.cfg_open
           [Props.Submit 1100 Examples.register_Admin1_as_alt;
            Props.Poll 1200 (Examples.poll "s1" "B");
            Props.Cleanup 400000]
           Examples.admin1_registered).
Proof.
  assert (JS.PStr "Admin1" ∈ Server.authorizedUsers Examples.admin1_registered)
    as Hin by (apply (bool_decide_unpack _); by vm_compute).
  split; [exact Hin|].
  apply (C8_authorized_only_grows (H := Props.digits_runtime)). exact Hin.
Defined.

(** C9. In both variants, for a record of the log that has no timestamp,
    the recency test [timestamp < pollInstant - 30000] is false at every
    instant: the callback of the filter selects the record for a poll, at
    whatever instant, that has the record's scriptId, comes from another
    sender and is allowed by the targeting rule of the variant; such a
    poll returns the record whenever it is answered with a list, and it
    is answered with a list when every timestamp of the log has a
    conversion to a number.  And the test [timestamp > pruneInstant -
    300000] of the cleanup is false of the record at every instant: a
    cleanup that runs to its end drops it, and the cleanup runs to its
    end when every timestamp of the log has a conversion to a number.  (For the flat variant the log is one the server has built:
    its coordinated records have readable args.) *)
Theorem C9_missing_timestamp `{JS.Runtime}
    (cfg : Express.config) (pollInstant pruneInstant : Z)
    (req : Express.request) :
  (∀ st cmd,
     cmd ∈ Server.commands st →
     Server.timestamp cmd = JS.undefined →
     JS.value_lt (Server.timestamp cmd) (pollInstant - 30000) = JS.Normal false
     ∧ JS.value_gt (Server.timestamp cmd) (pruneInstant - 300000)
       = JS.Normal false
     ∧ (Props.poll_validated (Server.validateApiKey cfg req) req = true →
        Server.scriptId cmd = JS.VPrim (Express.query_scriptId req) →
        Server.playerId cmd ≠ JS.VPrim (Express.query_playerId req) →
        ServerProps.role_target_allows st req cmd →
        Server.visible pollInstant req
          (Server.isCurrentUserAdmin
             (Server.registeredUsers st !! Express.query_playerId req))
          (Server.currentUserName
             (Server.registeredUsers st !! Express.query_playerId req)) cmd
        = JS.Normal true
        ∧ (∀ found n,
           (Server.get_commands cfg pollInstant req st).1
           = Server.CommandList found n →
           cmd ∈ found)
        ∧ (ServerProps.timestamps_convertible st →
           ∃ found,
             Server.get_commands cfg pollInstant req st
             = (Server.CommandList found (length found), st)
             ∧ cmd ∈ found))
     ∧ (∀ cleaned,
          Server.cleanup pruneInstant st = JS.Normal cleaned →
          cmd ∉ Server.commands cleaned)
     ∧ (ServerProps.timestamps_convertible st →
        ∃ cleaned,
          Server.cleanup pruneInstant st = JS.Normal cleaned
          ∧ cmd ∉ Server.commands cleaned))
  ∧ (∀ st cmd,
       cmd ∈ Legacy.commands st →
       Legacy.timestamp cmd = JS.undefined →
       JS.value_lt (Legacy.timestamp cmd) (pollInstant - 30000) = JS.Normal false
       ∧ JS.value_gt (Legacy.timestamp cmd) (pruneInstant - 300000)
         = JS.Normal false
       ∧ (Props.poll_validated (Legacy.validateApiKey cfg req) req = true →
          LegacyProps.args_present st →
          Legacy.scriptId cmd = JS.VPrim (Express.query_scriptId req) →
          Legacy.playerId cmd ≠ JS.VPrim (Express.query_playerId req) →
          LegacyProps.target_allows req cmd →
          Legacy.visible pollInstant req cmd = JS.Normal true
          ∧ (∀ found n,
             (Legacy.get_commands cfg pollInstant req st).1
             = Legacy.CommandList found n →
             cmd ∈ found)
          ∧ (LegacyProps.timestamps_convertible st →
             ∃ found,
               Legacy.get_commands cfg pollInstant req st
               = (Legacy.CommandList found (length found), st)
               ∧ cmd ∈ found))
       ∧ (∀ cleaned,
            Legacy.cleanup pruneInstant st = JS.Normal cleaned →
            cmd ∉ Legacy.commands cleaned)
       ∧ (LegacyProps.timestamps_convertible st →
          ∃ cleaned,
            Legacy.cleanup pruneInstant st = JS.Normal cleaned
            ∧ cmd ∉ Legacy.commands cleaned)).
Proof.
  split.
  - intros st cmd Hin Hts.
    assert (∀ cleaned,
              Server.cleanup pruneInstant st = JS.Normal cleaned →
              cmd ∉ Server.commands cleaned) as Hdropped.
    { intros cleaned [-> _]%cleanup_Normal. simpl.
      intros [Hgt _]%list_elem_of_filter.
      by rewrite Hts, value_gt_undefined in Hgt. }
    split_and!.
    + rewrite Hts. apply value_lt_undefined.
    + rewrite Hts. apply value_gt_undefined.
    + intros Hv Hs Hp Hrole.
      assert (∀ found,
                Server.filteredCommands pollInstant req st = JS.Normal found →
                cmd ∈ found) as Hfound.
      { intros found Hfound.
        apply (elem_of_filteredCommands _ _ _ _ _ Hfound).
        split_and!; [done..| |done]. rewrite Hts. apply value_lt_undefined. }
      split_and!.
      * apply visible_true. split_and!; [done..| |done].
        rewrite Hts. apply value_lt_undefined.
      * intros found n (_ & Hlist & _)%get_commands_list. by apply Hfound.
      * intros Hconv. rewrite get_commands_validated by done.
        pose proof (filteredCommands_total pollInstant req st Hconv) as Htotal.
        rewrite Htotal. eexists. split; [done|]. by apply Hfound.
    + done.
    + intros Hconv. rewrite cleanup_total by done. eexists. split; [done|].
      apply Hdropped. by apply cleanup_total.
  - intros st cmd Hin Hts.
    assert (∀ cleaned,
              Legacy.cleanup pruneInstant st = JS.Normal cleaned →
              cmd ∉ Legacy.commands cleaned) as Hdropped.
    { intros cleaned [-> _]%legacy_cleanup_Normal. simpl.
      intros [Hgt _]%list_elem_of_filter.
      by rewrite Hts, value_gt_undefined in Hgt. }
    split_and!.
    + rewrite Hts. apply value_lt_undefined.
    + rewrite Hts. apply value_gt_undefined.
    + intros Hv Hargs Hs Hp Htarget.
      assert (Legacy.visible pollInstant req cmd = JS.Normal true) as Hvisible.
      { apply legacy_visible_true. split_and!; [done..| | |done].
        - rewrite Hts. apply value_lt_undefined.
        - intros Hco. unfold LegacyProps.args_present in Hargs.
          rewrite Forall_forall in Hargs. by apply Hargs. }
      assert (cmd ∈ filter (λ cmd, Legacy.visible pollInstant req cmd
                                   = JS.Normal true) (Legacy.commands st))
        as Hfound by by apply list_elem_of_filter.
      split_and!; [done| |].
      * by intros found n ->%legacy_get_commands_list.
      * intros Hconv. rewrite legacy_get_commands_total by done. eauto.
    + done.
    + intros Hconv. rewrite legacy_cleanup_total by done. eexists. split; [done|].
      apply Hdropped. by apply legacy_cleanup_total.
Qed.

(** The [bring] that Admin1 sent without a timestamp at instant 1000 is
    returned to the poller B at instant 1000000000, by both servers, and
    the cleanup at instant 300000 removes it. *)
Lemma C9_missing_timestamp_witness :
  (∃ found,
     Server.get_commands (H := Props.digits_runtime) Examples.cfg_open
       1000000000 (Examples.poll "s1" "B") Examples.admin1_sent_untimed_bring
     = (Server.CommandList found (length found),
        Examples.admin1_sent_untimed_bring)
     ∧ Examples.untimed_bring_record ∈ found)
  ∧ (∃ cleaned,
       Server.cleanup (H := Props.digits_runtime) 300000
         Examples.admin1_sent_untimed_bring = JS.Normal cleaned
       ∧ Examples.untimed_bring_record ∉ Server.commands cleaned)
  ∧ (∃ found,
       Legacy.get_commands (H := Props.digits_runtime) Examples.cfg_open
         1000000000 (Examples.poll "s1" "B") Examples.legacy_two_brings
       = (Legacy.CommandList found (length found), Examples.legacy_two_brings)
       ∧ Examples.legacy_untimed_bring_record ∈ found)
  ∧ ∃ cleaned,
      Legacy.cleanup (H := Props.digits_runtime) 300000
        Examples.legacy_two_brings = JS.Normal cleaned
      ∧ Examples.legacy_untimed_bring_record ∉ Legacy.commands cleaned.
Proof.
  destruct (C9_missing_timestamp (H := Props.digits_runtime) Examples.cfg_open
              1000000000 300000 (Examples.poll "s1" "B"))
    as [Hserver Hlegacy].
  destruct (Hserver Examples.admin1_sent_untimed_bring
              Examples.untimed_bring_record) as (_ & _ & Hpoll & _ & Hprune);
    [left | reflexivity |].
  destruct (Hlegacy Examples.legacy_two_brings
              Examples.legacy_untimed_bring_record)
    as (_ & _ & Hpoll' & _ & Hprune');
    [right; left | reflexivity |].
  split_and!.
  - apply Hpoll; [reflexivity | reflexivity | discriminate | |].
    + apply ServerProps.admin_broadcast; [reflexivity | |].
      * intros (u & Hu & _). vm_compute in Hu. discriminate Hu.
      * intros (t & _ & Ht & Htruthy). vm_compute in Ht. subst t.
        discriminate Htruthy.
    + repeat constructor.
  - apply Hprune. repeat constructor.
  - apply Hpoll'; [reflexivity | | reflexivity | discriminate | |].
    + repeat constructor; discriminate.
    + intros Hco. discriminate Hco.
    + repeat constructor.
  - apply Hprune'. repeat constructor.
Defined.

(** C10, as the specification states it, fails: a registration whose
    args are the string ["yes"], not an object, is answered as registered,
    and the registry has the sender's entry. *)
Lemma C10_register_bad_args_counterexample :
  JS.typeof_object (Express.body_args Examples.register_with_string_args)
  = false
  ∧ (Server.post_command Examples.cfg_open 1000
       Examples.register_with_string_args Server.initial).1
    = Server.UserRegistered JS.undefined
  ∧ Server.registeredUsers
      (Server.post_command Examples.cfg_open 1000
         Examples.register_with_string_args Server.initial).2
    !! JS.PStr "A"
    = Some {| Server.user_scriptId := JS.VPrim (JS.PStr "s1");
              Server.user_playerId := JS.VPrim (JS.PStr "A");
              Server.user_playerName := JS.VPrim (JS.PStr "Admin1");
              Server.isAuthorized := JS.undefined;
              Server.user_timestamp := 1000 |}
  ∧ Server.registeredUsers Server.initial !! JS.PStr "A" = None.
Proof. split_and!; by vm_compute. Qed.

(** C10, amended. A validated registration whose args are absent or
    [null] is answered with the internal error, and the registry, the
    authorized-name set and the log are left as they were.  With any
    other args, an object or not, the registry and the set are written;
    the registration is then answered as registered, unless the sender's
    name or id is an object that has no conversion to a string: the log
    line that follows the writes throws and the answer is the internal
    error, with the registry and the set as written. *)
Theorem C10_register_bad_args
    (cfg : Express.config) (now : Z) (req : Express.request)
    (st : Server.state) :
  Props.post_validated (Server.validateApiKey cfg req) req = true →
  Express.body_command req = JS.VPrim (JS.PStr "register") →
  (JS.nullish (Express.body_args req) = true →
   Server.post_command cfg now req st = (Server.InternalServerError, st))
  ∧ (JS.nullish (Express.body_args req) = false →
     Server.post_command cfg now req st
     = (if existsb JS.to_string_throws
             [Express.body_playerName req; Express.body_playerId req]
        then Server.InternalServerError
        else Server.UserRegistered
               (JS.property (Express.body_args req) "isAuthorized"),
        ServerProps.registered now req
          (JS.property (Express.body_args req) "isAuthorized") st)).
Proof.
  intros Hv Hreg. rewrite post_command_register by done.
  unfold JS.get_property. split; intros ->; done.
Qed.

(** A registration without args is answered with the internal error and
    changes nothing. *)
Lemma C10_register_bad_args_witness :
  Server.post_command Examples.cfg_open 1000 Examples.register_without_args
    Examples.admin1_sent_bring
  = (Server.InternalServerError, Examples.admin1_sent_bring).
Proof.
  destruct (C10_register_bad_args Examples.cfg_open 1000
              Examples.register_without_args Examples.admin1_sent_bring)
    as [Hthrow _]; [reflexivity | reflexivity |].
  apply Hthrow. reflexivity.
Defined.

(** ** Further properties of the code *)

Section sanitize.
Import JS Eff Express.

Lemma own_property_omap (data : value) (keys : list string) (k : string) :
  own_property
    (omap (λ key,
       match property data key with
       | VPrim PUndefined => None
       | v => Some (key, v)
       end) keys) k
  = if bool_decide (k ∈ keys) then property data k else undefined.
Proof.
  induction keys as [|key keys IH]; [done|].
  change (omap ?f (key :: keys))
    with (match f key with Some y => y :: omap f keys | None => omap f keys end).
  destruct (decide (key = k)) as [->|Hne].
  - rewrite (bool_decide_eq_true_2 (k ∈ k :: keys)) by left.
    destruct (property data k) as [[]| |] eqn:Hk; cbn [own_property];
      rewrite ?String.eqb_refl; try done.
    rewrite IH. by destruct (bool_decide _).
  - assert (bool_decide (k ∈ key :: keys) = bool_decide (k ∈ keys)) as ->.
    { apply bool_decide_ext. rewrite elem_of_cons.
      split; [intros [?|?]; [congruence|done]|by right]. }
    assert (String.eqb key k = false) as Heqb by by apply String.eqb_neq.
    destruct (property data key) as [[]| |]; cbn [own_property];
      rewrite ?Heqb; done.
Qed.

Lemma property_sanitizeCommandData (data : value) (k : string) :
  property (Legacy.sanitizeCommandData data) k
  = if truthy data && bool_decide (k ∈ Legacy.allowedKeys)
    then property data k else undefined.
Proof.
  unfold Legacy.sanitizeCommandData.
  destruct (truthy data); cbn [negb andb]; [|done].
  cbn [property]. apply own_property_omap.
Qed.

Lemma validate_sanitized (data : value) :
  Legacy.validateCoordinatedCommand (Legacy.sanitizeCommandData data)
  = truthy data && truthy (property data "command").
Proof.
  unfold Legacy.validateCoordinatedCommand, Legacy.requiredFields.
  cbn [forallb]. rewrite property_sanitizeCommandData.
  assert (truthy (Legacy.sanitizeCommandData data) = true
          ∧ typeof_object (Legacy.sanitizeCommandData data) = true) as [-> ->].
  { unfold Legacy.sanitizeCommandData. by destruct (negb _). }
  cbn [negb orb]. rewrite andb_true_r.
  rewrite (bool_decide_eq_true_2 ("command" ∈ Legacy.allowedKeys)) by left.
  by destruct (truthy data).
Qed.

End sanitize.

(** X1. The key check, the same function in both servers. When the key
    is not enforced every request passes. When it is enforced, the key
    that counts is the one of the body if it is truthy and the one of the
    query otherwise, and the request passes exactly when that key is the
    configured one: a wrong key in the body is not made up for by the
    right key in the query. *)
Theorem X1_api_key_check (cfg : Express.config) (req : Express.request) :
  Server.validateApiKey cfg req = Legacy.validateApiKey cfg req
  ∧ (Express.REQUIRE_API_KEY cfg = false
     ∨ JS.truthy_prim (Express.API_KEY cfg) = false →
     Server.validateApiKey cfg req = true)
  ∧ (Express.REQUIRE_API_KEY cfg = true →
     JS.truthy_prim (Express.API_KEY cfg) = true →
     (Server.validateApiKey cfg req = true
      ↔ JS.or_else_prim (Express.body_apiKey req) (Express.query_apiKey req)
        = Express.API_KEY cfg)
     ∧ (JS.truthy_prim (Express.body_apiKey req) = true →
        Express.body_apiKey req ≠ Express.API_KEY cfg →
        Server.validateApiKey cfg req = false)
     ∧ (JS.truthy_prim (Express.body_apiKey req) = false →
        (Server.validateApiKey cfg req = true
         ↔ Express.query_apiKey req = Express.API_KEY cfg))).
Proof.
  split; [done|]. unfold Server.validateApiKey. split.
  - by intros [->| ->]; rewrite ?orb_true_r.
  - intros -> ->. cbn [negb orb]. rewrite strict_eq_true. split; [done|].
    unfold JS.or_else_prim. split.
    + intros ->. by apply strict_eq_false.
    + by intros ->.
Qed.

(** With the key ["k1"] enforced, the poll that carries ["wrong"] in its
    body and ["k1"] in its query is refused. *)
Lemma X1_api_key_check_witness :
  Server.validateApiKey MoreExamples.cfg_key MoreExamples.poll_masked_key
  = false
  ∧ Server.validateApiKey Examples.cfg_open MoreExamples.poll_masked_key
    = true.
Proof.
  destruct (X1_api_key_check MoreExamples.cfg_key MoreExamples.poll_masked_key)
    as (_ & _ & Henforced).
  destruct (X1_api_key_check Examples.cfg_open MoreExamples.poll_masked_key)
    as (_ & Hopen & _).
  split.
  - apply Henforced; [reflexivity | reflexivity | reflexivity | discriminate].
  - apply Hopen. left. reflexivity.
Defined.

(** X2. The refusals of the handlers. A request that fails the key check
    is answered 401 by the submission, poll and listing handlers of both
    servers, whatever else it carries, and the stores are left as they
    were. A submission that passes the key check and lacks a truthy
    [scriptId], [playerId] or [command], and a poll that lacks a truthy
    [scriptId] or [playerId], are answered 400 and the stores are left as
    they were. *)
Theorem X2_refusals `{JS.Runtime}
    (cfg : Express.config) (now : Z) (req : Express.request)
    (st : Server.state) (st' : Legacy.state) :
  (Server.validateApiKey cfg req = false →
   Server.post_command cfg now req st = (Server.InvalidApiKey, st)
   ∧ Server.get_commands cfg now req st = (Server.InvalidApiKey, st)
   ∧ Views.get_users cfg req st = Views.UsersInvalidApiKey
   ∧ Legacy.post_command cfg now req st' = (Legacy.InvalidApiKey, st')
   ∧ Legacy.get_commands cfg now req st' = (Legacy.InvalidApiKey, st'))
  ∧ (Server.validateApiKey cfg req = true →
     JS.truthy (Express.body_scriptId req) = false
     ∨ JS.truthy (Express.body_playerId req) = false
     ∨ JS.truthy (Express.body_command req) = false →
     Server.post_command cfg now req st = (Server.MissingRequiredFields, st)
     ∧ Legacy.post_command cfg now req st'
       = (Legacy.MissingRequiredFields, st'))
  ∧ (Server.validateApiKey cfg req = true →
     JS.truthy_prim (Express.query_scriptId req) = false
     ∨ JS.truthy_prim (Express.query_playerId req) = false →
     Server.get_commands cfg now req st = (Server.MissingRequiredFields, st)
     ∧ Legacy.get_commands cfg now req st'
       = (Legacy.MissingRequiredFields, st')).
Proof.
  assert (Legacy.validateApiKey cfg req = Server.validateApiKey cfg req)
    as Hsame by done.
  split_and!.
  - intros Hkey.
    unfold Server.post_command, Server.get_commands, Views.get_users,
      Legacy.post_command, Legacy.get_commands.
    by rewrite Hsame, Hkey.
  - intros Hkey Hmissing.
    assert (Props.post_validated (Server.validateApiKey cfg req) req = false)
      as Hv.
    { unfold Props.post_validated. rewrite Hkey.
      by destruct Hmissing as [->|[->| ->]]; rewrite ?andb_false_r. }
    rewrite post_command_rejected, legacy_post_command_rejected
      by by rewrite ?Hsame.
    by rewrite Hsame, Hkey.
  - intros Hkey Hmissing.
    unfold Server.get_commands, Legacy.get_commands. rewrite Hsame, Hkey.
    by destruct Hmissing as [->| ->]; rewrite ?orb_true_r.
Qed.

(** With the key enforced, the poll with the wrong key is answered 401;
    with no key enforced, the submission without [playerId] is answered
    400. *)
Lemma X2_refusals_witness :
  Server.get_commands (H := Props.digits_runtime) MoreExamples.cfg_key 2000
    MoreExamples.poll_masked_key Examples.admin1_sent_bring
  = (Server.InvalidApiKey, Examples.admin1_sent_bring)
  ∧ Server.post_command Examples.cfg_open 2000
      MoreExamples.bring_without_playerId Examples.admin1_sent_bring
    = (Server.MissingRequiredFields, Examples.admin1_sent_bring).
Proof.
  destruct (X2_refusals (H := Props.digits_runtime) MoreExamples.cfg_key 2000
              MoreExamples.poll_masked_key Examples.admin1_sent_bring
              Legacy.initial) as (Hkey & _ & _).
  destruct (X2_refusals (H := Props.digits_runtime) Examples.cfg_open 2000
              MoreExamples.bring_without_playerId Examples.admin1_sent_bring
              Legacy.initial) as (_ & Hfields & _).
  split.
  - apply Hkey. reflexivity.
  - apply Hfields; [reflexivity|]. right; left. reflexivity.
Defined.

(** X3. A poll does not consume what it returns: in both servers the
    poll handler leaves the stores as they were, whatever its answer, so
    that a poll is answered the same whether or not another poll came
    first. *)
Theorem X3_poll_read_only `{JS.Runtime}
    (cfg : Express.config) (now now' : Z) (req req' : Express.request)
    (st : Server.state) (st' : Legacy.state) :
  (Server.get_commands cfg now req st).2 = st
  ∧ (Legacy.get_commands cfg now req st').2 = st'
  ∧ Server.get_commands cfg now req (Server.get_commands cfg now' req' st).2
    = Server.get_commands cfg now req st
  ∧ Legacy.get_commands cfg now req (Legacy.get_commands cfg now' req' st').2
    = Legacy.get_commands cfg now req st'.
Proof.
  split_and!.
  - apply get_commands_state.
  - apply legacy_get_commands_state.
  - by rewrite get_commands_state.
  - by rewrite legacy_get_commands_state.
Qed.

(** X4. What sanitizing keeps. Reading a key of the sanitized data gives
    the value the data had for it when the data are truthy and the key is
    one of the six allowed, and [undefined] otherwise; every own key of
    the result is an allowed one; and sanitizing twice is sanitizing
    once. The function is the same in both files. *)
Theorem X4_sanitize (data : JS.value) :
  Server.sanitizeCommandData data = Legacy.sanitizeCommandData data
  ∧ (∀ k,
       JS.property (Legacy.sanitizeCommandData data) k
       = if JS.truthy data && bool_decide (k ∈ Legacy.allowedKeys)
         then JS.property data k else JS.undefined)
  ∧ (∃ props,
       Legacy.sanitizeCommandData data = JS.VObj props
       ∧ ∀ k v, (k, v) ∈ props → k ∈ Legacy.allowedKeys)
  ∧ Legacy.sanitizeCommandData (Legacy.sanitizeCommandData data)
    = Legacy.sanitizeCommandData data.
Proof.
  split; [done|]. split; [apply property_sanitizeCommandData|]. split.
  - destruct (sanitizeCommandData_props data) as (props & Hsan & Hprops).
    exists props. split; [done|]. by intros k v (_ & ? & _)%Hprops.
  - destruct (JS.truthy data) eqn:Ht.
    + unfold Legacy.sanitizeCommandData at 1 3. rewrite Ht.
      assert (JS.truthy (Legacy.sanitizeCommandData data) = true) as ->.
      { unfold Legacy.sanitizeCommandData. by rewrite Ht. }
      cbn [negb]. f_equal. apply list_omap_ext, Forall2_same_length_lookup.
      split; [done|]. intros i k k' Hk Hk'. simplify_eq.
      rewrite property_sanitizeCommandData, Ht.
      rewrite (bool_decide_eq_true_2 (k ∈ Legacy.allowedKeys))
        by by eapply list_elem_of_lookup_2.
      done.
    + unfold Legacy.sanitizeCommandData. by rewrite Ht.
Qed.

(** X5. In the flat variant a validated [coordinated] submission is
    answered 400, with the log left as it was, exactly when its args are
    falsy or carry no truthy [command]; any other coordinated submission
    pushes its record. *)
Theorem X5_coordinated_validation
    (cfg : Express.config) (now : Z) (req : Express.request)
    (st : Legacy.state) :
  Props.post_validated (Legacy.validateApiKey cfg req) req = true →
  Express.body_command req = JS.VPrim (JS.PStr "coordinated") →
  ((Legacy.post_command cfg now req st).1 = Legacy.InvalidCoordinatedCommandData
   ↔ JS.truthy (Express.body_args req) = false
     ∨ JS.truthy (JS.property (Express.body_args req) "command") = false)
  ∧ ((Legacy.post_command cfg now req st).1
     = Legacy.InvalidCoordinatedCommandData →
     (Legacy.post_command cfg now req st).2 = st)
  ∧ ((Legacy.post_command cfg now req st).1
     ≠ Legacy.InvalidCoordinatedCommandData →
     last (Legacy.commands (Legacy.post_command cfg now req st).2)
     = Some (Legacy.coordinatedCommandObj now req
               (Legacy.sanitizeCommandData (Express.body_args req)))).
Proof.
  intros Hv Hco. rewrite legacy_post_command_coordinated by done.
  cbn zeta. rewrite validate_sanitized.
  assert (LegacyProps.created now req
          = Legacy.coordinatedCommandObj now req
              (Legacy.sanitizeCommandData (Express.body_args req))) as Hcreated.
  { unfold LegacyProps.created. by rewrite Hco. }
  rewrite Hcreated.
  destruct (JS.truthy (Express.body_args req)); cbn [andb negb];
    [destruct (JS.truthy (JS.property _ "command")); cbn [negb]|].
  - destruct (LegacyProps.coordinated_log_throws _ _); simpl.
    + split_and!; [split; [done|by intros [|]]|done|]. intros _. apply last_snoc.
    + split_and!; [split; [done|by intros [|]]|done|]. intros _.
      apply last_slice_last. lia.
  - split_and!; [split; [by right|done]|done..].
  - split_and!; [split; [by left|done]|done..].
Qed.

(** The coordinated command without [args.command] is answered 400 and
    stores nothing. *)
Lemma X5_coordinated_validation_witness :
  Legacy.post_command Examples.cfg_open 1000
    MoreExamples.coordinated_without_command Examples.legacy_two_brings
  = (Legacy.InvalidCoordinatedCommandData, Examples.legacy_two_brings).
Proof.
  destruct (X5_coordinated_validation Examples.cfg_open 1000
              MoreExamples.coordinated_without_command
              Examples.legacy_two_brings) as (Hiff & Hsame & _);
    [reflexivity | reflexivity |].
  assert ((Legacy.post_command Examples.cfg_open 1000
             MoreExamples.coordinated_without_command
             Examples.legacy_two_brings).1
          = Legacy.InvalidCoordinatedCommandData) as Hans.
  { apply Hiff. right. reflexivity. }
  apply injective_projections; [exact Hans | exact (Hsame Hans)].
Defined.

Section windows.
Context `{JS.Runtime}.
Import JS Eff Express Props.

Lemma filter_sublist_mono {A} (P Q : A → Prop)
    `{!∀ x, Decision (P x), !∀ x, Decision (Q x)} (l : list A) :
  (∀ x, P x → Q x) → filter P l `sublist_of` filter Q l.
Proof.
  intros HPQ. rewrite <- (list_filter_filter_l P Q) by done.
  apply sublist_filter.
Qed.

(** The cleanup either finds every timestamp convertible and keeps the
    records whose timestamp is a number after the cutoff, or throws. *)
Lemma cleanup_cases now st :
  (ServerProps.timestamps_convertible st
   ∧ Server.cleanup now st
     = Normal (Server.commands_assign
         (filter (λ cmd, value_gt (Server.timestamp cmd) (now - 300000)
                         = Normal true) (Server.commands st)) st))
  ∨ (¬ ServerProps.timestamps_convertible st ∧ Server.cleanup now st = Throw).
Proof.
  destruct (Server.cleanup now st) as [cleaned|] eqn:Hc.
  - left. apply cleanup_Normal in Hc as [-> Hconv]. done.
  - right. split; [|done]. intros Hconv.
    by rewrite cleanup_total in Hc by done.
Qed.

Lemma legacy_cleanup_cases now st :
  (LegacyProps.timestamps_convertible st
   ∧ Legacy.cleanup now st
     = Normal (Legacy.commands_assign
         (filter (λ cmd, value_gt (Legacy.timestamp cmd) (now - 300000)
                         = Normal true) (Legacy.commands st)) st))
  ∨ (¬ LegacyProps.timestamps_convertible st ∧ Legacy.cleanup now st = Throw).
Proof.
  destruct (Legacy.cleanup now st) as [cleaned|] eqn:Hc.
  - left. apply legacy_cleanup_Normal in Hc as [-> Hconv]. done.
  - right. split; [|done]. intros Hconv.
    by rewrite legacy_cleanup_total in Hc by done.
Qed.

Lemma value_gt_both (ts : value) (c c' : Z) :
  value_gt ts c = Normal true ∧ value_gt ts c' = Normal true
  ↔ value_gt ts (c `max` c') = Normal true.
Proof.
  rewrite !value_gt_number. split.
  - intros [(n & Hn & Hlt) (n' & Hn' & Hlt')].
    assert (n' = n) as -> by congruence. exists n. split; [done|lia].
  - intros (n & Hn & Hlt). split; exists n; (split; [done|lia]).
Qed.

End windows.

(** X6. The targeting of the flat variant knows no roles. On a log the
    server has built, for a record of the log with the poll's scriptId,
    another sender and a timestamp that passes the recency test, a
    validated poll that is answered with a list returns the record to
    every poller when it is a regular command, or a coordinated one whose
    [targetAlts] is falsy; a coordinated record with a truthy
    [targetAlts] is returned exactly when [targetAlts] is ["all"] or the
    poller's id.  The poll is answered with a list when every timestamp
    of the log has a conversion to a number, and with the internal error
    exactly when the log holds a record of the poller's script, sent by
    another player, whose timestamp has none. *)
Theorem X6_legacy_targeting `{JS.Runtime}
    (cfg : Express.config) (now : Z) (req : Express.request)
    (st : Legacy.state) (cmd : Legacy.commandObj) :
  Props.poll_validated (Legacy.validateApiKey cfg req) req = true →
  LegacyProps.args_present st →
  cmd ∈ Legacy.commands st →
  Legacy.scriptId cmd = JS.VPrim (Express.query_scriptId req) →
  Legacy.playerId cmd ≠ JS.VPrim (Express.query_playerId req) →
  JS.value_lt (Legacy.timestamp cmd) (now - 30000) = JS.Normal false →
  (∀ found n,
     (Legacy.get_commands cfg now req st).1 = Legacy.CommandList found n →
     Legacy.get_commands cfg now req st
     = (Legacy.CommandList found (length found), st)
     ∧ (Legacy.isCoordinated cmd = false → cmd ∈ found)
     ∧ (Legacy.isCoordinated cmd = true →
        JS.truthy (JS.property (Legacy.args cmd) "targetAlts") = false →
        cmd ∈ found)
     ∧ (Legacy.isCoordinated cmd = true →
        JS.truthy (JS.property (Legacy.args cmd) "targetAlts") = true →
        (cmd ∈ found
         ↔ JS.property (Legacy.args cmd) "targetAlts" = JS.VPrim (JS.PStr "all")
           ∨ JS.property (Legacy.args cmd) "targetAlts"
             = JS.VPrim (Express.query_playerId req))))
  ∧ (LegacyProps.timestamps_convertible st →
     ∃ found,
       Legacy.get_commands cfg now req st
       = (Legacy.CommandList found (length found), st))
  ∧ ((Legacy.get_commands cfg now req st).1 = Legacy.InternalServerError
     ↔ ∃ other,
         other ∈ Legacy.commands st
         ∧ Legacy.scriptId other = JS.VPrim (Express.query_scriptId req)
         ∧ Legacy.playerId other ≠ JS.VPrim (Express.query_playerId req)
         ∧ JS.to_string_throws (Legacy.timestamp other) = true).
Proof.
  intros Hv Hargs Hin Hs Hp Hrecent.
  assert (∀ c, c ∈ Legacy.commands st →
               Legacy.isCoordinated c = true → JS.nullish (Legacy.args c) = false)
    as Hreadable.
  { unfold LegacyProps.args_present in Hargs. rewrite Forall_forall in Hargs.
    done. }
  split_and!.
  - intros found n Hget. pose proof Hget as ->%legacy_get_commands_list.
    split.
    { rewrite legacy_get_commands_validated in Hget |- * by done.
      destruct (Eff.filter_cb _ _) as [kept|] eqn:Hkept; [|done].
      by apply filter_cb_Normal in Hkept as [-> _]. }
    assert (∀ P : Prop, (P ↔ LegacyProps.target_allows req cmd) →
            (cmd ∈ filter (λ c, Legacy.visible now req c = JS.Normal true)
                     (Legacy.commands st) ↔ P)) as Hiff.
    { intros P HP. rewrite list_elem_of_filter, legacy_visible_true.
      specialize (Hreadable cmd Hin). tauto. }
    unfold LegacyProps.target_allows in Hiff. split_and!.
    + intros Hco. apply (Hiff True); [|done]. split; [|done]. congruence.
    + intros Hco Hfalsy. apply (Hiff True); [|done]. split; [|done]. congruence.
    + intros Hco Htruthy. apply Hiff. split; auto.
  - intros Hconv. rewrite legacy_get_commands_total by done. eauto.
  - rewrite legacy_get_commands_validated by done. cbn [fst].
    assert (Eff.filter_cb (Legacy.visible now req) (Legacy.commands st) = JS.Throw
            ↔ ∃ other,
                other ∈ Legacy.commands st
                ∧ Legacy.scriptId other = JS.VPrim (Express.query_scriptId req)
                ∧ Legacy.playerId other ≠ JS.VPrim (Express.query_playerId req)
                ∧ JS.to_string_throws (Legacy.timestamp other) = true) as <-.
    { rewrite filter_cb_Throw, Exists_exists.
      split; intros (other & Hother & Hthrow); exists other; split; try done.
      - apply legacy_visible_Throw in Hthrow; [done|]. by apply Hreadable.
      - apply legacy_visible_Throw; [|done]. by apply Hreadable. }
    by destruct (Eff.filter_cb _ _).
Qed.

(** The coordinated command for B is returned to the poller B and to no
    other poller. *)
Lemma X6_legacy_targeting_witness :
  Legacy.get_commands (H := Props.digits_runtime) Examples.cfg_open 2000
    (Examples.poll "s1" "B") MoreExamples.legacy_coordinated_for_B
  = (Legacy.CommandList [LegacyProps.created 1000 MoreExamples.coordinated_for_B] 1,
     MoreExamples.legacy_coordinated_for_B)
  ∧ Legacy.get_commands (H := Props.digits_runtime) Examples.cfg_open 2000
      (Examples.poll "s1" "C") MoreExamples.legacy_coordinated_for_B
    = (Legacy.CommandList [] 0, MoreExamples.legacy_coordinated_for_B)
  ∧ LegacyProps.created 1000 MoreExamples.coordinated_for_B
    ∈ [LegacyProps.created 1000 MoreExamples.coordinated_for_B].
Proof.
  assert (LegacyProps.args_present MoreExamples.legacy_coordinated_for_B)
    as Hargs by (repeat constructor).
  destruct (X6_legacy_targeting (H := Props.digits_runtime) Examples.cfg_open
              2000 (Examples.poll "s1" "B")
              MoreExamples.legacy_coordinated_for_B
              (LegacyProps.created 1000 MoreExamples.coordinated_for_B))
    as (Hlist & _ & _);
    [reflexivity | exact Hargs | left | reflexivity | discriminate
    | reflexivity |].
  destruct (Hlist [LegacyProps.created 1000 MoreExamples.coordinated_for_B] 1
              eq_refl) as (Hget & _ & _ & Htarget).
  split_and!; [exact Hget | reflexivity |].
  apply Htarget; [reflexivity | reflexivity |]. right. reflexivity.
Defined.

(** X7. Delivery. When the role-aware server accepts a command and a
    validated poll of the same scriptId then comes from another sender,
    at an instant for which the command's timestamp passes the recency
    test, from a poller the role-target rule allows, the poll, whenever
    it is answered with a list, returns the command, and returns it last:
    the newest record of the log is the last of the answer.  The poll is
    answered with a list when every timestamp of the log has a conversion
    to a number. *)
Theorem X7_submit_then_poll `{JS.Runtime}
    (cfg : Express.config) (now later : Z) (sub req : Express.request)
    (st : Server.state) :
  ServerProps.command_accepted (Server.post_command cfg now sub st).1 →
  Props.poll_validated (Server.validateApiKey cfg req) req = true →
  Express.body_scriptId sub = JS.VPrim (Express.query_scriptId req) →
  Express.body_playerId sub ≠ JS.VPrim (Express.query_playerId req) →
  JS.value_lt (Express.body_timestamp sub) (later - 30000) = JS.Normal false →
  ServerProps.role_target_allows st req (ServerProps.created st now sub) →
  (∀ found n,
     (Server.get_commands cfg later req (Server.post_command cfg now sub st).2).1
     = Server.CommandList found n →
     last found = Some (ServerProps.created st now sub))
  ∧ (ServerProps.timestamps_convertible (Server.post_command cfg now sub st).2 →
     ∃ found,
       Server.get_commands cfg later req (Server.post_command cfg now sub st).2
       = (Server.CommandList found (length found),
          (Server.post_command cfg now sub st).2)
       ∧ last found = Some (ServerProps.created st now sub)).
Proof.
  intros Hacc Hpoll Hs Hp Hrecent Hrole.
  apply post_command_accepted_inv in Hacc as [_ Hst].
  assert (∀ found,
            Server.filteredCommands later req (Server.post_command cfg now sub st).2
            = JS.Normal found →
            last found = Some (ServerProps.created st now sub)) as Hlast.
  { intros found Hfound. rewrite Hst in Hfound.
    unfold Server.filteredCommands in Hfound.
    apply filter_cb_Normal in Hfound as [-> _].
    cbn [Server.commands Server.registeredUsers Server.commands_assign].
    unfold Eff.slice_last. rewrite length_app. cbn [length].
    rewrite drop_app_le by lia. rewrite filter_app, filter_cons_True.
    { rewrite filter_nil. apply last_snoc. }
    apply visible_true. split_and!; [| | |].
    - unfold ServerProps.created. by destruct (Server.authorizedUsers_has _ _).
    - unfold ServerProps.created. by destruct (Server.authorizedUsers_has _ _).
    - unfold ServerProps.created. by destruct (Server.authorizedUsers_has _ _).
    - destruct Hrole as [? Hnot ?|t ? Hnot ? Ht|? Hadmin].
      + by apply ServerProps.admin_broadcast.
      + by eapply ServerProps.admin_targeted.
      + by apply ServerProps.alt_to_admin. }
  split.
  - intros found n (_ & Hfound & _)%get_commands_list. by apply Hlast.
  - intros Hconv. rewrite get_commands_validated by done.
    rewrite filteredCommands_total by done. eexists. split; [done|].
    apply Hlast. by apply filteredCommands_total.
Qed.

(** Admin1, registered as an admin, sends [bring]: the unregistered
    poller B receives it, last. *)
Lemma X7_submit_then_poll_witness :
  ∃ found,
    Server.get_commands (H := Props.digits_runtime) Examples.cfg_open 2000
      (Examples.poll "s1" "B")
      (Server.post_command Examples.cfg_open 1000 Examples.bring_from_Admin1
         Examples.admin1_registered).2
    = (Server.CommandList found (length found),
       (Server.post_command Examples.cfg_open 1000 Examples.bring_from_Admin1
          Examples.admin1_registered).2)
    ∧ last found = Some Examples.bring_record.
Proof.
  destruct (X7_submit_then_poll (H := Props.digits_runtime) Examples.cfg_open
              1000 2000 Examples.bring_from_Admin1 (Examples.poll "s1" "B")
              Examples.admin1_registered) as [_ Hanswered];
    [exact I | reflexivity | reflexivity | discriminate | reflexivity | |].
  - apply ServerProps.admin_broadcast; [reflexivity | |].
    + intros (u & Hu & _). vm_compute in Hu. discriminate Hu.
    + intros (t & _ & Ht & Htruthy). vm_compute in Ht. subst t.
      discriminate Htruthy.
  - apply Hanswered. repeat constructor.
Defined.

(** X8. The cleanup never takes away a record that can still be polled
    and has a numeric timestamp. For a cleanup that ran to its end less
    than 270 seconds after the poll instant (in particular at the poll
    instant or before it), what the role-aware server returns to a poll
    after the cleanup is what it returned before, less the records whose
    timestamp does not convert to a number. *)
Theorem X8_poll_after_cleanup `{JS.Runtime}
    (cfg : Express.config) (pollInstant pruneInstant : Z)
    (req : Express.request) (st cleaned : Server.state) :
  Server.cleanup pruneInstant st = JS.Normal cleaned →
  (pruneInstant < pollInstant + 270000)%Z →
  Server.filteredCommands pollInstant req cleaned
  = filter (λ cmd, Invariants.numeric (Server.timestamp cmd))
      <$> Server.filteredCommands pollInstant req st
  ∧ (Server.get_commands cfg pollInstant req cleaned).1
    = match (Server.get_commands cfg pollInstant req st).1 with
      | Server.CommandList found _ =>
          let kept :=
            filter (λ cmd, Invariants.numeric (Server.timestamp cmd)) found in
          Server.CommandList kept (length kept)
      | refusal => refusal
      end.
Proof.
  intros [-> Hconv]%cleanup_Normal Hsoon.
  set (cleaned := Server.commands_assign _ st).
  assert (ServerProps.timestamps_convertible cleaned) as Hconv'.
  { eapply Forall_of_sublist; [exact Hconv|apply sublist_filter]. }
  assert (Server.filteredCommands pollInstant req cleaned
          = filter (λ cmd, Invariants.numeric (Server.timestamp cmd))
              <$> Server.filteredCommands pollInstant req st) as Heq.
  { rewrite !filteredCommands_total by done. cbn [fmap JS.completion_fmap].
    f_equal. subst cleaned.
    cbn [Server.commands Server.registeredUsers Server.commands_assign].
    rewrite !list_filter_filter. apply list_filter_iff. intros cmd.
    rewrite visible_true. split.
    - intros (Hvisible & Hgt). split; [by eapply value_gt_numeric|done].
    - intros (Hnum & Hs & Hp & Hrecent & Hrole). split; [done|].
      eapply value_lt_false_gt; [|done..]. lia. }
  split; [done|].
  destruct (Props.poll_validated (Server.validateApiKey cfg req) req) eqn:Hv.
  - rewrite !get_commands_validated by done. cbn [fst]. rewrite Heq.
    by destruct (Server.filteredCommands pollInstant req st).
  - rewrite !get_commands_refused by done. cbn [fst].
    by destruct (Server.validateApiKey cfg req).
Qed.

(** A cleanup at the poll instant 2000 leaves the [bring] stamped 1000 in
    the answer to the poller B. *)
Lemma X8_poll_after_cleanup_witness :
  ∃ cleaned,
    Server.cleanup (H := Props.digits_runtime) 2000 Examples.admin1_sent_bring
    = JS.Normal cleaned
    ∧ Server.filteredCommands (H := Props.digits_runtime) 2000
        (Examples.poll "s1" "B") cleaned
      = JS.Normal [Examples.bring_record].
Proof.
  exists (Server.commands_assign [Examples.bring_record]
            Examples.admin1_sent_bring).
  split; [reflexivity|].
  destruct (X8_poll_after_cleanup (H := Props.digits_runtime) Examples.cfg_open
              2000 2000 (Examples.poll "s1" "B") Examples.admin1_sent_bring
              (Server.commands_assign [Examples.bring_record]
                 Examples.admin1_sent_bring))
    as [Heq _]; [reflexivity | reflexivity |].
  rewrite Heq. reflexivity.
Defined.

(** X9. Cleanups compose. In both servers, a cleanup after a cleanup
    has the outcome of one cleanup at the later of the two instants (the
    same log, or the same uncaught exception), so that a cleanup repeated
    at the same instant changes nothing; a cleanup that runs to its end
    never makes the log longer; and in the role-aware server it leaves
    the registry and the authorized-name set as they were. *)
Theorem X9_cleanup_compose `{JS.Runtime}
    (t t' : Z) (st : Server.state) (st' : Legacy.state) :
  (Server.cleanup t' st ≫= Server.cleanup t) = Server.cleanup (t `max` t') st
  ∧ (Server.cleanup t st ≫= Server.cleanup t) = Server.cleanup t st
  ∧ (∀ cleaned,
       Server.cleanup t st = JS.Normal cleaned →
       length (Server.commands cleaned) ≤ length (Server.commands st)
       ∧ Server.registeredUsers cleaned = Server.registeredUsers st
       ∧ Server.authorizedUsers cleaned = Server.authorizedUsers st)
  ∧ (Legacy.cleanup t' st' ≫= Legacy.cleanup t) = Legacy.cleanup (t `max` t') st'
  ∧ (Legacy.cleanup t st' ≫= Legacy.cleanup t) = Legacy.cleanup t st'
  ∧ (∀ cleaned,
       Legacy.cleanup t st' = JS.Normal cleaned →
       length (Legacy.commands cleaned) ≤ length (Legacy.commands st')).
Proof.
  assert (∀ a b, (Server.cleanup b st ≫= Server.cleanup a)
                 = Server.cleanup (a `max` b) st) as Hserver.
  { intros a b.
    destruct (cleanup_cases b st) as [[Hconv ->]|[Hno ->]];
      destruct (cleanup_cases (a `max` b) st) as [[Hconv' ->]|[Hno' ->]];
      try done.
    cbn [mbind JS.completion_bind].
    rewrite cleanup_total
      by (eapply Forall_of_sublist; [exact Hconv|apply sublist_filter]).
    unfold Server.commands_assign.
    cbn [Server.commands Server.registeredUsers Server.authorizedUsers
         Server.objectKeyedUsers Server.objectNames].
    do 2 f_equal. rewrite list_filter_filter. apply list_filter_iff. intros cmd.
    replace (a `max` b - 300000)%Z with ((a - 300000) `max` (b - 300000))%Z
      by lia.
    apply value_gt_both. }
  assert (∀ a b, (Legacy.cleanup b st' ≫= Legacy.cleanup a)
                 = Legacy.cleanup (a `max` b) st') as Hlegacy.
  { intros a b.
    destruct (legacy_cleanup_cases b st') as [[Hconv ->]|[Hno ->]];
      destruct (legacy_cleanup_cases (a `max` b) st') as [[Hconv' ->]|[Hno' ->]];
      try done.
    cbn [mbind JS.completion_bind].
    rewrite legacy_cleanup_total
      by (eapply Forall_of_sublist; [exact Hconv|apply sublist_filter]).
    unfold Legacy.commands_assign. cbn [Legacy.commands].
    do 2 f_equal. rewrite list_filter_filter. apply list_filter_iff. intros cmd.
    replace (a `max` b - 300000)%Z with ((a - 300000) `max` (b - 300000))%Z
      by lia.
    apply value_gt_both. }
  split_and!; [apply Hserver | | | apply Hlegacy | |].
  - rewrite Hserver. by rewrite Z.max_id.
  - intros cleaned [-> _]%cleanup_Normal. split; [apply length_filter|done].
  - rewrite Hlegacy. by rewrite Z.max_id.
  - intros cleaned [-> _]%legacy_cleanup_Normal. apply length_filter.
Qed.

(** X10. Once expired, always expired. On the same log a later poll that
    is answered with a list returns a sublist of what an earlier poll
    returns, in both servers: time alone never makes a record visible.
    And in the role-aware server the filter of the later poll throws
    exactly when the filter of the earlier poll does. *)
Theorem X10_expiry_is_final `{JS.Runtime}
    (cfg : Express.config) (earlier later : Z) (req : Express.request)
    (st : Server.state) (st' : Legacy.state) :
  (earlier ≤ later)%Z →
  (∀ found found',
     Server.filteredCommands earlier req st = JS.Normal found →
     Server.filteredCommands later req st = JS.Normal found' →
     found' `sublist_of` found)
  ∧ (Server.filteredCommands later req st = JS.Throw
     ↔ Server.filteredCommands earlier req st = JS.Throw)
  ∧ ∀ found found' n n',
      (Legacy.get_commands cfg earlier req st').1
      = Legacy.CommandList found n →
      (Legacy.get_commands cfg later req st').1
      = Legacy.CommandList found' n' →
      found' `sublist_of` found.
Proof.
  intros Hle. split_and!.
  - unfold Server.filteredCommands.
    intros found found' [-> _]%filter_cb_Normal [-> _]%filter_cb_Normal.
    apply filter_sublist_mono.
    intros cmd. rewrite !visible_true.
    intros (Hs & Hp & Hrecent & Hrole). split_and!; [done..| |done].
    eapply value_lt_mono; [|done]. lia.
  - by rewrite !filteredCommands_Throw.
  - intros found found' n n' ->%legacy_get_commands_list
      ->%legacy_get_commands_list.
    apply filter_sublist_mono.
    intros cmd. rewrite !legacy_visible_true.
    intros (Hs & Hp & Hrecent & Hargs & Htarget). split_and!; [done..| |done|done].
    eapply value_lt_mono; [|done]. lia.
Qed.

(** The poller B receives [bring] at instant 2000 and no longer at
    instant 40000. *)
Lemma X10_expiry_is_final_witness :
  [] `sublist_of` [Examples.bring_record]
  ∧ Server.filteredCommands (H := Props.digits_runtime) 2000
      (Examples.poll "s1" "B") Examples.admin1_sent_bring
    = JS.Normal [Examples.bring_record]
  ∧ Server.filteredCommands (H := Props.digits_runtime) 40000
      (Examples.poll "s1" "B") Examples.admin1_sent_bring
    = JS.Normal [].
Proof.
  destruct (X10_expiry_is_final (H := Props.digits_runtime) Examples.cfg_open
              2000 40000 (Examples.poll "s1" "B") Examples.admin1_sent_bring
              Legacy.initial) as (Hserver & _ & _); [discriminate|].
  split_and!; [|reflexivity..].
  apply (Hserver [Examples.bring_record] []); reflexivity.
Defined.

Section registry.
Context `{JS.Runtime}.
Import JS Eff Express Props Server ServerProps.

Lemma post_command_registered_inv cfg now req st v :
  (post_command cfg now req st).1 = UserRegistered v →
  post_validated (validateApiKey cfg req) req = true
  ∧ body_command req = VPrim (PStr "register")
  ∧ get_property (body_args req) "isAuthorized" = Normal v
  ∧ (post_command cfg now req st).2 = registered now req v st.
Proof.
  destruct (post_validated (validateApiKey cfg req) req) eqn:Hv.
  - destruct (decide (body_command req = VPrim (PStr "register"))) as [Hreg|Hreg].
    + rewrite post_command_register by done.
      destruct (get_property _ _) as [v'|]; [|done]. cbn [fst snd].
      destruct (existsb to_string_throws _); [done|]. by intros [= ->].
    + rewrite post_command_append by done.
      by destruct (authorizedUsers_has _ _), (existsb to_string_throws _).
  - rewrite post_command_rejected by done. simpl.
    by destruct (validateApiKey cfg req).
Qed.

(** What a submission does to the registry and to the set: nothing, or
    the writes of a registration. *)
Lemma post_command_registry cfg now req st :
  (registeredUsers (post_command cfg now req st).2 = registeredUsers st
   ∧ authorizedUsers (post_command cfg now req st).2 = authorizedUsers st
   ∧ objectKeyedUsers (post_command cfg now req st).2 = objectKeyedUsers st
   ∧ objectNames (post_command cfg now req st).2 = objectNames st)
  ∨ (truthy (body_playerId req) = true
     ∧ ∃ v, (post_command cfg now req st).2 = registered now req v st).
Proof.
  destruct (decide (body_command req = VPrim (PStr "register"))) as [Hreg|Hreg].
  - destruct (post_validated (validateApiKey cfg req) req) eqn:Hv.
    + rewrite post_command_register by done.
      destruct (get_property _ _) as [v|]; [|by left]. right.
      apply post_validated_true in Hv as (_ & _ & Hid & _). eauto.
    + left. by rewrite post_command_rejected by done.
  - left. by apply post_command_frame.
Qed.

Lemma name_authorized_registered now req v st name :
  Invariants.name_authorized name st →
  Invariants.name_authorized name (registered now req v st).
Proof.
  unfold registered. intros Hname.
  destruct name, (body_playerId req), (truthy v), (body_playerName req);
    simpl in *; try done;
    try (by apply elem_of_union_r);
    apply elem_of_app; by left.
Qed.

Lemma name_authorized_registered_self now req v st :
  truthy v = true →
  Invariants.name_authorized (body_playerName req) (registered now req v st).
Proof.
  unfold registered. intros ->.
  destruct (body_playerId req), (body_playerName req); simpl;
    try (apply elem_of_union_l; by apply elem_of_singleton);
    apply elem_of_app; right; by left.
Qed.

Lemma registered_registry_ok now req v st :
  truthy (body_playerId req) = true →
  Invariants.registry_ok st →
  Invariants.registry_ok (registered now req v st).
Proof.
  intros Hid [Hscalar Hobject].
  set (u := {| user_scriptId := body_scriptId req;
               user_playerId := body_playerId req;
               user_playerName := body_playerName req;
               isAuthorized := v;
               user_timestamp := now |}).
  assert (registeredUsers (registered now req v st)
          = match body_playerId req with
            | VPrim p => <[p := u]> (registeredUsers st)
            | _ => registeredUsers st
            end
          ∧ objectKeyedUsers (registered now req v st)
            = match body_playerId req with
              | VPrim p => objectKeyedUsers st
              | _ => objectKeyedUsers st ++ [u]
              end) as [Hregistry Hkeyed].
  { unfold registered.
    by destruct (body_playerId req), (truthy v), (body_playerName req). }
  assert (truthy (isAuthorized u) = true →
          Invariants.name_authorized (user_playerName u)
            (registered now req v st)) as Hself
    by apply name_authorized_registered_self.
  split.
  - intros id u'. rewrite Hregistry.
    destruct (body_playerId req) as [p| |] eqn:Hp.
    + destruct (decide (p = id)) as [<-|Hne].
      * rewrite lookup_insert_eq. intros [= <-]. by split_and!.
      * rewrite lookup_insert_ne by done. intros Hu.
        destruct (Hscalar id u' Hu) as (? & ? & Hname).
        split_and!; [done..|]. intros Htruthy.
        by apply name_authorized_registered, Hname.
    + intros Hu. destruct (Hscalar id u' Hu) as (? & ? & Hname).
      split_and!; [done..|]. intros Htruthy.
      by apply name_authorized_registered, Hname.
    + intros Hu. destruct (Hscalar id u' Hu) as (? & ? & Hname).
      split_and!; [done..|]. intros Htruthy.
      by apply name_authorized_registered, Hname.
  - rewrite Hkeyed.
    assert (Forall (λ u',
              scalar (user_playerId u') = None
              ∧ (truthy (isAuthorized u') = true →
                 Invariants.name_authorized (user_playerName u')
                   (registered now req v st))) (objectKeyedUsers st)) as Hold.
    { eapply Forall_impl; [exact Hobject|]. intros u' [? Hname].
      split; [done|]. intros Htruthy.
      by apply name_authorized_registered, Hname. }
    destruct (body_playerId req) as [p| |] eqn:Hp; [done|..];
      (apply Forall_app; split; [done|]; apply Forall_singleton;
       split; [by simpl; rewrite ?Hp|done]).
Qed.

Lemma registry_ok_ext st st1 :
  registeredUsers st1 = registeredUsers st →
  authorizedUsers st1 = authorizedUsers st →
  objectKeyedUsers st1 = objectKeyedUsers st →
  objectNames st1 = objectNames st →
  Invariants.registry_ok st → Invariants.registry_ok st1.
Proof.
  intros Hr Ha Hk Hn.
  assert (∀ name, Invariants.name_authorized name st
                  → Invariants.name_authorized name st1) as Hname.
  { intros name. unfold Invariants.name_authorized. by rewrite Ha, Hn. }
  intros [Hscalar Hobject]. split.
  - intros id u. rewrite Hr. intros Hu.
    destruct (Hscalar id u Hu) as (? & ? & ?). split_and!; auto.
  - rewrite Hk. eapply Forall_impl; [exact Hobject|].
    intros u [? ?]. split; auto.
Qed.

Lemma apply_registry_ok cfg e st st1 :
  Invariants.registry_ok st → apply cfg e st = Normal st1 →
  Invariants.registry_ok st1.
Proof.
  intros Hok. destruct e as [now req|now req|now]; simpl.
  - intros [= <-].
    destruct (post_command_registry cfg now req st)
      as [(Hr & Ha & Hk & Hn)|(Hid & v & ->)].
    + by eapply registry_ok_ext.
    + by apply registered_registry_ok.
  - intros [= <-]. by rewrite get_commands_state.
  - intros [-> _]%cleanup_Normal. by eapply registry_ok_ext.
Qed.

Lemma registered_users_grow now req v st :
  Invariants.users_grow st (registered now req v st).
Proof.
  unfold Invariants.users_grow, registered.
  destruct (body_playerId req), (truthy v), (body_playerName req); simpl;
    rewrite ?length_app; simpl;
    split_and!; try done; try lia;
    try apply dom_insert_subseteq; try apply union_subseteq_r.
Qed.

Lemma apply_users_grow cfg e st st1 :
  apply cfg e st = Normal st1 → Invariants.users_grow st st1.
Proof.
  destruct e as [now req|now req|now]; simpl.
  - intros [= <-].
    destruct (post_command_registry cfg now req st)
      as [(Hr & Ha & Hk & Hn)|(Hid & v & ->)].
    + unfold Invariants.users_grow. by rewrite Hr, Ha, Hk, Hn.
    + apply registered_users_grow.
  - intros [= <-]. by rewrite get_commands_state.
  - by intros [-> _]%cleanup_Normal.
Qed.

Lemma run_users_grow cfg es st : Invariants.users_grow st (run cfg es st).
Proof.
  apply (run_invariant (Invariants.users_grow st)); [|done].
  intros e st0 st1 (Hd & Hk & Ha & Hn) (Hd' & Hk' & Ha' & Hn')%apply_users_grow.
  split_and!; [by etrans|lia|by etrans|lia].
Qed.

Lemma created_record_ok cfg now req st :
  pushes cfg req st = true →
  Invariants.server_record_ok (created st now req).
Proof.
  intros (Hv & Hreg & _)%pushes_true.
  apply post_validated_true in Hv as (_ & Hs & Hp & Hc).
  unfold Invariants.server_record_ok, created.
  assert (truthy (or_else (body_args req) (VObj [])) = true) as Hargs.
  { unfold or_else. by destruct (truthy (body_args req)) eqn:Ht. }
  by destruct (authorizedUsers_has _ _).
Qed.

Lemma apply_records_ok cfg e st st1 :
  Forall Invariants.server_record_ok (commands st) →
  apply cfg e st = Normal st1 →
  Forall Invariants.server_record_ok (commands st1).
Proof.
  intros Hok. destruct e as [now req|now req|now]; simpl.
  - intros [= <-].
    destruct (post_command_cases cfg now req st)
      as [(_ & _ & ->)|[(Hpush & _ & _ & ->)|(Hpush & _ & ->)]]; [done|..];
      simpl.
    + apply Forall_app. split; [done|].
      by apply Forall_singleton, (created_record_ok cfg).
    + eapply Forall_of_sublist; [|apply slice_last_sublist].
      apply Forall_app. split; [done|].
      by apply Forall_singleton, (created_record_ok cfg).
  - intros [= <-]. by rewrite get_commands_state.
  - intros [-> _]%cleanup_Normal. simpl.
    eapply Forall_of_sublist; [done|apply sublist_filter].
Qed.

End registry.

(** X11. Registering and looking up. When a registration is answered as
    registered with the value [v] of [args.isAuthorized] and the sender's
    id is a scalar, the registry holds under that id the entry just
    built, every other id keeps its entry, and a poll by that id is
    treated as an admin's exactly when [v] is truthy; when the sender's id
    is an object or an array, no id of the registry changes its entry:
    no poll finds the new one.  The sender's name, when a scalar, is in
    the authorized-name set exactly when [v] is truthy or the name was in
    it before. *)
Theorem X11_register_then_lookup
    (cfg : Express.config) (now : Z) (req : Express.request)
    (st : Server.state) (v : JS.value) :
  (Server.post_command cfg now req st).1 = Server.UserRegistered v →
  (∀ id, Express.body_playerId req = JS.VPrim id →
     Server.registeredUsers (Server.post_command cfg now req st).2 !! id
     = Some {| Server.user_scriptId := Express.body_scriptId req;
               Server.user_playerId := Express.body_playerId req;
               Server.user_playerName := Express.body_playerName req;
               Server.isAuthorized := v;
               Server.user_timestamp := now |}
     ∧ (∀ id', id' ≠ id →
          Server.registeredUsers (Server.post_command cfg now req st).2 !! id'
          = Server.registeredUsers st !! id')
     ∧ (∀ poll, Express.query_playerId poll = id →
          (ServerProps.poller_is_admin (Server.post_command cfg now req st).2 poll
           ↔ JS.truthy v = true)))
  ∧ (JS.scalar (Express.body_playerId req) = None →
     Server.registeredUsers (Server.post_command cfg now req st).2
     = Server.registeredUsers st)
  ∧ (∀ N, Express.body_playerName req = JS.VPrim N →
       (N ∈ Server.authorizedUsers (Server.post_command cfg now req st).2
        ↔ JS.truthy v = true ∨ N ∈ Server.authorizedUsers st)).
Proof.
  intros (Hv & Hreg & Hget & ->)%post_command_registered_inv.
  unfold ServerProps.registered. split_and!.
  - intros id Hid. rewrite Hid.
    assert (∀ st0,
              Server.registeredUsers
                (if JS.truthy v
                 then Server.authorizedUsers_add (Express.body_playerName req) st0
                 else st0) = Server.registeredUsers st0) as Hregistry.
    { intros st0. by destruct (JS.truthy v), (Express.body_playerName req). }
    rewrite Hregistry.
    cbn [Server.registeredUsers Server.registeredUsers_set].
    split_and!.
    + apply lookup_insert_eq.
    + intros id' Hne. by apply lookup_insert_ne.
    + intros poll Hpoll. unfold ServerProps.poller_is_admin.
      rewrite Hregistry. cbn [Server.registeredUsers Server.registeredUsers_set].
      rewrite Hpoll, lookup_insert_eq. split.
      * by intros (u & [= <-] & Htruthy).
      * intros Htruthy. eexists. split; [done|]. exact Htruthy.
  - intros Hobj.
    by destruct (Express.body_playerId req), (JS.truthy v),
      (Express.body_playerName req).
  - intros N ->.
    destruct (JS.truthy v), (Express.body_playerId req); simpl;
      try (split; [by left|]; intros _; by apply elem_of_union_l, elem_of_singleton);
      (split; [by right|]; by intros [|]).
Qed.

(** Admin1 registers as an admin: a poll by A is an admin's, and Admin1
    is authorized. *)
Lemma X11_register_then_lookup_witness :
  ServerProps.poller_is_admin Examples.admin1_registered (Examples.poll "s1" "A")
  ∧ JS.PStr "Admin1" ∈ Server.authorizedUsers Examples.admin1_registered.
Proof.
  destruct (X11_register_then_lookup Examples.cfg_open 900
              Examples.register_Admin1 Server.initial
              (JS.VPrim (JS.PBool true)) eq_refl)
    as (Hid & _ & Hname).
  destruct (Hid (JS.PStr "A") eq_refl) as (_ & _ & Hadmin).
  split.
  - apply (Hadmin (Examples.poll "s1" "A")); reflexivity.
  - apply (Hname (JS.PStr "Admin1") eq_refl). left. reflexivity.
Defined.

(** X12. The registry and the authorized-name set stay coherent.
    Whatever happens to the role-aware server from its start, every entry
    of the registry is stored under its own [playerId], which is truthy,
    and the name of every entry with a truthy [isAuthorized] is in the
    authorized-name set: a poller that receives as an admin also sends
    as an admin under its stored name, when that name is a scalar. (The
    converse fails: see X11, a later registration with a falsy
    [isAuthorized] leaves the name in the set.) *)
Theorem X12_registry_coherent `{JS.Runtime}
    (cfg : Express.config) (es : list Props.event) (req : Express.request) :
  Invariants.registry_ok (ServerProps.run cfg es Server.initial)
  ∧ (ServerProps.poller_is_admin (ServerProps.run cfg es Server.initial) req →
     ∀ name,
       Server.currentUserName
         (Server.registeredUsers (ServerProps.run cfg es Server.initial)
            !! Express.query_playerId req) = JS.VPrim name →
       name ∈ Server.authorizedUsers (ServerProps.run cfg es Server.initial)
       ∧ Server.authorizedUsers_has (JS.VPrim name)
           (ServerProps.run cfg es Server.initial) = true).
Proof.
  assert (Invariants.registry_ok (ServerProps.run cfg es Server.initial))
    as Hok.
  { apply run_invariant.
    - intros e st0 st1. apply apply_registry_ok.
    - split; [|constructor]. intros id u Hu. simpl in Hu.
      by rewrite lookup_empty in Hu. }
  split; [done|]. intros (u & Hu & Htruthy) name. rewrite Hu. simpl.
  intros Hname. destruct Hok as [Hscalar _].
  destruct (Hscalar _ _ Hu) as (_ & _ & Hauthorized).
  specialize (Hauthorized Htruthy). rewrite Hname in Hauthorized.
  split; [done|]. by apply bool_decide_eq_true.
Qed.

(** After Admin1 registered and sent [bring], a poll by A is an admin's
    and the stored name of A is authorized. *)
Lemma X12_registry_coherent_witness :
  JS.PStr "Admin1"
  ∈ Server.authorizedUsers
      (ServerProps.run (H := Props.digits_runtime) Examples.cfg_open
         [Props.Submit 900 Examples.register_Admin1;
          Props.Submit 1000 Examples.bring_from_Admin1] Server.initial).
Proof.
  destruct (X12_registry_coherent (H := Props.digits_runtime) Examples.cfg_open
              [Props.Submit 900 Examples.register_Admin1;
               Props.Submit 1000 Examples.bring_from_Admin1]
              (Examples.poll "s1" "A")) as [_ Hadmin].
  apply (Hadmin ltac:(eexists; split; reflexivity) (JS.PStr "Admin1") eq_refl).
Defined.

(** X13. The counters of the status endpoint. Whatever happens to the
    role-aware server, the number of registered users and the number of
    authorized names it reports never decrease (no entry of the registry
    is ever deleted), and the connected-clients counter is always 0. *)
Theorem X13_status_counters `{JS.Runtime}
    (cfg : Express.config) (es : list Props.event) (st : Server.state) :
  dom (Server.registeredUsers st)
  ⊆ dom (Server.registeredUsers (ServerProps.run cfg es st))
  ∧ Views.registeredUsers_size (Views.get_status st)
    ≤ Views.registeredUsers_size (Views.get_status (ServerProps.run cfg es st))
  ∧ Views.authorizedUsers_size (Views.get_status st)
    ≤ Views.authorizedUsers_size (Views.get_status (ServerProps.run cfg es st))
  ∧ Views.connectedClients (Views.get_status (ServerProps.run cfg es st)) = 0.
Proof.
  destruct (run_users_grow cfg es st) as (Hdom & Hkeyed & Hnames & Hobjects).
  split_and!; [done| | |done].
  - simpl. rewrite <- !size_dom.
    pose proof (subseteq_size _ _ Hdom). lia.
  - simpl. pose proof (subseteq_size _ _ Hnames). lia.
Qed.

(** X14. What the log of the role-aware server holds. Whatever happens
    to the server from its start, every record of the log has a truthy
    [scriptId], [playerId] and [command], a command other than
    [register], truthy args, and [targetAlts] equal to ["all"] on an
    admin command and absent on any other. *)
Theorem X14_log_records `{JS.Runtime}
    (cfg : Express.config) (es : list Props.event) :
  Forall Invariants.server_record_ok
    (Server.commands (ServerProps.run cfg es Server.initial)).
Proof.
  apply (run_invariant
           (λ st, Forall Invariants.server_record_ok (Server.commands st)));
    [|constructor].
  intros e st0 st1. apply apply_records_ok.
Qed.

Section legacy_records.
Context `{JS.Runtime}.
Import JS Eff Express Props Legacy LegacyProps.

Lemma sanitized_truthy (data : value) : truthy (sanitizeCommandData data) = true.
Proof. unfold sanitizeCommandData. by destruct (negb _). Qed.

(** A submission changes the log only by pushing a record that is well
    formed. *)
Lemma legacy_post_command_pushes cfg now req st :
  (post_command cfg now req st).2 = st
  ∨ (Invariants.legacy_record_ok (created now req)
     ∧ ((post_command cfg now req st).2 = commands_push (created now req) st
        ∨ (post_command cfg now req st).2
          = commands_assign
              (slice_last 100 (commands st ++ [created now req])) st)).
Proof.
  destruct (post_validated (validateApiKey cfg req) req) eqn:Hv;
    [|left; by rewrite legacy_post_command_rejected].
  pose proof Hv as (_ & Hs & Hp & Hc)%post_validated_true.
  destruct (decide (body_command req = VPrim (PStr "coordinated"))) as [Hco|Hco].
  - rewrite legacy_post_command_coordinated by done. cbn zeta.
    rewrite validate_sanitized.
    destruct (truthy (body_args req) && truthy (property (body_args req) "command"))
      eqn:Hvalid; cbn [negb]; [|by left].
    apply andb_true_iff in Hvalid as [Hargs Hcommand].
    right. split; [|destruct (coordinated_log_throws _ _); auto].
    unfold Invariants.legacy_record_ok, created. rewrite Hco. simpl.
    split_and!; [done..| |].
    + apply sanitized_truthy.
    + intros _. split.
      * rewrite property_sanitizeCommandData, Hargs. simpl. done.
      * intros k Hk. rewrite property_sanitizeCommandData.
        rewrite (bool_decide_eq_false_2 (k ∈ allowedKeys)) by done.
        by rewrite andb_false_r.
  - rewrite legacy_post_command_regular by done. right.
    split; [|destruct (regular_log_throws req); auto].
    unfold Invariants.legacy_record_ok, created.
    apply strict_eq_val_false in Hco. rewrite Hco. simpl.
    apply strict_eq_val_false in Hco.
    split_and!; [done..| | |done].
    + split; [done|]. intros ?. done.
    + unfold or_else. by destruct (truthy (body_args req)) eqn:Ht.
Qed.

Lemma legacy_apply_records_ok cfg e st st1 :
  Forall Invariants.legacy_record_ok (commands st) →
  apply cfg e st = Normal st1 →
  Forall Invariants.legacy_record_ok (commands st1).
Proof.
  intros Hok. destruct e as [now req|now req|now]; simpl.
  - intros [= <-].
    destruct (legacy_post_command_pushes cfg now req st)
      as [->|[Hcreated [->| ->]]]; [done| |]; simpl.
    + apply Forall_app. split; [done|]. by apply Forall_singleton.
    + eapply Forall_of_sublist; [|apply slice_last_sublist].
      apply Forall_app. split; [done|]. by apply Forall_singleton.
  - intros [= <-]. by rewrite legacy_get_commands_state.
  - intros [-> _]%legacy_cleanup_Normal. simpl.
    eapply Forall_of_sublist; [done|apply sublist_filter].
Qed.

(** On a log whose coordinated records have readable args, the filter of
    a poll throws exactly when the log holds a record of the poller's
    script, sent by another player, whose timestamp has no conversion to
    a number. *)
Lemma legacy_filter_Throw now req st :
  args_present st →
  filter_cb (visible now req) (commands st) = Throw
  ↔ ∃ other,
      other ∈ commands st
      ∧ scriptId other = VPrim (query_scriptId req)
      ∧ playerId other ≠ VPrim (query_playerId req)
      ∧ to_string_throws (timestamp other) = true.
Proof.
  intros Hargs. unfold args_present in Hargs. rewrite Forall_forall in Hargs.
  rewrite filter_cb_Throw, Exists_exists.
  split; intros (other & Hother & Hthrow); exists other; split; try done.
  - apply legacy_visible_Throw in Hthrow; [done|]. by apply Hargs.
  - apply legacy_visible_Throw; [|done]. by apply Hargs.
Qed.

End legacy_records.

(** X15. What the log of the flat variant holds, and when its poll
    fails. Whatever happens to the server from its start, every record
    of the log has a truthy [scriptId], [playerId] and [command], is
    flagged coordinated exactly when its command is ["coordinated"], has
    truthy args, and when coordinated has args with a truthy [command]
    and no key outside the allow list.  The args of a stored record never
    make a poll fail: a validated poll is answered with a list, or with
    the internal error, and with the internal error exactly when the log
    holds a record of the poller's script, sent by another player, whose
    timestamp has no conversion to a number; it is answered with a list
    when every timestamp of the log has one. *)
Theorem X15_legacy_log_and_poll `{JS.Runtime}
    (cfg : Express.config) (es : list Props.event) (now : Z)
    (req : Express.request) :
  Forall Invariants.legacy_record_ok
    (Legacy.commands (LegacyProps.run cfg es Legacy.initial))
  ∧ (Props.poll_validated (Legacy.validateApiKey cfg req) req = true →
     ((∃ found,
         Legacy.get_commands cfg now req (LegacyProps.run cfg es Legacy.initial)
         = (Legacy.CommandList found (length found),
            LegacyProps.run cfg es Legacy.initial))
      ∨ Legacy.get_commands cfg now req (LegacyProps.run cfg es Legacy.initial)
        = (Legacy.InternalServerError, LegacyProps.run cfg es Legacy.initial))
     ∧ ((Legacy.get_commands cfg now req
           (LegacyProps.run cfg es Legacy.initial)).1
        = Legacy.InternalServerError
        ↔ ∃ other,
            other ∈ Legacy.commands (LegacyProps.run cfg es Legacy.initial)
            ∧ Legacy.scriptId other = JS.VPrim (Express.query_scriptId req)
            ∧ Legacy.playerId other ≠ JS.VPrim (Express.query_playerId req)
            ∧ JS.to_string_throws (Legacy.timestamp other) = true)
     ∧ (LegacyProps.timestamps_convertible
          (LegacyProps.run cfg es Legacy.initial) →
        ∃ found,
          Legacy.get_commands cfg now req (LegacyProps.run cfg es Legacy.initial)
          = (Legacy.CommandList found (length found),
             LegacyProps.run cfg es Legacy.initial))).
Proof.
  split.
  - apply (legacy_run_invariant
             (λ st, Forall Invariants.legacy_record_ok (Legacy.commands st)));
      [|constructor].
    intros e st0 st1. apply legacy_apply_records_ok.
  - intros Hv.
    pose proof (legacy_run_args_present cfg es) as Hargs.
    rewrite legacy_get_commands_validated by done. cbn [fst].
    rewrite <- (legacy_filter_Throw now) by done.
    split_and!.
    + destruct (Eff.filter_cb _ _) as [found|]; [left; eauto|by right].
    + by destruct (Eff.filter_cb _ _).
    + intros Hconv.
      pose proof (legacy_get_commands_total cfg now req _ Hv Hargs Hconv) as Hget.
      rewrite legacy_get_commands_validated in Hget by done. eauto.
Qed.

(** After the coordinated command for B was stored, the poll of C is
    answered with the empty list. *)
Lemma X15_legacy_log_and_poll_witness :
  ∃ found,
    Legacy.get_commands (H := Props.digits_runtime) Examples.cfg_open 2000
      (Examples.poll "s1" "C")
      (LegacyProps.run (H := Props.digits_runtime) Examples.cfg_open
         [Props.Submit 1000 MoreExamples.coordinated_for_B] Legacy.initial)
    = (Legacy.CommandList found (length found),
       LegacyProps.run (H := Props.digits_runtime) Examples.cfg_open
         [Props.Submit 1000 MoreExamples.coordinated_for_B] Legacy.initial).
Proof.
  destruct (X15_legacy_log_and_poll (H := Props.digits_runtime)
              Examples.cfg_open
              [Props.Submit 1000 MoreExamples.coordinated_for_B] 2000
              (Examples.poll "s1" "C")) as [_ Hpoll].
  destruct (Hpoll eq_refl) as (_ & _ & Hlist).
  apply Hlist. repeat constructor.
Defined.

(** X16. A trim that is skipped. In the flat variant, a validated
    coordinated submission with truthy args and a truthy [args.command],
    of which [args.command], [args.targetAlts], the sender's name or the
    sender's id cannot be converted to a string (an object with an own
    [toString], or an array holding one), throws in the log lines after
    the push: it is answered 500, and the log is the log before followed
    by the record, not trimmed, so that it holds more than 100 records if
    it held 100. *)
Theorem X16_interrupted_trim
    (cfg : Express.config) (now : Z) (req : Express.request)
    (st : Legacy.state) :
  Props.post_validated (Legacy.validateApiKey cfg req) req = true →
  Express.body_command req = JS.VPrim (JS.PStr "coordinated") →
  JS.truthy (Express.body_args req) = true →
  JS.truthy (JS.property (Express.body_args req) "command") = true →
  JS.to_string_throws (JS.property (Express.body_args req) "command") = true
  ∨ JS.to_string_throws (JS.property (Express.body_args req) "targetAlts")
    = true
  ∨ JS.to_string_throws (Express.body_playerName req) = true
  ∨ JS.to_string_throws (Express.body_playerId req) = true →
  Legacy.post_command cfg now req st
  = (Legacy.InternalServerError,
     {| Legacy.commands :=
          Legacy.commands st
          ++ [Legacy.coordinatedCommandObj now req
                (Legacy.sanitizeCommandData (Express.body_args req))] |})
  ∧ length (Legacy.commands (Legacy.post_command cfg now req st).2)
    = S (length (Legacy.commands st)).
Proof.
  intros Hv Hco Hargs Hcommand Hthrows.
  rewrite legacy_post_command_coordinated by done. cbn zeta.
  rewrite validate_sanitized, Hargs, Hcommand. cbn [andb negb].
  assert (LegacyProps.coordinated_log_throws req
            (Legacy.sanitizeCommandData (Express.body_args req)) = true) as ->.
  { unfold LegacyProps.coordinated_log_throws.
    rewrite !property_sanitizeCommandData, Hargs.
    rewrite (bool_decide_eq_true_2 ("command" ∈ Legacy.allowedKeys)) by left.
    rewrite (bool_decide_eq_true_2 ("targetAlts" ∈ Legacy.allowedKeys))
      by (do 2 right; left).
    cbn [andb existsb].
    destruct Hthrows as [->|[Hthrows|[->| ->]]];
      rewrite ?orb_true_r; [done| |done..].
    apply orb_true_iff. right. unfold JS.or_else.
    destruct (JS.property (Express.body_args req) "targetAlts") as [?| |];
      [done|exact Hthrows..]. }
  unfold LegacyProps.created. rewrite Hco. simpl. split; [done|].
  rewrite length_app. simpl. lia.
Qed.

(** The coordinated command whose [args.command] is an object with an
    own [toString] is answered 500 and its record stays in the log. *)
Lemma X16_interrupted_trim_witness :
  (Legacy.post_command Examples.cfg_open 1000 MoreExamples.coordinated_poisoned
     Examples.legacy_two_brings).1 = Legacy.InternalServerError
  ∧ length (Legacy.commands
              (Legacy.post_command Examples.cfg_open 1000
                 MoreExamples.coordinated_poisoned
                 Examples.legacy_two_brings).2) = 3.
Proof.
  destruct (X16_interrupted_trim Examples.cfg_open 1000
              MoreExamples.coordinated_poisoned Examples.legacy_two_brings)
    as [Hpost Hlength];
    [reflexivity | reflexivity | reflexivity | reflexivity
    | left; reflexivity |].
  split; [by rewrite Hpost | exact Hlength].
Defined.

(** X17. Command ids are instants. In both servers the [commandId] of an
    accepted submission is the decimal rendering of the instant it was
    handled at, and is the id of the record stored last; so two accepted
    submissions get the same id exactly when they are handled at the same
    instant, whoever sent them. *)
Theorem X17_command_ids
    (cfg : Express.config) (now now' : Z) (req req' : Express.request)
    (st st' : Server.state) (id id' : string) :
  MoreProps.commandId (Server.post_command cfg now req st).1 = Some id →
  MoreProps.commandId (Server.post_command cfg now' req' st').1 = Some id' →
  id = pretty now
  ∧ Server.cmdId <$> last (Server.commands (Server.post_command cfg now req st).2)
    = Some id
  ∧ (id = id' ↔ now = now')
  ∧ ∀ (flat : Legacy.state) (flat_id : string),
      MoreProps.legacy_commandId (Legacy.post_command cfg now req flat).1
      = Some flat_id →
      flat_id = pretty now
      ∧ Legacy.cmdId
          <$> last (Legacy.commands (Legacy.post_command cfg now req flat).2)
        = Some flat_id.
Proof.
  assert (∀ t r s i,
            MoreProps.commandId (Server.post_command cfg t r s).1 = Some i →
            i = pretty t
            ∧ ServerProps.command_accepted (Server.post_command cfg t r s).1)
    as Hid.
  { intros t r s i.
    destruct (Props.post_validated (Server.validateApiKey cfg r) r) eqn:Hv.
    - destruct (decide (Express.body_command r = JS.VPrim (JS.PStr "register")))
        as [Hr|Hr].
      + rewrite post_command_register by done.
        destruct (JS.get_property _ _); [|done]. cbn [fst].
        by destruct (existsb JS.to_string_throws _).
      + rewrite post_command_append by done.
        destruct (Server.authorizedUsers_has _ _);
          destruct (existsb JS.to_string_throws _); simpl; try done;
          by intros [= <-].
    - rewrite post_command_rejected by done. simpl.
      by destruct (Server.validateApiKey cfg r). }
  intros [-> Hacc]%Hid [-> _]%Hid. split_and!; [done| | |].
  - rewrite server_stored by done. simpl.
    unfold ServerProps.created. by destruct (Server.authorizedUsers_has _ _).
  - split; [apply (inj pretty)|by intros ->].
  - intros flat flat_id Hflat.
    assert (LegacyProps.command_accepted (Legacy.post_command cfg now req flat).1
            ∧ flat_id = pretty now) as [Hacc' ->].
    { destruct (Props.post_validated (Legacy.validateApiKey cfg req) req) eqn:Hv.
      - destruct (decide (Express.body_command req
                          = JS.VPrim (JS.PStr "coordinated"))) as [Hco|Hco].
        + rewrite legacy_post_command_coordinated in Hflat |- * by done.
          cbn zeta in *.
          destruct (Legacy.validateCoordinatedCommand _); [|done].
          cbn [negb] in *.
          destruct (LegacyProps.coordinated_log_throws _ _); [done|].
          simpl in *. by injection Hflat as <-.
        + rewrite legacy_post_command_regular in Hflat |- * by done.
          destruct (LegacyProps.regular_log_throws _); [done|].
          simpl in *. by injection Hflat as <-.
      - rewrite legacy_post_command_rejected in Hflat by done. simpl in Hflat.
        by destruct (Legacy.validateApiKey cfg req). }
    split; [done|]. rewrite legacy_stored by done. simpl.
    unfold LegacyProps.created. by destruct (JS.strict_eq_val _ _).
Qed.

(** Admin1 and Bob both submit at the instant 1000: both records are
    stored with the id ["1000"]. *)
Lemma X17_command_ids_witness :
  Server.cmdId
    <$> last (Server.commands
                (Server.post_command Examples.cfg_open 1000
                   Examples.bring_from_Admin1 Examples.admin1_registered).2)
  = Some "1000"
  ∧ Server.cmdId
      <$> last (Server.commands
                  (Server.post_command Examples.cfg_open 1000
                     Examples.hello_from_Bob Examples.admin1_sent_bring).2)
    = Some "1000".
Proof.
  destruct (X17_command_ids Examples.cfg_open 1000 1000
              Examples.bring_from_Admin1 Examples.hello_from_Bob
              Examples.admin1_registered Examples.admin1_sent_bring
              "1000" "1000" eq_refl eq_refl) as (_ & Hfirst & _).
  destruct (X17_command_ids Examples.cfg_open 1000 1000
              Examples.hello_from_Bob Examples.bring_from_Admin1
              Examples.admin1_sent_bring Examples.admin1_registered
              "1000" "1000" eq_refl eq_refl) as (_ & Hsecond & _).
  split; [exact Hfirst | exact Hsecond].
Defined.

(** X18. The two roles receive disjoint traffic. In the answer of the
    role-aware server to a validated poll, every record is a command that
    is not an admin command when the poller is an admin, and every record
    is an admin command when the poller is not: a command of a non-admin
    is never delivered to a non-admin, nor an admin command to an admin. *)
Theorem X18_roles_partition `{JS.Runtime}
    (cfg : Express.config) (now : Z) (req : Express.request)
    (st : Server.state) (found : list Server.commandObj) (n : nat) :
  (Server.get_commands cfg now req st).1 = Server.CommandList found n →
  (ServerProps.poller_is_admin st req →
   Forall (λ cmd, Server.isAdminCommand cmd = false) found)
  ∧ (¬ ServerProps.poller_is_admin st req →
     Forall (λ cmd, Server.isAdminCommand cmd = true) found).
Proof.
  intros (_ & Hfound & _)%get_commands_list.
  split; intros Hadmin; apply Forall_forall;
    intros cmd (_ & _ & _ & _ & Hrole)%(elem_of_filteredCommands _ _ _ _ _ Hfound);
    destruct Hrole as [? Hnot _|t ? Hnot _ _|? Hyes]; done.
Qed.

(** The admin A, polling after Bob's [hello], receives it; it is not an
    admin command. *)
Lemma X18_roles_partition_witness :
  Forall (λ cmd, Server.isAdminCommand cmd = false)
    [Examples.hello_record].
Proof.
  destruct (X18_roles_partition (H := Props.digits_runtime) Examples.cfg_open
              2000 (Examples.poll "s1" "A")
              (Server.post_command Examples.cfg_open 1000
                 Examples.hello_from_Bob Examples.admin1_registered).2
              [Examples.hello_record] 1 eq_refl) as [Hadmin _].
  apply Hadmin. eexists. split; reflexivity.
Defined.

Section listing.
Context {A : Type}.

Lemma length_filter_partition (f : A → bool) (l : list A) :
  length (filter (λ x, f x = true) l)
  + length (filter (λ x, negb (f x) = true) l)
  = length l.
Proof.
  induction l as [|x l IH]; [done|].
  destruct (f x) eqn:Hx.
  - rewrite filter_cons_True, filter_cons_False by by rewrite Hx.
    simpl. lia.
  - rewrite filter_cons_False, filter_cons_True by by rewrite Hx.
    simpl. lia.
Qed.

End listing.

(** X19. The listing of the registered users. With a valid key the
    listing holds one item for each entry of the registry (those stored
    under a scalar id and those stored under an object), and no other
    item; its total is the number of registered users that the status
    endpoint reports; and its admin and alt counts add up to the total. *)
Theorem X19_users_listing
    (cfg : Express.config) (req : Express.request) (st : Server.state) :
  Server.validateApiKey cfg req = true →
  ∃ users adminUsers altUsers,
    Views.get_users cfg req st
    = Views.UserList users (length users) adminUsers altUsers
    ∧ length users = Views.registeredUsers_size (Views.get_status st)
    ∧ adminUsers + altUsers = length users
    ∧ ∀ u, u ∈ users ↔
        (∃ id userData,
           Server.registeredUsers st !! id = Some userData
           ∧ u = Views.list_user userData)
        ∨ (∃ userData,
             userData ∈ Server.objectKeyedUsers st
             ∧ u = Views.list_user userData).
Proof.
  intros Hkey. unfold Views.get_users. rewrite Hkey. cbn [negb].
  do 3 eexists. split; [done|]. split_and!.
  - rewrite length_fmap, length_app, length_fmap, length_map_to_list. done.
  - apply (length_filter_partition
             (λ u, JS.truthy (Views.listed_isAuthorized u))).
  - intros u. rewrite list_elem_of_fmap. split.
    + intros (userData & -> & [Hin|Hin]%elem_of_app).
      * apply list_elem_of_fmap in Hin as ([id userData'] & -> & Hin).
        apply elem_of_map_to_list in Hin. left. eauto.
      * right. eauto.
    + intros [(id & userData & Hin & ->)|(userData & Hin & ->)].
      * exists userData. split; [done|]. apply elem_of_app. left.
        apply list_elem_of_fmap. exists (id, userData).
        split; [done|]. by apply elem_of_map_to_list.
      * exists userData. split; [done|]. apply elem_of_app. by right.
Qed.

(** After Admin1 registered, the listing has one user. *)
Lemma X19_users_listing_witness :
  ∃ users adminUsers altUsers,
    Views.get_users Examples.cfg_open (Examples.poll "s1" "B")
      Examples.admin1_registered
    = Views.UserList users (length users) adminUsers altUsers
    ∧ length users = 1
    ∧ adminUsers + altUsers = 1.
Proof.
  destruct (X19_users_listing Examples.cfg_open (Examples.poll "s1" "B")
              Examples.admin1_registered eq_refl)
    as (users & adminUsers & altUsers & Hget & Hsize & Hsum & _).
  exists users, adminUsers, altUsers.
  assert (length users = 1) as Hone by (rewrite Hsize; by vm_compute).
  split_and!; [exact Hget | exact Hone | by rewrite Hsum].
Defined.

(** X20. The base visibility, as the code has it. In both variants a
    poll that is answered with a list is answered with a sublist of the
    log, in log order, and every record of it has the poll's scriptId, a
    sender other than the poller, and a timestamp for which
    [timestamp < pollInstant - 30000] is false: a timestamp that converts
    to a number is at least [pollInstant - 30000], and the test is false
    of an absent timestamp. *)
Theorem X20_base_visibility `{JS.Runtime}
    (cfg : Express.config) (now : Z) (req : Express.request)
    (st : Server.state) (st' : Legacy.state) :
  (∀ found n,
     (Server.get_commands cfg now req st).1 = Server.CommandList found n →
     found `sublist_of` Server.commands st
     ∧ ∀ cmd, cmd ∈ found →
         Props.base_visible now req (Server.scriptId cmd)
           (Server.playerId cmd) (Server.timestamp cmd))
  ∧ (∀ found n,
       (Legacy.get_commands cfg now req st').1 = Legacy.CommandList found n →
       found `sublist_of` Legacy.commands st'
       ∧ ∀ cmd, cmd ∈ found →
           Props.base_visible now req (Legacy.scriptId cmd)
             (Legacy.playerId cmd) (Legacy.timestamp cmd))
  ∧ JS.value_lt JS.undefined (now - 30000) = JS.Normal false.
Proof.
  split_and!; [| |done].
  - intros found n (_ & Hfound & _)%get_commands_list.
    split.
    { unfold Server.filteredCommands in Hfound.
      apply filter_cb_Normal in Hfound as [-> _]. apply sublist_filter. }
    intros cmd (_ & Hs & Hp & Hrecent & _)%(elem_of_filteredCommands
                                             _ _ _ _ _ Hfound).
    split_and!; [done..|]. by apply value_lt_false_ge.
  - intros found n ->%legacy_get_commands_list.
    split; [apply sublist_filter|].
    intros cmd [Hvis _]%list_elem_of_filter.
    apply legacy_visible_true in Hvis as (Hs & Hp & Hrecent & _).
    split_and!; [done..|]. by apply value_lt_false_ge.
Qed.

(** Both servers hold the [bring] commands of the examples; the poller
    B receives them at instant 2000, and each has the base visibility. *)
Lemma X20_base_visibility_witness :
  Props.base_visible (H := Props.digits_runtime) 2000 (Examples.poll "s1" "B")
    (Server.scriptId Examples.bring_record)
    (Server.playerId Examples.bring_record)
    (Server.timestamp Examples.bring_record)
  ∧ Props.base_visible (H := Props.digits_runtime) 2000 (Examples.poll "s1" "B")
      (Legacy.scriptId Examples.legacy_untimed_bring_record)
      (Legacy.playerId Examples.legacy_untimed_bring_record)
      (Legacy.timestamp Examples.legacy_untimed_bring_record).
Proof.
  destruct (X20_base_visibility (H := Props.digits_runtime) Examples.cfg_open
              2000 (Examples.poll "s1" "B") Examples.admin1_sent_bring
              Examples.legacy_two_brings) as (Hserver & Hlegacy & _).
  split.
  - apply (Hserver [Examples.bring_record] 1); [reflexivity|left].
  - apply (Hlegacy
             [Examples.legacy_bring_record; Examples.legacy_untimed_bring_record]
             2); [reflexivity|right; left].
Defined.

(** X21. The trim of an accepted submission. In both variants, a
    submission that is answered as accepted leaves at most 100 records;
    and after a run of accepted submissions the log is the last 100
    records of the log before it followed by the records appended, in
    that order; it then holds exactly 100 records as soon as those are
    100 or more. *)
Theorem X21_accepted_trim
    (cfg : Express.config) (subs : list (Z * Express.request))
    (st : Server.state) (st' : Legacy.state) :
  (∀ now req,
     ServerProps.command_accepted (Server.post_command cfg now req st).1 →
     length (Server.commands (Server.post_command cfg now req st).2) ≤ 100)
  ∧ (subs ≠ [] →
     Forall ServerProps.command_accepted (ServerProps.submit_all cfg subs st).1 →
     Server.commands (ServerProps.submit_all cfg subs st).2
     = Eff.slice_last 100
         (Server.commands st
          ++ map (λ s, ServerProps.created st s.1 s.2) subs)
     ∧ length (Server.commands (ServerProps.submit_all cfg subs st).2) ≤ 100
     ∧ (100 ≤ length (Server.commands st) + length subs →
        length (Server.commands (ServerProps.submit_all cfg subs st).2) = 100))
  ∧ (∀ now req,
       LegacyProps.command_accepted (Legacy.post_command cfg now req st').1 →
       length (Legacy.commands (Legacy.post_command cfg now req st').2) ≤ 100)
  ∧ (subs ≠ [] →
     Forall LegacyProps.command_accepted (LegacyProps.submit_all cfg subs st').1 →
     Legacy.commands (LegacyProps.submit_all cfg subs st').2
     = Eff.slice_last 100
         (Legacy.commands st'
          ++ map (λ s, LegacyProps.created s.1 s.2) subs)
     ∧ length (Legacy.commands (LegacyProps.submit_all cfg subs st').2) ≤ 100
     ∧ (100 ≤ length (Legacy.commands st') + length subs →
        length (Legacy.commands (LegacyProps.submit_all cfg subs st').2) = 100)).
Proof.
  split_and!.
  - intros now req (_ & ->)%post_command_accepted_inv. simpl.
    rewrite length_slice_last. lia.
  - intros Hne Hall. rewrite submit_all_accepted by done. simpl.
    split; [done|]. rewrite length_slice_last, length_app, length_map. lia.
  - intros now req ->%legacy_post_command_accepted_inv. simpl.
    rewrite length_slice_last. lia.
  - intros Hne Hall. rewrite legacy_submit_all_accepted by done. simpl.
    split; [done|]. rewrite length_slice_last, length_app, length_map. lia.
Qed.

(** 101 accepted submissions to the empty servers leave 100 records: the
    first one is evicted, the oldest record left is the second one. *)
Lemma X21_accepted_trim_witness :
  Forall ServerProps.command_accepted
    (ServerProps.submit_all Examples.cfg_open Examples.submissions_101
       Server.initial).1
  ∧ length (Server.commands
              (ServerProps.submit_all Examples.cfg_open
                 Examples.submissions_101 Server.initial).2) = 100
  ∧ Server.cmdId
      <$> head (Server.commands
                  (ServerProps.submit_all Examples.cfg_open
                     Examples.submissions_101 Server.initial).2) = Some "2"
  ∧ Forall LegacyProps.command_accepted
      (LegacyProps.submit_all Examples.cfg_open Examples.submissions_101
         Legacy.initial).1
  ∧ length (Legacy.commands
              (LegacyProps.submit_all Examples.cfg_open
                 Examples.submissions_101 Legacy.initial).2) = 100.
Proof.
  assert (Forall ServerProps.command_accepted
            (ServerProps.submit_all Examples.cfg_open Examples.submissions_101
               Server.initial).1) as Hserver.
  { vm_compute. repeat (constructor; [exact I|]). constructor. }
  assert (Forall LegacyProps.command_accepted
            (LegacyProps.submit_all Examples.cfg_open Examples.submissions_101
               Legacy.initial).1) as Hlegacy.
  { vm_compute. repeat (constructor; [exact I|]). constructor. }
  destruct (X21_accepted_trim Examples.cfg_open Examples.submissions_101
              Server.initial Legacy.initial)
    as (_ & Hrun & _ & Hrun').
  destruct Hrun as (_ & _ & Hfull); [discriminate | exact Hserver |].
  destruct Hrun' as (_ & _ & Hfull'); [discriminate | exact Hlegacy |].
  split_and!; [exact Hserver | | reflexivity | exact Hlegacy |].
  - apply Hfull. vm_compute. lia.
  - apply Hfull'. vm_compute. lia.
Defined.

(** X22. A timestamp that has no conversion to a number. When the
    role-aware server accepts a command whose timestamp is an object with
    an own [toString] (or an array holding one), every validated poll of
    the command's scriptId by another player is answered with the
    internal error, at whatever instant, and the cleanup throws at
    whatever instant: as the timer callback has no [try], the process
    ends there, and a run stops with the stores as they were. *)
Theorem X22_unconvertible_timestamp `{JS.Runtime}
    (cfg : Express.config) (now : Z) (sub : Express.request)
    (st : Server.state) :
  ServerProps.command_accepted (Server.post_command cfg now sub st).1 →
  JS.to_string_throws (Express.body_timestamp sub) = true →
  (∀ later req,
     Props.poll_validated (Server.validateApiKey cfg req) req = true →
     Express.body_scriptId sub = JS.VPrim (Express.query_scriptId req) →
     Express.body_playerId sub ≠ JS.VPrim (Express.query_playerId req) →
     Server.get_commands cfg later req (Server.post_command cfg now sub st).2
     = (Server.InternalServerError, (Server.post_command cfg now sub st).2))
  ∧ (∀ pruneInstant,
       Server.cleanup pruneInstant (Server.post_command cfg now sub st).2
       = JS.Throw)
  ∧ (∀ pruneInstant es,
       ServerProps.run cfg (Props.Cleanup pruneInstant :: es)
         (Server.post_command cfg now sub st).2
       = (Server.post_command cfg now sub st).2).
Proof.
  intros Hacc Hthrows.
  pose proof (server_stored cfg now sub st Hacc) as Hlast.
  assert (ServerProps.created st now sub
          ∈ Server.commands (Server.post_command cfg now sub st).2) as Hin.
  { destruct (Server.commands (Server.post_command cfg now sub st).2)
      as [|c l] using rev_ind; [done|].
    rewrite last_snoc in Hlast. injection Hlast as ->.
    apply elem_of_app. right. by left. }
  assert (Server.timestamp (ServerProps.created st now sub)
          = Express.body_timestamp sub
          ∧ Server.scriptId (ServerProps.created st now sub)
            = Express.body_scriptId sub
          ∧ Server.playerId (ServerProps.created st now sub)
            = Express.body_playerId sub) as (Hts & Hsid & Hpid).
  { unfold ServerProps.created. by destruct (Server.authorizedUsers_has _ _). }
  assert (∀ pruneInstant,
            Server.cleanup pruneInstant (Server.post_command cfg now sub st).2
            = JS.Throw) as Hcleanup.
  { intros pruneInstant.
    destruct (cleanup_cases pruneInstant (Server.post_command cfg now sub st).2)
      as [[Hconv _]|[_ ->]]; [|done].
    unfold ServerProps.timestamps_convertible in Hconv.
    rewrite Forall_forall in Hconv. specialize (Hconv _ Hin).
    unfold Props.convertible in Hconv. congruence. }
  split_and!.
  - intros later req Hv Hs Hp. rewrite get_commands_validated by done.
    assert (Server.filteredCommands later req (Server.post_command cfg now sub st).2
            = JS.Throw) as ->; [|done].
    apply filteredCommands_Throw. exists (ServerProps.created st now sub).
    split_and!; [done|congruence|congruence|congruence].
  - done.
  - intros pruneInstant es. simpl. by rewrite Hcleanup.
Qed.

(** Admin1 sends [bring] with such a timestamp: the poll of B is answered
    with the internal error. *)
Lemma X22_unconvertible_timestamp_witness :
  Server.get_commands (H := Props.digits_runtime) Examples.cfg_open 2000
    (Examples.poll "s1" "B")
    (Server.post_command Examples.cfg_open 1000
       MoreExamples.bring_poisoned_timestamp Examples.admin1_registered).2
  = (Server.InternalServerError,
     (Server.post_command Examples.cfg_open 1000
        MoreExamples.bring_poisoned_timestamp Examples.admin1_registered).2).
Proof.
  destruct (X22_unconvertible_timestamp (H := Props.digits_runtime)
              Examples.cfg_open 1000 MoreExamples.bring_poisoned_timestamp
              Examples.admin1_registered) as (Hpoll & _ & _);
    [exact I | reflexivity |].
  apply Hpoll; [reflexivity | reflexivity | discriminate].
Defined.
